(** * ELUNet and the cardiac dataset adapter: a shallow embedding

    The development follows the two source files of the repository:

    - [Model/cardiacdata.py]: the crop functions and the dataset adapter.
      NumPy arrays are modelled as a shape together with an indexing
      function, strings as [string].
    - [Model/ELUNet.py]: the layers, blocks and the network.  Tensors are
      modelled by their shape and a symbolic record of the operations that
      produced them.

    A Python exception is a [Raise] result.  Code with effects (opening
    files, calling submodules) runs in a small trace monad, so that a
    statement can speak of what a run did before it returned or raised.
    The definitions come first, the lemmas and theorems after them. *)

From Stdlib Require Import ZArith Lia String Ascii.
From stdpp Require Import base numbers list strings.

(** ** Python results and sequence primitives *)

Module Py.
Local Open Scope Z_scope.

(** The exception classes that the modelled code can raise. *)
Inductive exn :=
| IndexError
| ValueError
| NameError
| RuntimeError
| NotImplementedError
| AttributeError
| FileNotFoundError.

Inductive result (A : Type) :=
| Ok (a : A)
| Raise (e : exn).
Arguments Ok {A} a.
Arguments Raise {A} e.

#[global] Instance result_ret : MRet result := fun A a => Ok a.

#[global] Instance result_bind : MBind result := fun A B f r =>
  match r with
  | Ok a => f a
  | Raise e => Raise e
  end.

Definition of_option {A} (e : exn) (o : option A) : result A :=
  match o with
  | Some a => Ok a
  | None => Raise e
  end.

(** [l[i]] on a list or tuple: negative indices count from the end. *)
Definition index {A} (l : list A) (i : Z) : result A :=
  let n := Z.of_nat (length l) in
  if i <? 0
  then (if 0 <=? n + i then of_option IndexError (l !! Z.to_nat (n + i))
        else Raise IndexError)
  else of_option IndexError (l !! Z.to_nat i).

(** A bound of a slice [lo:hi] on an axis of size [n], as [slice.indices]
    computes it for step 1. *)
Definition clamp (n i : Z) : Z :=
  if i <? 0 then Z.max 0 (i + n) else Z.min i n.

Definition slice_start (n lo : Z) : Z := clamp n lo.

Definition slice_len (n lo hi : Z) : Z := Z.max 0 (clamp n hi - clamp n lo).

(** [int(a / b)] on integers: true division, then truncation towards 0
    (exact for the sizes of arrays, far below 2^53). *)
Definition int_div (a b : Z) : Z := Z.quot a b.

End Py.

(** ** NumPy arrays *)

Module Np.
Import Py.
Local Open Scope Z_scope.

Section Arrays.
Context {A : Type}.

(** An array of any rank: its shape and its element at a full index.
    Element types stay abstract: a [dtype] promotion, as when integer
    voxels meet the float32 zeros of [np.zeros], keeps every number. *)
Record ndarray := mk_ndarray { shape : list Z; item : list Z -> A }.

Definition zeros (zero : A) (sh : list Z) : ndarray :=
  {| shape := sh; item := fun _ => zero |}.

(** One entry of a basic index: [:] or [lo:hi]. *)
Inductive slicespec :=
| Full
| Range (lo hi : Z).

Definition spec_start (s : slicespec) (n : Z) : Z :=
  match s with
  | Full => 0
  | Range lo _ => slice_start n lo
  end.

Definition spec_len (s : slicespec) (n : Z) : Z :=
  match s with
  | Full => n
  | Range lo hi => slice_len n lo hi
  end.

Fixpoint slice_shape (specs : list slicespec) (sh : list Z) : result (list Z) :=
  match specs, sh with
  | [], _ => Ok sh
  | _ :: _, [] => Raise IndexError
  | s :: specs', n :: sh' =>
      sh'' ← slice_shape specs' sh'; Ok (spec_len s n :: sh'')
  end.

Fixpoint slice_src (specs : list slicespec) (sh idx : list Z) : list Z :=
  match specs, sh, idx with
  | s :: specs', n :: sh', i :: idx' =>
      (spec_start s n + i) :: slice_src specs' sh' idx'
  | _, _, _ => idx
  end.

(** [a[s0, s1, ...]] with slices only. *)
Definition getslice (a : ndarray) (specs : list slicespec) : result ndarray :=
  sh ← slice_shape specs (shape a);
  Ok {| shape := sh; item := fun idx => item a (slice_src specs (shape a) idx) |}.

(** [a[i]] with one integer. *)
Definition getitem (a : ndarray) (i : Z) : result ndarray :=
  match shape a with
  | [] => Raise IndexError
  | n :: sh' =>
      let j := if i <? 0 then n + i else i in
      if (0 <=? j) && (j <? n)
      then Ok {| shape := sh'; item := fun idx => item a (j :: idx) |}
      else Raise IndexError
  end.

(** Two shapes agree everywhere except on [axis]. *)
Fixpoint same_except (axis : nat) (s1 s2 : list Z) : bool :=
  match s1, s2 with
  | [], [] => false
  | n1 :: s1', n2 :: s2' =>
      match axis with
      | O => bool_decide (s1' = s2')
      | S k => (n1 =? n2) && same_except k s1' s2'
      end
  | _, _ => false
  end.

(** [np.concatenate((a, b), axis)]. *)
Definition concatenate (a b : ndarray) (axis : nat) : result ndarray :=
  if same_except axis (shape a) (shape b)
  then
    let na := default 0 (shape a !! axis) in
    let nb := default 0 (shape b !! axis) in
    Ok {| shape := <[axis := na + nb]> (shape a);
          item := fun idx =>
            let i := default 0 (idx !! axis) in
            if i <? na then item a idx else item b (<[axis := i - na]> idx) |}
  else Raise ValueError.

(** [np.expand_dims(a, axis=0)]. *)
Definition expand_dims0 (a : ndarray) : ndarray :=
  {| shape := 1 :: shape a; item := fun idx => item a (tail idx) |}.

Definition size_of (sh : list Z) : Z := fold_right Z.mul 1 sh.

(** Row-major position of an index, and back. *)
Fixpoint ravel (sh idx : list Z) : Z :=
  match sh, idx with
  | n :: sh', i :: idx' => i * size_of sh' + ravel sh' idx'
  | _, _ => 0
  end.

Fixpoint unravel (sh : list Z) (p : Z) : list Z :=
  match sh with
  | [] => []
  | n :: sh' => (p / size_of sh') :: unravel sh' (p mod size_of sh')
  end.

(** [np.reshape(a, newshape)] with explicit non-negative dimensions. *)
Definition reshape (a : ndarray) (newshape : list Z) : result ndarray :=
  if forallb (fun n => 0 <=? n) newshape && (size_of newshape =? size_of (shape a))
  then Ok {| shape := newshape;
             item := fun idx => item a (unravel (shape a) (ravel newshape idx)) |}
  else Raise ValueError.

(** Same shape and same element at every index of that rank. *)
Definition array_eq (a b : ndarray) : Prop :=
  shape a = shape b /\
  forall idx, length idx = length (shape a) -> item a idx = item b idx.

(** Elementwise map, used for [astype] and the arithmetic of
    [normalize_img]. *)
Definition map_array (f : A -> A) (a : ndarray) : ndarray :=
  {| shape := shape a; item := fun idx => f (item a idx) |}.

End Arrays.
Arguments ndarray : clear implicits.
End Np.

(** ** Effects: a trace of events next to a result

    A computation leaves the events it performed (files opened, submodules
    called) in order, also when it ends in an exception. *)

Module Trace.
Import Py.

Definition traced (E A : Type) : Type := (list E * result A)%type.

#[global] Instance traced_ret {E} : MRet (traced E) := fun A a => ([], Ok a).

#[global] Instance traced_bind {E} : MBind (traced E) := fun A B f m =>
  match m with
  | (l, Ok a) => let '(l', r) := f a in (l ++ l', r)
  | (l, Raise e) => (l, Raise e)
  end.

Definition emit {E} (e : E) : traced E unit := ([e], Ok tt).

Definition lift {E A} (r : result A) : traced E A := ([], r).

Definition events {E A} (m : traced E A) : list E := fst m.

Definition outcome {E A} (m : traced E A) : result A := snd m.

End Trace.

(** ** Strings, as [str] methods use them in [cardiacdata.__init__] *)

Module Str.
Import Py.
Local Open Scope Z_scope.

Definition nl : ascii := "010"%char.

Definition is_digit (c : ascii) : bool :=
  let n := Z.of_N (N_of_ascii c) in (48 <=? n) && (n <=? 57).

Definition digit_val (c : ascii) : Z := Z.of_N (N_of_ascii c) - 48.

Definition flush (cur : string) : list string :=
  match cur with
  | EmptyString => []
  | _ => [cur]
  end.

(** [re.findall(r'\d+', s)]: the maximal runs of digits, left to right;
    [cur] is the run being read. *)
Fixpoint findall_digits_from (cur s : string) : list string :=
  match s with
  | EmptyString => flush cur
  | String c s' =>
      if is_digit c then findall_digits_from (cur +:+ String c EmptyString) s'
      else flush cur ++ findall_digits_from EmptyString s'
  end.

Definition findall_digits (s : string) : list string :=
  findall_digits_from EmptyString s.

Fixpoint replicate_char (n : nat) (c : ascii) : string :=
  match n with
  | O => EmptyString
  | S n' => String c (replicate_char n' c)
  end.

(** [s.zfill(width)]: zeros go after a leading sign. *)
Definition zfill (width : nat) (s : string) : string :=
  let fill := replicate_char (width - String.length s) "0"%char in
  match s with
  | String c s' =>
      if (Ascii.eqb c "+" || Ascii.eqb c "-")%bool
      then String c (fill +:+ s')
      else fill +:+ s
  | EmptyString => fill
  end.

(** [s.split(sep)] for a one-character separator: never empty. *)
Fixpoint split (sep : ascii) (s : string) : list string :=
  match s with
  | EmptyString => [EmptyString]
  | String c s' =>
      if Ascii.eqb c sep then EmptyString :: split sep s'
      else match split sep s' with
           | [] => [String c EmptyString]
           | h :: t => String c h :: t
           end
  end.

Definition is_space (c : ascii) : bool :=
  let n := Z.of_N (N_of_ascii c) in ((9 <=? n) && (n <=? 13)) || (n =? 32).

Fixpoint lstrip (s : string) : string :=
  match s with
  | String c s' => if is_space c then lstrip s' else s
  | EmptyString => EmptyString
  end.

(** Digits up to trailing white space; single underscores may separate
    digits. *)
Fixpoint int_digits (s : string) (acc : Z) (after_digit : bool) : option Z :=
  match s with
  | EmptyString => if after_digit then Some acc else None
  | String c s' =>
      if is_digit c then int_digits s' (10 * acc + digit_val c) true
      else if Ascii.eqb c "_" && after_digit then int_digits s' acc false
      else if is_space c && after_digit
      then match lstrip s' with EmptyString => Some acc | _ => None end
      else None
  end.

(** [int(s)] on a string in base 10. *)
Definition int (s : string) : result Z :=
  of_option ValueError
    match lstrip s with
    | String "-" s' => Z.opp <$> int_digits s' 0 false
    | String "+" s' => int_digits s' 0 false
    | s' => int_digits s' 0 false
    end.

Definition digit_char (d : Z) : ascii := ascii_of_N (Z.to_N (48 + d)).

(** The decimal digits of a positive number, most significant first;
    [fuel] bounds the number of digits. *)
Fixpoint digits_of (fuel : nat) (n : Z) (acc : string) : string :=
  match fuel with
  | O => acc
  | S fuel' =>
      let acc' := String (digit_char (n mod 10)) acc in
      if n <? 10 then acc' else digits_of fuel' (n / 10) acc'
  end.

(** [str(n)] on an integer. *)
Definition str (n : Z) : string :=
  if n <? 0
  then String "-" (digits_of (S (Z.to_nat (Z.log2 (- n)))) (- n) EmptyString)
  else digits_of (S (Z.to_nat (Z.log2 n))) n EmptyString.

End Str.

(** ** [Model/cardiacdata.py] *)

Module Cardiac.
Import Py Np Trace Str.
Local Open Scope Z_scope.

Definition IMG_DIR : string :=
  "/Users/darshan/Documents/Engineering/8th-Semester/FrontEnd/ACDC/database/training".

Section Dataset.
Context {A : Type}.

(** The zero of [np.zeros], and the floating-point operations that the
    adapter applies to elements; they stay abstract. *)
Variable zero : A.
Variable np_mean np_std : ndarray A -> A.
Variable sub div : A -> A -> A.
Variable to_float32 to_long : A -> A.

(** The file system: [sitk.GetArrayFromImage(sitk.ReadImage(path))] and
    [open(path, "r").read()]. *)
Variable ReadImage : string -> result (ndarray A).
Variable read_text : string -> result string.

(** [img.copy().astype(np.float32)], then [img -= np.mean(img)] and
    [img /= np.std(img)], each statistic taken of the array as it is at
    that line. *)
Definition normalize_img (img : ndarray A) : ndarray A :=
  let img := map_array to_float32 img in
  let m := np_mean img in
  let img := map_array (fun v => sub v m) img in
  let s := np_std img in
  map_array (fun v => div v s) img.

(** [crop_img], for a (time, depth, x, y) volume. *)
Definition crop_img (img : ndarray A) : result (ndarray A) :=
  let sizex := 144 in
  let sizey := 144 in
  let sizez := 8 in
  let sh := shape img in
  sh2 ← index sh 2;
  let midptx := int_div sh2 2 in
  sh3 ← index sh 3;
  let midpty := int_div sh3 2 in
  sh1 ← index sh 1;
  if sh1 <? 8 then
    let residue := 8 - sh1 in
    sh0 ← index sh 0;
    let a := zeros zero [sh0; residue; 144; 144] in
    img ← getslice img
      [Full; Full;
       Range (midptx - int_div sizex 2) (midptx + int_div sizex 2);
       Range (midpty - int_div sizey 2) (midpty + int_div sizey 2)];
    concatenate img a 1
  else
    let midptz := int_div sh1 2 in
    getslice img
      [Full;
       Range (midptz - int_div sizez 2) (midptz + int_div sizez 2);
       Range (midptx - int_div sizex 2) (midptx + int_div sizex 2);
       Range (midpty - int_div sizey 2) (midpty + int_div sizey 2)].

(** [crop_label], for a (depth, x, y) volume. *)
Definition crop_label (img : ndarray A) : result (ndarray A) :=
  let sizex := 144 in
  let sizey := 144 in
  let sizez := 8 in
  let sh := shape img in
  sh1 ← index sh 1;
  let midptx := int_div sh1 2 in
  sh2 ← index sh 2;
  let midpty := int_div sh2 2 in
  sh0 ← index sh 0;
  if sh0 <? 8 then
    let residue := 8 - sh0 in
    let a := zeros zero [residue; 144; 144] in
    img ← getslice img
      [Full;
       Range (midptx - int_div sizex 2) (midptx + int_div sizex 2);
       Range (midpty - int_div sizey 2) (midpty + int_div sizey 2)];
    concatenate img a 0
  else
    let midptz := int_div sh0 2 in
    getslice img
      [Range (midptz - int_div sizez 2) (midptz + int_div sizez 2);
       Range (midptx - int_div sizex 2) (midptx + int_div sizex 2);
       Range (midpty - int_div sizey 2) (midpty + int_div sizey 2)].

(** [crop_img_paper]: the depth axis only, the spatial axes as they are. *)
Definition crop_img_paper (img : ndarray A) : result (ndarray A) :=
  let sizez := 8 in
  let sh := shape img in
  sh1 ← index sh 1;
  if sh1 <? 8 then
    let residue := 8 - sh1 in
    sh0 ← index sh 0;
    sh2 ← index sh 2;
    sh3 ← index sh 3;
    let a := zeros zero [sh0; residue; sh2; sh3] in
    concatenate img a 1
  else
    let midptz := int_div sh1 2 in
    getslice img
      [Full; Range (midptz - int_div sizez 2) (midptz + int_div sizez 2);
       Full; Full].

(** [crop_label_paper] *)
Definition crop_label_paper (img : ndarray A) : result (ndarray A) :=
  let sizez := 8 in
  let sh := shape img in
  sh0 ← index sh 0;
  if sh0 <? 8 then
    let residue := 8 - sh0 in
    sh1 ← index sh 1;
    sh2 ← index sh 2;
    let a := zeros zero [residue; sh1; sh2] in
    concatenate img a 0
  else
    let midptz := int_div sh0 2 in
    getslice img
      [Range (midptz - int_div sizez 2) (midptz + int_div sizez 2); Full; Full].

(** *** The dataset object *)

Record cardiacdata := mk_cardiacdata {
  img : ndarray A;
  gt : ndarray A;
  len : Z
}.

(** Opening a file is an event: the path, as the code assembled it. *)
Definition sitk_read (path : string) : traced string (ndarray A) :=
  _ ← emit path; lift (ReadImage path).

Definition open_read (path : string) : traced string string :=
  _ ← emit path; lift (read_text path).

(** [re.findall(r'\d+', folder_name)[0].zfill(3)] *)
Definition ptnum_of (folder_name : string) : result string :=
  first ← index (findall_digits folder_name) 0;
  mret (zfill 3 first).

(** [int(content.split("\n")[line].split(":")[1])] *)
Definition frame_of (content : string) (line : Z) : result Z :=
  l ← index (split nl content) line;
  field ← index (split ":" l) 1;
  int field.

Definition patient_dir (ptnum : string) : string :=
  IMG_DIR +:+ "/patient" +:+ ptnum.

Definition gt_dir (ptnum : string) (frame : Z) : string :=
  patient_dir ptnum +:+ "/patient" +:+ ptnum +:+ "_frame" +:+ zfill 2 (str frame)
    +:+ "_gt.nii.gz".

(** [np.reshape(v, [v.shape[0] * v.shape[1], v.shape[2], v.shape[3]])] *)
Definition merge_leading (v : ndarray A) : result (ndarray A) :=
  d0 ← index (shape v) 0;
  d1 ← index (shape v) 1;
  d2 ← index (shape v) 2;
  d3 ← index (shape v) 3;
  reshape v [d0 * d1; d2; d3].

(** [cardiacdata.__init__], statement by statement. *)
Definition __init__ (folder_name : string) : traced string cardiacdata :=
  ptnum ← lift (ptnum_of folder_name);
  let img_dir := patient_dir ptnum +:+ "/patient" +:+ ptnum +:+ "_4d.nii.gz" in
  dummy_img ← sitk_read img_dir;
  dummy_img ← lift (crop_img dummy_img);
  content ← open_read (patient_dir ptnum +:+ "/" +:+ "Info.cfg");
  es ← lift (frame_of content 1);
  es_label ← sitk_read (gt_dir ptnum es);
  es_label ← lift (crop_label es_label);
  content ← open_read (patient_dir ptnum +:+ "/" +:+ "Info.cfg");
  ed ← lift (frame_of content 0);
  ed_label ← sitk_read (gt_dir ptnum ed);
  ed_label ← lift (crop_label ed_label);
  a ← lift (getslice dummy_img [Range (ed - 1) ed]);
  b ← lift (getslice dummy_img [Range (es - 1) es]);
  dummy_img ← lift (concatenate a b 0);
  let dummy_img := normalize_img dummy_img in
  let ed_label := expand_dims0 ed_label in
  let es_label := expand_dims0 es_label in
  dummy_gt ← lift (concatenate ed_label es_label 0);
  img2 ← lift (merge_leading dummy_img);
  gt2 ← lift (merge_leading dummy_gt);
  let self_img := expand_dims0 img2 in
  let self_gt := expand_dims0 gt2 in
  self_len ← lift (index (shape self_img) 0);
  mret {| img := self_img; gt := self_gt; len := self_len |}.

(** [__len__] *)
Definition __len__ (self : cardiacdata) : Z := len self.

(** [__getitem__]: the image gets a leading axis ([unsqueeze(0)]). *)
Definition __getitem__ (self : cardiacdata) (i : Z)
  : result (ndarray A * ndarray A) :=
  im ← getitem (img self) i;
  g ← getitem (gt self) i;
  let im := expand_dims0 (map_array to_float32 im) in
  let g := map_array to_long (map_array to_float32 g) in
  mret (im, g).

End Dataset.
End Cardiac.

(** ** Tensors and the [torch.nn] layers that [Model/ELUNet.py] uses

    A tensor is its shape and the symbolic operation that produced it.
    The layers are PyTorch's, not the repository's: their shape rules are
    written out here as the library documents them, and a violated rule
    raises.  Weights and floating-point values are not modelled. *)

Module Torch.
Import Py Trace.
Local Open Scope Z_scope.

Record Conv3d := mk_Conv3d {
  in_channels : Z;
  out_channels : Z;
  kernel_size : Z;
  stride : Z;
  padding : Z;
  bias : bool
}.

Record ConvTranspose3d := mk_ConvTranspose3d {
  ct_in_channels : Z;
  ct_out_channels : Z;
  ct_kernel_size : Z;
  ct_stride : Z
}.

Record MaxPool3d := mk_MaxPool3d {
  mp_kernel_size : Z;
  mp_stride : Z;
  mp_padding : Z
}.

Record Upsample := mk_Upsample {
  up_mode : string;
  scale_factor : Z
}.

(** How a tensor was computed. *)
Inductive value :=
| Leaf (n : nat)
| VConv3d (c : Conv3d) (x : value)
| VConvTranspose3d (c : ConvTranspose3d) (x : value)
| VReLU (x : value)
| VMaxPool3d (m : MaxPool3d) (x : value)
| VUpsample (u : Upsample) (x : value)
| VInterpolate (size : list Z) (x : value)
| VCat (x y : value).

Record tensor := mk_tensor { shape : list Z; val : value }.

(** [t.shape[2:]] *)
Definition spatial (t : tensor) : list Z := drop 2 (shape t).

(** A 3D layer takes a batched [(N, C, D, H, W)] or an unbatched
    [(C, D, H, W)] input. *)
Definition as_volume (sh : list Z) : result (list Z * Z * list Z) :=
  match sh with
  | [n; c; d; h; w] => Ok ([n], c, [d; h; w])
  | [c; d; h; w] => Ok ([], c, [d; h; w])
  | _ => Raise RuntimeError
  end.

(** The channel count that a 3D layer sees. *)
Definition channels (t : tensor) : result Z :=
  '(_, c, _) ← as_volume (shape t); mret c.

Fixpoint map_result {A B} (f : A -> result B) (l : list A) : result (list B) :=
  match l with
  | [] => Ok []
  | a :: l' => b ← f a; bs ← map_result f l'; mret (b :: bs)
  end.

(** Output size of a convolution or pooling window along one axis. *)
Definition window_out (k s p n : Z) : result Z :=
  if (k <=? n + 2 * p) && (0 <? s) then Ok ((n + 2 * p - k) / s + 1)
  else Raise RuntimeError.

Definition Conv3d_forward (c : Conv3d) (x : tensor) : result tensor :=
  '(batch, ch, sp) ← as_volume (shape x);
  if ch =? in_channels c then
    sp' ← map_result (window_out (kernel_size c) (stride c) (padding c)) sp;
    mret {| shape := batch ++ out_channels c :: sp'; val := VConv3d c (val x) |}
  else Raise RuntimeError.

Definition transpose_out (k s n : Z) : result Z :=
  if 1 <=? n then Ok ((n - 1) * s + k) else Raise RuntimeError.

(** A transpose convolution needs at least one input channel. *)
Definition ConvTranspose3d_forward (c : ConvTranspose3d) (x : tensor)
  : result tensor :=
  '(batch, ch, sp) ← as_volume (shape x);
  if (ch =? ct_in_channels c) && (1 <=? ch) then
    sp' ← map_result (transpose_out (ct_kernel_size c) (ct_stride c)) sp;
    mret {| shape := batch ++ ct_out_channels c :: sp';
            val := VConvTranspose3d c (val x) |}
  else Raise RuntimeError.

Definition MaxPool3d_forward (m : MaxPool3d) (x : tensor) : result tensor :=
  '(batch, ch, sp) ← as_volume (shape x);
  sp' ← map_result
          (fun n => o ← window_out (mp_kernel_size m) (mp_stride m) (mp_padding m) n;
                    if 1 <=? o then Ok o else Raise RuntimeError) sp;
  mret {| shape := batch ++ ch :: sp'; val := VMaxPool3d m (val x) |}.

Definition ReLU_forward (x : tensor) : tensor :=
  {| shape := shape x; val := VReLU (val x) |}.

(** Trilinear resampling needs a batched 5D input with non-empty volume. *)
Definition Upsample_forward (u : Upsample) (x : tensor) : result tensor :=
  match shape x with
  | [n; c; d; h; w] =>
      if forallb (fun m => 1 <=? m) [d; h; w] then
        Ok {| shape := [n; c; d * scale_factor u; h * scale_factor u;
                        w * scale_factor u];
              val := VUpsample u (val x) |}
      else Raise RuntimeError
  | _ => Raise NotImplementedError
  end.

(** [F.interpolate(x, size=size, mode='trilinear', align_corners=False)]:
    a [size] that does not have one entry per spatial axis of [x] is a
    [ValueError], whatever the rank of [x]; with a fitting [size], only a
    5D input can be resampled trilinearly. *)
Definition interpolate (x : tensor) (size : list Z) : result tensor :=
  match shape x, size with
  | [n; c; d; h; w], [d'; h'; w'] =>
      if forallb (fun m => 1 <=? m) [d; h; w; d'; h'; w'] then
        Ok {| shape := [n; c; d'; h'; w']; val := VInterpolate size (val x) |}
      else Raise RuntimeError
  | [_; _; _; _; _], _ => Raise ValueError
  | sh, _ =>
      if Z.of_nat (length size) =? Z.of_nat (length sh) - 2
      then Raise NotImplementedError
      else Raise ValueError
  end.

(** [torch.cat([x, y], dim=1)] *)
Definition cat1 (x y : tensor) : result tensor :=
  match shape x, shape y with
  | n :: c :: sp, n' :: c' :: sp' =>
      if (n =? n') && bool_decide (sp = sp') then
        Ok {| shape := n :: (c + c') :: sp; val := VCat (val x) (val y) |}
      else Raise RuntimeError
  | _, _ => Raise IndexError
  end.

End Torch.

(** ** [Model/ELUNet.py] *)

Module ELUNet.
Import Py Trace Torch.
Local Open Scope Z_scope.

(** [conv3x3(in_channels, out_channels, stride=1, padding=1, bias=True)]:
    the callers below pass the defaults [1 1 true].  The constructors
    are total here, while [nn.Conv3d] raises on a negative channel count:
    the statements about constructed blocks and networks assume channel
    counts that the constructors accept. *)
Definition conv3x3 (in_channels out_channels stride padding : Z) (bias : bool)
  : Conv3d :=
  {| in_channels := in_channels; out_channels := out_channels;
     kernel_size := 3; stride := stride; padding := padding; bias := bias |}.

Definition conv1x1 (in_channels out_channels : Z) : Conv3d :=
  {| in_channels := in_channels; out_channels := out_channels;
     kernel_size := 1; stride := 1; padding := 0; bias := true |}.

(** *** DsBlock *)

Record DsBlock := mk_DsBlock {
  ds_conv : Conv3d;
  ds_pooling : bool;
  ds_mp : option MaxPool3d
}.

(** [DsBlock.__init__]; the in-place [ReLU] has no parameters. *)
Definition DsBlock_init (in_channels out_channels : Z) (pooling : bool)
  : DsBlock :=
  {| ds_conv := conv3x3 in_channels out_channels 1 1 true;
     ds_pooling := pooling;
     ds_mp := if pooling
              then Some {| mp_kernel_size := 2; mp_stride := 2; mp_padding := 0 |}
              else None |}.

Definition DsBlock_forward (self : DsBlock) (x : tensor)
  : result (tensor * tensor) :=
  out ← Conv3d_forward (ds_conv self) x;
  let out := ReLU_forward out in
  let before_pool := out in
  out ← (if ds_pooling self
         then mp ← of_option AttributeError (ds_mp self); MaxPool3d_forward mp out
         else mret out);
  mret (out, before_pool).

(** *** upconv2x2 *)

Inductive upconv :=
| Transpose (c : ConvTranspose3d)
| Sequential (u : Upsample) (c : Conv3d).

Definition upconv2x2 (in_channels out_channels : Z) (mode : string) : upconv :=
  if String.eqb mode "transpose" then
    Transpose {| ct_in_channels := in_channels; ct_out_channels := out_channels;
                 ct_kernel_size := 2; ct_stride := 2 |}
  else
    Sequential {| up_mode := "trilinear"; scale_factor := 2 |}
               (conv1x1 in_channels out_channels).

Definition upconv_forward (u : upconv) (x : tensor) : result tensor :=
  match u with
  | Transpose c => ConvTranspose3d_forward c x
  | Sequential up c => x ← Upsample_forward up x; Conv3d_forward c x
  end.

(** *** UsBlock and UsBlockRes *)

Record UsBlock := mk_UsBlock {
  us_upconv : upconv;
  us_conv : Conv3d
}.

Definition UsBlock_init (in_channels out_channels : Z) (up_mode : string)
  : UsBlock :=
  {| us_upconv := upconv2x2 in_channels out_channels up_mode;
     us_conv := conv3x3 (in_channels + out_channels) out_channels 1 1 true |}.

Definition UsBlock_forward (self : UsBlock) (before_pool x : tensor)
  : result tensor :=
  x ← upconv_forward (us_upconv self) x;
  x ← Conv3d_forward (us_conv self) x;
  let x := ReLU_forward x in
  mret x.

Record UsBlockRes := mk_UsBlockRes {
  res_upconv : upconv;
  res_conv : Conv3d
}.

Definition UsBlockRes_init (in_channels out_channels : Z) (up_mode : string)
  : UsBlockRes :=
  {| res_upconv := upconv2x2 in_channels out_channels up_mode;
     res_conv := conv3x3 (out_channels + out_channels) out_channels 1 1 true |}.

(** The submodules of an [ELUNet] object, by attribute. *)
Inductive member :=
| conv_start_
| down_convs_ (i : nat)
| up_convs_ (i : nat)
| conv_
| conv_final_.

(** What a forward pass leaves in its trace. *)
Inductive event :=
| Call (m : member) (args : list tensor)
| Return (m : member) (outs : list tensor)
| Interpolate (t : tensor) (size : list Z).

(** The submodule that an event enters or leaves. *)
Definition event_member (e : event) : option member :=
  match e with
  | Call m _ | Return m _ => Some m
  | Interpolate _ _ => None
  end.

(** The resampling fallback: [F.interpolate] is an event. *)
Definition match_size (before_pool : tensor) (target_size : list Z)
  : traced event tensor :=
  if bool_decide (spatial before_pool ≠ target_size) then
    _ ← emit (Interpolate before_pool target_size);
    lift (interpolate before_pool target_size)
  else mret before_pool.

Definition UsBlockRes_forward (self : UsBlockRes) (before_pool x : tensor)
  : traced event tensor :=
  x ← lift (upconv_forward (res_upconv self) x);
  let target_size := spatial x in
  before_pool ← match_size before_pool target_size;
  x ← lift (cat1 x before_pool);
  x ← lift (Conv3d_forward (res_conv self) x);
  let x := ReLU_forward x in
  mret x.

Inductive up_block :=
| Plain (b : UsBlock)
| Res (b : UsBlockRes).

Definition up_block_forward (b : up_block) (before_pool x : tensor)
  : traced event tensor :=
  match b with
  | Plain b => lift (UsBlock_forward b before_pool x)
  | Res b => UsBlockRes_forward b before_pool x
  end.

Definition up_block_out_channels (b : up_block) : Z :=
  match b with
  | Plain b => out_channels (us_conv b)
  | Res b => out_channels (res_conv b)
  end.

(** *** ELUNet

    The attribute [self.skip_connections] that [__init__] sets to an empty
    list is never read: [forward] fills a local list of the same name. *)

Record ELUNet := mk_ELUNet {
  conv_start : Conv3d;
  down_convs : list DsBlock;
  up_convs : list up_block;
  conv_final : Conv3d;
  conv : Conv3d
}.

(** [range(n)] *)
Definition range (n : Z) : list Z := Z.of_nat <$> seq 0 (Z.to_nat n).

(** The encoder loop of [ELUNet.__init__] over [ixs = range(depth)];
    [outs] is unbound until the first iteration. *)
Fixpoint init_down (depth start_filts : Z) (ixs : list Z)
    (down_convs : list DsBlock) (outs : option Z)
  : list DsBlock * option Z :=
  match ixs with
  | [] => (down_convs, outs)
  | i :: ixs' =>
      let ins := start_filts * 2 ^ i in
      let outs := ins * 2 in
      let pooling := if i <? depth - 1 then true else false in
      let down_conv := DsBlock_init ins outs pooling in
      init_down depth start_filts ixs' (down_convs ++ [down_conv]) (Some outs)
  end.

(** The decoder loop of [ELUNet.__init__] over [range(depth - 1)];
    reading an unbound [outs] is a [NameError]. *)
Fixpoint init_up (up_mode : string) (res : bool) (ixs : list Z)
    (up_convs : list up_block) (outs : option Z)
  : result (list up_block * option Z) :=
  match ixs with
  | [] => Ok (up_convs, outs)
  | i :: ixs' =>
      ins ← of_option NameError outs;
      let outs := ins / 2 in
      let up_conv :=
        if res then Res (UsBlockRes_init (ins + outs) outs up_mode)
        else Plain (UsBlock_init ins outs up_mode) in
      init_up up_mode res ixs' (up_convs ++ [up_conv]) (Some outs)
  end.

(** [ELUNet.__init__]; [nn.ModuleList] only registers the lists. *)
Definition __init__ (num_classes in_channels depth start_filts : Z)
    (up_mode : string) (res : bool) : result ELUNet :=
  let conv_start := conv3x3 in_channels start_filts 1 1 true in
  let '(down_convs, outs) := init_down depth start_filts (range depth) [] None in
  '(up_convs, outs) ← init_up up_mode res (range (depth - 1)) [] outs;
  outs ← of_option NameError outs;
  let conv_final := conv1x1 outs num_classes in
  let conv := conv3x3 (outs * 2) outs 1 1 true in
  mret {| conv_start := conv_start; down_convs := down_convs;
          up_convs := up_convs; conv_final := conv_final; conv := conv |}.

(** A call of a submodule from [forward]: entered, run, returned. *)
Definition called {R} (m : member) (args : list tensor)
    (outs : R -> list tensor) (body : traced event R) : traced event R :=
  _ ← emit (Call m args);
  r ← body;
  _ ← emit (Return m (outs r));
  mret r.

(** The encoder loop of [forward], over [enumerate(self.down_convs)] from
    position [i]; [n] is [len(self.down_convs)]. *)
Fixpoint forward_down (n : nat) (i : nat) (modules : list DsBlock) (x : tensor)
    (encoder_outs skip_connections : list tensor)
  : traced event (tensor * list tensor * list tensor) :=
  match modules with
  | [] => mret (x, encoder_outs, skip_connections)
  | module :: modules' =>
      '(x, before_pool) ← called (down_convs_ i) [x]
                            (fun r => [fst r; snd r])
                            (lift (DsBlock_forward module x));
      let encoder_outs := encoder_outs ++ [before_pool] in
      let skip_connections :=
        if Z.of_nat i <? Z.of_nat n - 1 then skip_connections ++ [x]
        else skip_connections in
      forward_down n (S i) modules' x encoder_outs skip_connections
  end.

(** The decoder loop of [forward], over [enumerate(self.up_convs)]. *)
Fixpoint forward_up (conv : Conv3d) (i : nat) (modules : list up_block)
    (x : tensor) (encoder_outs skip_connections : list tensor)
  : traced event tensor :=
  match modules with
  | [] => mret x
  | module :: modules' =>
      skip ← lift (index skip_connections (- (Z.of_nat i + 1)));
      x ← called (up_convs_ i) [skip; x] (fun r => [r])
            (up_block_forward module skip x);
      before_pool ← lift (index encoder_outs (- (Z.of_nat i + 1)));
      let target_size := spatial x in
      before_pool ← match_size before_pool target_size;
      x ← lift (cat1 x before_pool);
      x ← called conv_ [x] (fun r => [r]) (lift (Conv3d_forward conv x));
      forward_up conv (S i) modules' x encoder_outs skip_connections
  end.

(** [ELUNet.forward] *)
Definition forward (self : ELUNet) (x : tensor)
  : traced event (tensor * list tensor) :=
  x ← called conv_start_ [x] (fun r => [r])
        (lift (Conv3d_forward (conv_start self) x));
  '(x, encoder_outs, skip_connections) ←
    forward_down (length (down_convs self)) 0 (down_convs self) x [] [];
  x ← forward_up (conv self) 0 (up_convs self) x encoder_outs skip_connections;
  mret (x, skip_connections).

End ELUNet.

(** ** Closed forms of the two loops of [ELUNet.__init__] *)

Module InitLoops.
Import Torch ELUNet.
Local Open Scope Z_scope.

(** The encoder stage that iteration [i] builds. *)
Definition down_stage (depth start_filts i : Z) : DsBlock :=
  DsBlock_init (start_filts * 2 ^ i) (start_filts * 2 ^ i * 2)
    (if i <? depth - 1 then true else false).

(** The decoder stages that [k] iterations build when [outs] is [o]. *)
Fixpoint up_stages (up_mode : string) (res : bool) (k : nat) (o : Z)
  : list up_block :=
  match k with
  | O => []
  | S k' =>
      let outs := o / 2 in
      (if res then Res (UsBlockRes_init (o + outs) outs up_mode)
       else Plain (UsBlock_init o outs up_mode))
      :: up_stages up_mode res k' outs
  end.

Fixpoint halved (k : nat) (o : Z) : Z :=
  match k with
  | O => o
  | S k' => halved k' (o / 2)
  end.

End InitLoops.

(** ** Folder names and configuration files of the loader scenario *)

Module Inputs.
Import Str.

(** No character of [s] is a digit. *)
Fixpoint no_digits (s : string) : Prop :=
  match s with
  | EmptyString => True
  | String c s' => is_digit c = false /\ no_digits s'
  end.

(** [s] is empty or starts with a character that is not a digit. *)
Definition not_digit_start (s : string) : Prop :=
  match s with
  | EmptyString => True
  | String c _ => is_digit c = false
  end.

(** An [Info.cfg] whose first two lines are [ED:1] and [ES:10]. *)
Definition two_lines (rest : string) : string :=
  "ED:1" +:+ String nl ("ES:10" +:+ rest).

(** What may follow the second line: nothing, or a line break. *)
Definition line_end (rest : string) : Prop :=
  match rest with
  | EmptyString => True
  | String c _ => c = nl
  end.

End Inputs.

(** ** A concrete case of the dataset *)

Module Example.
Import Py Np Cardiac Str.
Local Open Scope Z_scope.

(** A volume whose elements are their row-major positions. *)
Definition vol (sh : list Z) : ndarray Z :=
  {| shape := sh; item := fun idx => ravel sh idx |}.

(** Case 5 of a database: a 30-frame volume and the two label volumes. *)
Definition files (path : string) : result (ndarray Z) :=
  if String.eqb path (IMG_DIR +:+ "/patient005/patient005_4d.nii.gz")
  then Ok (vol [30; 10; 256; 216])
  else if String.eqb path (IMG_DIR +:+ "/patient005/patient005_frame01_gt.nii.gz")
  then Ok (vol [10; 256; 216])
  else if String.eqb path (IMG_DIR +:+ "/patient005/patient005_frame10_gt.nii.gz")
  then Ok (vol [10; 256; 216])
  else Raise FileNotFoundError.

Definition info_cfg : string := "ED:1" +:+ String nl "ES:10".

Definition texts (path : string) : result string :=
  if String.eqb path (IMG_DIR +:+ "/patient005/Info.cfg")
  then Ok info_cfg
  else Raise FileNotFoundError.

Definition dataset : Trace.traced string (cardiacdata (A:=Z)) :=
  __init__ 0 (fun _ => 0) (fun _ => 1) Z.sub Z.div id files texts "patient5".

End Example.

(** ** Concrete networks and inputs *)

Module ExampleNet.
Import Py Torch ELUNet.
Local Open Scope Z_scope.

Definition input (sh : list Z) : tensor := {| shape := sh; val := Leaf 0 |}.

(** The object that the [__main__] block of [ELUNet.py] builds: depth 4,
    one start filter, trilinear upsampling, [conv_start] assigned again. *)
Definition main_module : result ELUNet :=
  module ← __init__ 4 1 4 1 "trilinear" false;
  mret {| conv_start := conv3x3 1 1 1 1 true;
          down_convs := down_convs module;
          up_convs := up_convs module;
          conv_final := conv_final module;
          conv := conv module |}.

(** Its input, of shape (2, 1, 144, 144, 8). *)
Definition main_x : tensor := input [2; 1; 144; 144; 8].

(** A depth-2 object assembled by hand, with channel widths that agree. *)
Definition assembled : ELUNet :=
  {| conv_start := conv3x3 1 1 1 1 true;
     down_convs := [DsBlock_init 1 2 true; DsBlock_init 2 4 false];
     up_convs := [Res (UsBlockRes_init 4 2 "trilinear")];
     conv_final := conv1x1 2 4;
     conv := conv3x3 6 2 1 1 true |}.

End ExampleNet.

(** ** Predicates on text, for the statements about names and files *)

Module Texts.
Import Str.

(** Every character of [s] is a digit. *)
Fixpoint all_digits (s : string) : Prop :=
  match s with
  | EmptyString => True
  | String c s' => is_digit c = true /\ all_digits s'
  end.

(** The character [c] does not occur in [s]. *)
Fixpoint no_char (c : ascii) (s : string) : Prop :=
  match s with
  | EmptyString => True
  | String c' s' => c' <> c /\ no_char c s'
  end.

(** [k] blanks. *)
Definition blanks (k : nat) : string := replicate_char k " "%char.

(** One line [<key>:<n>] of an [Info.cfg], with [k] blanks after the
    colon. *)
Definition info_line (key : string) (k : nat) (n : Z) : string :=
  key +:+ String ":" (blanks k +:+ str n).

(** The lines [ED:<ed>] and [ES:<es>], followed by [rest]. *)
Definition info_lines (k1 k2 : nat) (ed es : Z) (rest : string) : string :=
  info_line "ED" k1 ed +:+ String nl (info_line "ES" k2 es +:+ rest).

End Texts.

(** * Verification *)

(** ** Results and traces *)

Module MonadFacts.
Import Py Trace.

Lemma result_bind_ok {A B} (m : result A) (f : A -> result B) b :
  m ≫= f = Ok b -> exists a, m = Ok a /\ f a = Ok b.
Proof. destruct m as [a|e]; [eauto | discriminate]. Qed.

Lemma traced_bind_ok {E A B} (m : traced E A) (f : A -> traced E B) b :
  outcome (m ≫= f) = Ok b -> exists a, outcome m = Ok a /\ outcome (f a) = Ok b.
Proof.
  destruct m as [l [a|e]]; cbn.
  - destruct (f a) as [l' r] eqn:Hf. cbn. intros ->. exists a. now rewrite Hf.
  - discriminate.
Qed.

Lemma traced_bind_events {E A B} (m : traced E A) (f : A -> traced E B) a :
  outcome m = Ok a -> events (m ≫= f) = events m ++ events (f a).
Proof.
  destruct m as [l [a'|e]]; cbn; [|discriminate].
  intros [= ->]. now destruct (f a).
Qed.

Lemma outcome_lift {E A} (r : result A) : outcome (lift (E:=E) r) = r.
Proof. reflexivity. Qed.

Lemma events_lift {E A} (r : result A) : events (lift (E:=E) r) = [].
Proof. reflexivity. Qed.


Lemma traced_bind_inv {E A B} (m : traced E A) (f : A -> traced E B) b :
  outcome (m ≫= f) = Ok b ->
  exists a, outcome m = Ok a /\ outcome (f a) = Ok b /\
    events (m ≫= f) = events m ++ events (f a).
Proof.
  intros H. destruct (traced_bind_ok m f b H) as (a & Ha & Hb).
  exists a. split; [exact Ha|]. split; [exact Hb|].
  now apply traced_bind_events.
Qed.

Lemma traced_bind_In {E A B} (m : traced E A) (f : A -> traced E B) e :
  In e (events (m ≫= f)) ->
  In e (events m) \/ exists a, outcome m = Ok a /\ In e (events (f a)).
Proof.
  destruct m as [l [a|ex]]; cbn.
  - destruct (f a) as [l' r] eqn:Hf. cbn. rewrite in_app_iff.
    intros [H|H]; [now left|]. right. exists a. rewrite Hf. auto.
  - auto.
Qed.

Lemma traced_bind_In_l {E A B} (m : traced E A) (f : A -> traced E B) e :
  In e (events m) -> In e (events (m ≫= f)).
Proof.
  destruct m as [l [a|ex]]; cbn; [|auto].
  destruct (f a) as [l' r]. cbn. rewrite in_app_iff. auto.
Qed.

Lemma traced_bind_In_r {E A B} (m : traced E A) (f : A -> traced E B) a e :
  outcome m = Ok a -> In e (events (f a)) -> In e (events (m ≫= f)).
Proof.
  intros Ha He. rewrite (traced_bind_events _ _ a Ha), in_app_iff. auto.
Qed.

Lemma traced_bind_Forall {E A B} (P : E -> Prop) (m : traced E A)
    (f : A -> traced E B) :
  Forall P (events m) ->
  (forall a, outcome m = Ok a -> Forall P (events (f a))) ->
  Forall P (events (m ≫= f)).
Proof.
  intros Hm Hf. rewrite Forall_forall. intros e He.
  apply list_elem_of_In, traced_bind_In in He as [He|(a & Ha & He)].
  - rewrite Forall_forall in Hm. apply Hm. now apply list_elem_of_In.
  - specialize (Hf a Ha). rewrite Forall_forall in Hf. apply Hf.
    now apply list_elem_of_In.
Qed.

End MonadFacts.

(** ** The crop functions *)

Module CardiacFacts.
Import Py Np Trace Str Cardiac.
Local Open Scope Z_scope.

Ltac case_ltb :=
  repeat match goal with
  | |- context [?a <? ?b] => destruct (Z.ltb_spec a b)
  | |- context [?a <=? ?b] => destruct (Z.leb_spec a b)
  | |- context [?a =? ?b] => destruct (Z.eqb_spec a b)
  end.

Lemma index_0 {A} (a : A) l : index (a :: l) 0 = Ok a.
Proof. reflexivity. Qed.

Lemma index_1 {A} (a b : A) l : index (a :: b :: l) 1 = Ok b.
Proof. reflexivity. Qed.

Lemma index_2 {A} (a b c : A) l : index (a :: b :: c :: l) 2 = Ok c.
Proof. reflexivity. Qed.

Lemma index_3 {A} (a b c d : A) l : index (a :: b :: c :: d :: l) 3 = Ok d.
Proof. reflexivity. Qed.

Lemma int_div_nonneg a b : 0 <= a -> 0 < b -> int_div a b = a / b.
Proof. intros. unfold int_div. now apply Z.quot_div_nonneg. Qed.

Lemma centre_slice_len n h :
  0 <= h -> 2 * h <= n ->
  slice_len n (int_div n 2 - h) (int_div n 2 + h) = 2 * h.
Proof.
  intros Hh Hn. unfold slice_len, slice_start, clamp.
  rewrite int_div_nonneg by lia.
  case_ltb; Z.div_mod_to_equations; lia.
Qed.

Lemma centre_slice_start n h :
  0 <= h -> 2 * h <= n ->
  slice_start n (int_div n 2 - h) = n / 2 - h.
Proof.
  intros Hh Hn. unfold slice_start, clamp.
  rewrite int_div_nonneg by lia.
  case_ltb; Z.div_mod_to_equations; lia.
Qed.

Lemma slice_len_144 n :
  144 <= n -> slice_len n (int_div n 2 - int_div 144 2) (int_div n 2 + int_div 144 2) = 144.
Proof. intros. change (int_div 144 2) with 72. rewrite centre_slice_len; lia. Qed.

Lemma slice_start_144 n :
  144 <= n -> slice_start n (int_div n 2 - int_div 144 2) = n / 2 - 72.
Proof. intros. change (int_div 144 2) with 72. rewrite centre_slice_start; lia. Qed.

Lemma slice_len_8 n :
  8 <= n -> slice_len n (int_div n 2 - int_div 8 2) (int_div n 2 + int_div 8 2) = 8.
Proof. intros. change (int_div 8 2) with 4. rewrite centre_slice_len; lia. Qed.

Lemma slice_start_8 n :
  8 <= n -> slice_start n (int_div n 2 - int_div 8 2) = n / 2 - 4.
Proof. intros. change (int_div 8 2) with 4. rewrite centre_slice_start; lia. Qed.

(** Unfold a crop function on an array of known shape. *)
Ltac crop_unfold v Hsh :=
  let sh := fresh "sh" in
  let it := fresh "it" in
  destruct v as [sh it]; simpl in Hsh; subst sh;
  unfold crop_img, crop_label; cbn [shape];
  rewrite ?index_0, ?index_1, ?index_2, ?index_3;
  cbn -[int_div slice_len slice_start Z.add Z.sub Z.ltb].

Ltac crop_finish :=
  rewrite ?slice_len_144, ?slice_start_144, ?slice_len_8, ?slice_start_8 by lia;
  unfold concatenate; cbn -[Z.add Z.sub Z.ltb Z.div];
  rewrite ?Z.eqb_refl, ?bool_decide_eq_true_2 by reflexivity;
  cbn -[Z.add Z.sub Z.ltb Z.div].

Section Facts.
Context {A : Type} (zero : A).

Lemma crop_img_pad (v : ndarray A) T d X Y :
  shape v = [T; d; X; Y] -> d < 8 -> 144 <= X -> 144 <= Y ->
  exists r, crop_img zero v = Ok r /\ shape r = [T; 8; 144; 144] /\
    (forall t z x y, z < d ->
       item r [t; z; x; y] = item v [t; z; X / 2 - 72 + x; Y / 2 - 72 + y]) /\
    (forall t z x y, d <= z -> item r [t; z; x; y] = zero).
Proof.
  intros Hsh Hd HX HY. crop_unfold v Hsh.
  destruct (Z.ltb_spec d 8); [|lia]. crop_finish.
  eexists. split; [reflexivity|]. cbn -[Z.add Z.sub Z.ltb Z.div].
  split; [f_equal; f_equal; lia|].
  split; intros t z x y Hz.
  - destruct (Z.ltb_spec z d); [|lia]. reflexivity.
  - destruct (Z.ltb_spec z d); [lia|]. reflexivity.
Qed.

Lemma crop_img_centre (v : ndarray A) T d X Y :
  shape v = [T; d; X; Y] -> 8 <= d -> 144 <= X -> 144 <= Y ->
  exists r, crop_img zero v = Ok r /\ shape r = [T; 8; 144; 144] /\
    (forall t z x y,
       item r [t; z; x; y]
       = item v [t; d / 2 - 4 + z; X / 2 - 72 + x; Y / 2 - 72 + y]).
Proof.
  intros Hsh Hd HX HY. crop_unfold v Hsh.
  destruct (Z.ltb_spec d 8); [lia|]. crop_finish.
  eexists. split; [reflexivity|]. cbn -[Z.add Z.sub Z.ltb Z.div].
  split; reflexivity.
Qed.

Lemma crop_label_pad (v : ndarray A) d X Y :
  shape v = [d; X; Y] -> d < 8 -> 144 <= X -> 144 <= Y ->
  exists r, crop_label zero v = Ok r /\ shape r = [8; 144; 144] /\
    (forall z x y, z < d ->
       item r [z; x; y] = item v [z; X / 2 - 72 + x; Y / 2 - 72 + y]) /\
    (forall z x y, d <= z -> item r [z; x; y] = zero).
Proof.
  intros Hsh Hd HX HY. crop_unfold v Hsh.
  destruct (Z.ltb_spec d 8); [|lia]. crop_finish.
  eexists. split; [reflexivity|]. cbn -[Z.add Z.sub Z.ltb Z.div].
  split; [f_equal; lia|].
  split; intros z x y Hz.
  - destruct (Z.ltb_spec z d); [|lia]. reflexivity.
  - destruct (Z.ltb_spec z d); [lia|]. reflexivity.
Qed.

Lemma crop_label_centre (v : ndarray A) d X Y :
  shape v = [d; X; Y] -> 8 <= d -> 144 <= X -> 144 <= Y ->
  exists r, crop_label zero v = Ok r /\ shape r = [8; 144; 144] /\
    (forall z x y,
       item r [z; x; y] = item v [d / 2 - 4 + z; X / 2 - 72 + x; Y / 2 - 72 + y]).
Proof.
  intros Hsh Hd HX HY. crop_unfold v Hsh.
  destruct (Z.ltb_spec d 8); [lia|]. crop_finish.
  eexists. split; [reflexivity|]. cbn -[Z.add Z.sub Z.ltb Z.div].
  split; reflexivity.
Qed.


(** Claim C7.  On a 4D volume of shape (T, 8, 144, 144), [crop_img]
    returns an array with the same shape and the same element at every
    index, and likewise [crop_label] on a 3D volume of shape
    (8, 144, 144); applying the crop once more to the result changes
    nothing either. *)
Theorem crop_canonical_noop (v l : ndarray A) (T : Z)
    (Hv : shape v = [T; 8; 144; 144]) (Hl : shape l = [8; 144; 144]) :
  (exists r, crop_img zero v = Ok r /\ array_eq r v /\
     exists r', crop_img zero r = Ok r' /\ array_eq r' r) /\
  (exists r, crop_label zero l = Ok r /\ array_eq r l /\
     exists r', crop_label zero r = Ok r' /\ array_eq r' r).
Proof.
  assert (Himg : forall w : ndarray A, shape w = [T; 8; 144; 144] ->
            exists r, crop_img zero w = Ok r /\ array_eq r w).
  { intros w Hw.
    destruct (crop_img_centre w T 8 144 144 Hw) as (r & Hr & Hsh & Hit); try lia.
    exists r. split; [exact Hr|]. split; [congruence|].
    intros idx Hlen. rewrite Hsh in Hlen.
    destruct idx as [|t [|z [|x [|y [|]]]]]; try discriminate Hlen.
    rewrite Hit. f_equal. }
  assert (Hlab : forall w : ndarray A, shape w = [8; 144; 144] ->
            exists r, crop_label zero w = Ok r /\ array_eq r w).
  { intros w Hw.
    destruct (crop_label_centre w 8 144 144 Hw) as (r & Hr & Hsh & Hit); try lia.
    exists r. split; [exact Hr|]. split; [congruence|].
    intros idx Hlen. rewrite Hsh in Hlen.
    destruct idx as [|z [|x [|y [|]]]]; try discriminate Hlen.
    rewrite Hit. f_equal. }
  split.
  - destruct (Himg v Hv) as (r & Hr & Heq). exists r. split; [exact Hr|].
    split; [exact Heq|]. apply Himg. destruct Heq as [-> _]. exact Hv.
  - destruct (Hlab l Hl) as (r & Hr & Heq). exists r. split; [exact Hr|].
    split; [exact Heq|]. apply Hlab. destruct Heq as [-> _]. exact Hl.
Qed.

(** Claim C10.  When the depth axis is shorter than 8 and both spatial
    axes are at least 144 long, [crop_img] returns shape (T, 8, 144, 144):
    slice [z] of the result, for [z] below the original depth, is the
    centre crop of slice [z] of the input, and every later slice is zero.
    [crop_label] does the same on its leading axis and returns
    (8, 144, 144). *)
Theorem crop_pads_after_content (v l : ndarray A) (T d X Y d' X' Y' : Z)
    (Hv : shape v = [T; d; X; Y]) (Hd : d < 8) (HX : 144 <= X) (HY : 144 <= Y)
    (Hl : shape l = [d'; X'; Y']) (Hd' : d' < 8) (HX' : 144 <= X')
    (HY' : 144 <= Y') :
  (exists r, crop_img zero v = Ok r /\ shape r = [T; 8; 144; 144] /\
     (forall t z x y, z < d ->
        item r [t; z; x; y] = item v [t; z; X / 2 - 72 + x; Y / 2 - 72 + y]) /\
     (forall t z x y, d <= z -> item r [t; z; x; y] = zero)) /\
  (exists r, crop_label zero l = Ok r /\ shape r = [8; 144; 144] /\
     (forall z x y, z < d' ->
        item r [z; x; y] = item l [z; X' / 2 - 72 + x; Y' / 2 - 72 + y]) /\
     (forall z x y, d' <= z -> item r [z; x; y] = zero)).
Proof.
  split.
  - exact (crop_img_pad v T d X Y Hv Hd HX HY).
  - exact (crop_label_pad l d' X' Y' Hl Hd' HX' HY').
Qed.

End Facts.
End CardiacFacts.

(** ** The dataset adapter *)

Module DatasetFacts.
Import Py Np Trace Str Cardiac Inputs MonadFacts CardiacFacts.
Local Open Scope Z_scope.

Section Shapes.
Context {A : Type}.

Lemma getslice_frame_shape (a r : ndarray A) T e rest :
  shape a = T :: rest -> 1 <= e <= T ->
  getslice a [Range (e - 1) e] = Ok r -> shape r = 1 :: rest.
Proof.
  intros Hsh He. unfold getslice. rewrite Hsh. cbn.
  intros [= <-]. cbn. f_equal.
  unfold slice_len, clamp. case_ltb; lia.
Qed.

Lemma concatenate_shape (a b r : ndarray A) axis :
  concatenate a b axis = Ok r ->
  shape r = <[axis := default 0 (shape a !! axis) + default 0 (shape b !! axis)]> (shape a).
Proof.
  unfold concatenate. destruct (same_except _ _ _); [|discriminate].
  now intros [= <-].
Qed.

Lemma merge_leading_shape (v r : ndarray A) a b c d :
  shape v = [a; b; c; d] -> merge_leading v = Ok r -> shape r = [a * b; c; d].
Proof.
  intros Hsh. unfold merge_leading. rewrite Hsh.
  rewrite index_0, index_1, index_2, index_3. cbn -[Z.mul].
  unfold reshape. case_match; [|discriminate]. now intros [= <-].
Qed.

Lemma getitem_first (a : ndarray A) n rest :
  shape a = n :: rest -> 1 <= n ->
  exists r, getitem a 0 = Ok r /\ shape r = rest.
Proof.
  intros Hsh Hn. unfold getitem. rewrite Hsh. cbn.
  destruct (Z.ltb_spec 0 n); [|lia]. eexists. split; reflexivity.
Qed.

End Shapes.

Section Adapter.
Context {A : Type}.
Variable zero : A.
Variable np_mean np_std : ndarray A -> A.
Variable sub div : A -> A -> A.
Variable to_float32 to_long : A -> A.
Variable ReadImage : string -> result (ndarray A).
Variable read_text : string -> result string.

Abbreviation init_ := (__init__ zero np_mean np_std sub div to_float32 ReadImage read_text).

Lemma outcome_sitk_read p : outcome (sitk_read ReadImage p) = ReadImage p.
Proof. unfold sitk_read, emit, lift. cbn. now destruct (ReadImage p). Qed.

Lemma outcome_open_read p : outcome (open_read read_text p) = read_text p.
Proof. unfold open_read, emit, lift. cbn. now destruct (read_text p). Qed.

Ltac inv_step H x Hx :=
  apply traced_bind_ok in H as (x & Hx & H);
  rewrite ?outcome_lift, ?outcome_sitk_read, ?outcome_open_read in Hx.

(** Every step of a successful construction, in source order. *)
Lemma init_ok folder self :
  outcome (init_ folder) = Ok self ->
  exists ptnum v v' content es es_label es_label' ed ed_label ed_label' a b c gt0 img2 gt2,
    ptnum_of folder = Ok ptnum /\
    ReadImage (patient_dir ptnum +:+ "/patient" +:+ ptnum +:+ "_4d.nii.gz") = Ok v /\
    crop_img zero v = Ok v' /\
    read_text (patient_dir ptnum +:+ "/" +:+ "Info.cfg") = Ok content /\
    frame_of content 1 = Ok es /\
    ReadImage (gt_dir ptnum es) = Ok es_label /\
    crop_label zero es_label = Ok es_label' /\
    frame_of content 0 = Ok ed /\
    ReadImage (gt_dir ptnum ed) = Ok ed_label /\
    crop_label zero ed_label = Ok ed_label' /\
    getslice v' [Range (ed - 1) ed] = Ok a /\
    getslice v' [Range (es - 1) es] = Ok b /\
    concatenate a b 0 = Ok c /\
    concatenate (expand_dims0 ed_label') (expand_dims0 es_label') 0 = Ok gt0 /\
    merge_leading (normalize_img np_mean np_std sub div to_float32 c) = Ok img2 /\
    merge_leading gt0 = Ok gt2 /\
    img self = expand_dims0 img2 /\ gt self = expand_dims0 gt2 /\ len self = 1.
Proof.
  intros H. unfold __init__ in H.
  inv_step H ptnum H1. inv_step H v H2. inv_step H v' H3.
  inv_step H content H4. inv_step H es H5. inv_step H es_label H6.
  inv_step H es_label' H7. inv_step H content' H8. inv_step H ed H9.
  inv_step H ed_label H10. inv_step H ed_label' H11.
  inv_step H a H12. inv_step H b H13. inv_step H c H14.
  inv_step H gt0 H15. inv_step H img2 H16. inv_step H gt2 H17.
  inv_step H n H18.
  cbn in H. injection H as <-. cbn [img gt len].
  assert (content' = content) as -> by congruence.
  cbn in H18. injection H18 as <-.
  exists ptnum, v, v', content, es, es_label, es_label', ed, ed_label, ed_label',
    a, b, c, gt0, img2, gt2.
  repeat split; assumption.
Qed.


(** Claim C3, amended.  A constructed [cardiacdata] object comes from a
    4D volume, an [Info.cfg] and two label volumes; when the spatial axes
    of the three volumes are at least 144 long and both frame numbers lie
    within the time axis, the object has length 1 and [__getitem__(0)]
    returns an image of shape (1, 16, 144, 144) and a label of shape
    (16, 144, 144): the 8 slices of the two phases stay on one axis.
    Every element of the image is the [float32] cast of the stored
    element, and every element of the label is an integer class index:
    the result of [long()] on the [float32] cast of the stored label. *)
Theorem getitem_shapes (folder : string) (self : cardiacdata)
    (Hinit : outcome (init_ folder) = Ok self) :
  exists ptnum content ed es v ed_label es_label,
    ptnum_of folder = Ok ptnum /\
    ReadImage (patient_dir ptnum +:+ "/patient" +:+ ptnum +:+ "_4d.nii.gz") = Ok v /\
    read_text (patient_dir ptnum +:+ "/" +:+ "Info.cfg") = Ok content /\
    frame_of content 0 = Ok ed /\ frame_of content 1 = Ok es /\
    ReadImage (gt_dir ptnum ed) = Ok ed_label /\
    ReadImage (gt_dir ptnum es) = Ok es_label /\
    forall T d X Y d1 X1 Y1 d2 X2 Y2,
      shape v = [T; d; X; Y] -> 144 <= X -> 144 <= Y ->
      1 <= ed <= T -> 1 <= es <= T ->
      shape ed_label = [d1; X1; Y1] -> 144 <= X1 -> 144 <= Y1 ->
      shape es_label = [d2; X2; Y2] -> 144 <= X2 -> 144 <= Y2 ->
      __len__ self = 1 /\
      exists im g, __getitem__ to_float32 to_long self 0 = Ok (im, g) /\
        shape im = [1; 16; 144; 144] /\ shape g = [16; 144; 144] /\
        (forall idx,
           item im (0 :: idx) = to_float32 (item (img self) (0 :: idx))) /\
        (forall idx,
           item g idx = to_long (to_float32 (item (gt self) (0 :: idx)))).
Proof.
  destruct (init_ok folder self Hinit)
    as (ptnum & v & v' & content & es & es_label & es_label' & ed & ed_label
        & ed_label' & a & b & c & gt0 & img2 & gt2 & Hpt & Hv & Hv' & Hc & Hes
        & Hesl & Hesl' & Hed & Hedl & Hedl' & Ha & Hb & Hcat & Hgt0 & Himg2
        & Hgt2 & Himg & Hgt & Hlen).
  exists ptnum, content, ed, es, v, ed_label, es_label.
  do 7 (split; [assumption|]).
  intros T d X Y d1 X1 Y1 d2 X2 Y2 Hsv HX HY Hedr Hesr Hsed HX1 HY1 Hses HX2 HY2.
  assert (Hsv' : shape v' = [T; 8; 144; 144]).
  { destruct (Z.lt_ge_cases d 8).
    - destruct (crop_img_pad zero v T d X Y) as (r & Hr & Hs & _); congruence.
    - destruct (crop_img_centre zero v T d X Y) as (r & Hr & Hs & _); congruence. }
  assert (Hlab : forall (w w' : ndarray A) dw Xw Yw,
            shape w = [dw; Xw; Yw] -> 144 <= Xw -> 144 <= Yw ->
            crop_label zero w = Ok w' -> shape w' = [8; 144; 144]).
  { intros w w' dw Xw Yw Hw HXw HYw Hcrop. destruct (Z.lt_ge_cases dw 8).
    - destruct (crop_label_pad zero w dw Xw Yw) as (r & Hr & Hs & _); congruence.
    - destruct (crop_label_centre zero w dw Xw Yw) as (r & Hr & Hs & _); congruence. }
  pose proof (Hlab _ _ _ _ _ Hsed HX1 HY1 Hedl') as Hsed'.
  pose proof (Hlab _ _ _ _ _ Hses HX2 HY2 Hesl') as Hses'.
  pose proof (getslice_frame_shape _ _ _ _ _ Hsv' Hedr Ha) as Hsa.
  pose proof (getslice_frame_shape _ _ _ _ _ Hsv' Hesr Hb) as Hsb.
  apply concatenate_shape in Hcat. rewrite Hsa, Hsb in Hcat. cbn in Hcat.
  apply concatenate_shape in Hgt0. cbn in Hgt0. rewrite Hsed' in Hgt0.
  cbn in Hgt0.
  apply (merge_leading_shape _ _ 2 8 144 144) in Himg2; [|exact Hcat].
  apply (merge_leading_shape _ _ 2 8 144 144) in Hgt2; [|exact Hgt0].
  split; [exact Hlen|].
  unfold __getitem__, getitem. rewrite Himg, Hgt. cbn [shape expand_dims0].
  cbn [Z.ltb Z.leb Z.compare andb mbind result_bind].
  eexists. eexists. split; [reflexivity|].
  cbn [shape expand_dims0 map_array]. rewrite Himg2, Hgt2.
  split; [reflexivity|]. split; [reflexivity|].
  split; intros idx; reflexivity.
Qed.


Lemma events_sitk_read p : events (sitk_read ReadImage p) = [p].
Proof. unfold sitk_read, emit, lift. cbn. now destruct (ReadImage p). Qed.

Lemma events_open_read p : events (open_read read_text p) = [p].
Proof. unfold open_read, emit, lift. cbn. now destruct (read_text p). Qed.

Ltac ev_step a H :=
  rewrite (traced_bind_events _ _ a)
    by (rewrite ?outcome_lift, ?outcome_sitk_read, ?outcome_open_read; exact H);
  rewrite ?events_lift, ?events_sitk_read, ?events_open_read; cbn [app].

(** The files that a successful construction opens, in order. *)
Lemma init_events folder self ptnum content ed es :
  outcome (init_ folder) = Ok self ->
  ptnum_of folder = Ok ptnum ->
  read_text (patient_dir ptnum +:+ "/" +:+ "Info.cfg") = Ok content ->
  frame_of content 0 = Ok ed -> frame_of content 1 = Ok es ->
  events (init_ folder) =
    [patient_dir ptnum +:+ "/patient" +:+ ptnum +:+ "_4d.nii.gz";
     patient_dir ptnum +:+ "/" +:+ "Info.cfg";
     gt_dir ptnum es;
     patient_dir ptnum +:+ "/" +:+ "Info.cfg";
     gt_dir ptnum ed].
Proof.
  intros Hinit Hpt0 Hc0 Hed0 Hes0.
  destruct (init_ok folder self Hinit)
    as (ptnum' & v & v' & content' & es' & es_label & es_label' & ed' & ed_label
        & ed_label' & a & b & c & gt0 & img2 & gt2 & Hpt & Hv & Hv' & Hc & Hes
        & Hesl & Hesl' & Hed & Hedl & Hedl' & Ha & Hb & Hcat & Hgt0 & Himg2
        & Hgt2 & Himg & Hgt & Hlen).
  assert (ptnum' = ptnum) as -> by congruence.
  assert (content' = content) as -> by congruence.
  assert (ed' = ed) as -> by congruence.
  assert (es' = es) as -> by congruence.
  unfold __init__.
  ev_step ptnum Hpt. ev_step v Hv. ev_step v' Hv'. ev_step content Hc.
  ev_step es Hes. ev_step es_label Hesl. ev_step es_label' Hesl'.
  ev_step content Hc. ev_step ed Hed. ev_step ed_label Hedl.
  ev_step ed_label' Hedl'. ev_step a Ha. ev_step b Hb. ev_step c Hcat.
  ev_step gt0 Hgt0. ev_step img2 Himg2. ev_step gt2 Hgt2.
  ev_step 1 (eq_refl (Ok 1)).
  reflexivity.
Qed.

End Adapter.

Lemma findall_digits_skip pre s :
  no_digits pre -> findall_digits (pre +:+ s) = findall_digits s.
Proof.
  unfold findall_digits. induction pre as [|c pre IH]; [reflexivity|].
  intros [Hc Hpre]. change (String c pre +:+ s) with (String c (pre +:+ s)).
  cbn [findall_digits_from]. rewrite Hc.
  cbn [flush app]. now apply IH.
Qed.

Lemma findall_digits_run cur post :
  cur <> EmptyString -> not_digit_start post ->
  exists rest, findall_digits_from cur post = cur :: rest.
Proof.
  intros Hcur Hpost. destruct post as [|c post]; cbn [findall_digits_from].
  - destruct cur; [congruence|]. cbn. eauto.
  - cbn [not_digit_start] in Hpost. rewrite Hpost.
    destruct cur; [congruence|]. cbn [flush app]. eauto.
Qed.

Lemma ptnum_of_5 pre run post :
  no_digits pre -> In run ["5"; "05"; "005"] -> not_digit_start post ->
  ptnum_of (pre +:+ run +:+ post) = Ok "005".
Proof.
  intros Hpre Hrun Hpost. unfold ptnum_of. rewrite findall_digits_skip by exact Hpre.
  unfold findall_digits.
  destruct Hrun as [<-|[<-|[<-|[]]]].
  - change (findall_digits_from "" ("5" +:+ post))
      with (findall_digits_from "5" post).
    destruct (findall_digits_run "5" post) as (rest & ->);
      [discriminate|exact Hpost|reflexivity].
  - change (findall_digits_from "" ("05" +:+ post))
      with (findall_digits_from "05" post).
    destruct (findall_digits_run "05" post) as (rest & ->);
      [discriminate|exact Hpost|reflexivity].
  - change (findall_digits_from "" ("005" +:+ post))
      with (findall_digits_from "005" post).
    destruct (findall_digits_run "005" post) as (rest & ->);
      [discriminate|exact Hpost|reflexivity].
Qed.

Lemma frame_of_two_lines rest :
  line_end rest ->
  frame_of (two_lines rest) 0 = Ok 1 /\ frame_of (two_lines rest) 1 = Ok 10.
Proof.
  intros Hrest. destruct rest as [|c rest]; cbn in Hrest; [|subst c];
    split; reflexivity.
Qed.


(** Claim C8.  For a folder name whose first run of digits is 5 (written
    [5], [05] or [005]) and an [Info.cfg] that starts with the lines
    [ED:1] and [ES:10], the case number is [005], the end-diastole frame
    is 1, the end-systole frame is 10, and the label files are
    [patient005_frame01_gt.nii.gz] and [patient005_frame10_gt.nii.gz] in
    the folder [patient005]; a successful construction opens the volume,
    the configuration, the frame-10 labels, the configuration again and
    the frame-1 labels, in this order. *)
Theorem info_cfg_frames_and_filenames {A : Type} (zero : A)
    (np_mean np_std : ndarray A -> A) (sub div : A -> A -> A)
    (to_float32 : A -> A) (ReadImage : string -> result (ndarray A))
    (read_text : string -> result string)
    (pre run post rest : string)
    (Hpre : no_digits pre) (Hrun : In run ["5"; "05"; "005"])
    (Hpost : not_digit_start post) (Hrest : line_end rest) :
  let folder_name := pre +:+ run +:+ post in
  ptnum_of folder_name = Ok "005" /\
  frame_of (two_lines rest) 0 = Ok 1 /\
  frame_of (two_lines rest) 1 = Ok 10 /\
  gt_dir "005" 1 = IMG_DIR +:+ "/patient005/patient005_frame01_gt.nii.gz" /\
  gt_dir "005" 10 = IMG_DIR +:+ "/patient005/patient005_frame10_gt.nii.gz" /\
  (read_text (IMG_DIR +:+ "/patient005/Info.cfg") = Ok (two_lines rest) ->
   forall self,
     outcome (__init__ zero np_mean np_std sub div to_float32 ReadImage read_text
                folder_name) = Ok self ->
     events (__init__ zero np_mean np_std sub div to_float32 ReadImage read_text
               folder_name) =
       [IMG_DIR +:+ "/patient005/patient005_4d.nii.gz";
        IMG_DIR +:+ "/patient005/Info.cfg";
        IMG_DIR +:+ "/patient005/patient005_frame10_gt.nii.gz";
        IMG_DIR +:+ "/patient005/Info.cfg";
        IMG_DIR +:+ "/patient005/patient005_frame01_gt.nii.gz"]).
Proof.
  intros folder_name.
  pose proof (ptnum_of_5 pre run post Hpre Hrun Hpost) as Hpt.
  destruct (frame_of_two_lines rest Hrest) as [Hed Hes].
  split; [exact Hpt|]. split; [exact Hed|]. split; [exact Hes|].
  split; [reflexivity|]. split; [reflexivity|].
  intros Hcfg self Hinit.
  exact (init_events zero np_mean np_std sub div to_float32 ReadImage read_text
           folder_name self "005" (two_lines rest) 1 10 Hinit Hpt Hcfg Hed Hes).
Qed.

Lemma info_cfg_frames_and_filenames_witness :
  ptnum_of "patient5" = Ok "005" /\
  frame_of Example.info_cfg 0 = Ok 1 /\
  frame_of Example.info_cfg 1 = Ok 10 /\
  gt_dir "005" 1 = IMG_DIR +:+ "/patient005/patient005_frame01_gt.nii.gz" /\
  gt_dir "005" 10 = IMG_DIR +:+ "/patient005/patient005_frame10_gt.nii.gz" /\
  events Example.dataset =
    [IMG_DIR +:+ "/patient005/patient005_4d.nii.gz";
     IMG_DIR +:+ "/patient005/Info.cfg";
     IMG_DIR +:+ "/patient005/patient005_frame10_gt.nii.gz";
     IMG_DIR +:+ "/patient005/Info.cfg";
     IMG_DIR +:+ "/patient005/patient005_frame01_gt.nii.gz"].
Proof.
  destruct (info_cfg_frames_and_filenames 0 (fun _ => 0) (fun _ => 1) Z.sub Z.div
              id Example.files Example.texts "patient" "5" "" ""
              (conj eq_refl (conj eq_refl (conj eq_refl (conj eq_refl
                 (conj eq_refl (conj eq_refl (conj eq_refl I)))))))
              (or_introl eq_refl) I I)
    as (H1 & H2 & H3 & H4 & H5 & H6).
  repeat (split; [assumption|]).
  destruct (outcome Example.dataset) as [self|e] eqn:Hself; [|discriminate Hself].
  exact (H6 eq_refl self Hself).
Defined.

Lemma getitem_shapes_witness :
  exists self,
    outcome Example.dataset = Ok self /\
    __len__ self = 1 /\
    exists im g, __getitem__ id (fun z => z mod 4) self 0 = Ok (im, g) /\
      shape im = [1; 16; 144; 144] /\ shape g = [16; 144; 144] /\
      (forall idx, item im (0 :: idx) = item (img self) (0 :: idx)) /\
      (forall idx, item g idx = item (gt self) (0 :: idx) mod 4).
Proof.
  destruct (outcome Example.dataset) as [self|e] eqn:Hself; [|discriminate Hself].
  exists self. split; [reflexivity|].
  destruct (getitem_shapes 0 (fun _ => 0) (fun _ => 1) Z.sub Z.div id
              (fun z => z mod 4)
              Example.files Example.texts "patient5" self Hself)
    as (ptnum & content & ed & es & v & ed_label & es_label
        & Hpt & Hv & Hc & Hed & Hes & Hedl & Hesl & H).
  injection Hpt as <-. injection Hc as <-.
  injection Hed as <-. injection Hes as <-.
  injection Hv as <-. injection Hedl as <-. injection Hesl as <-.
  apply (H 30 10 256 216 10 256 216 10 256 216); try reflexivity; try lia;
    vm_compute; split; discriminate.
Defined.

(** Claim C3 as stated fails: on the example case, [__getitem__(0)]
    returns shapes (1, 16, 144, 144) and (16, 144, 144), not
    (1, 1, 144, 144) and (144, 144). *)
Lemma getitem_shapes_counterexample :
  exists self im g,
    outcome Example.dataset = Ok self /\
    __getitem__ id id self 0 = Ok (im, g) /\
    shape im = [1; 16; 144; 144] /\ shape g = [16; 144; 144] /\
    shape im <> [1; 1; 144; 144] /\ shape g <> [144; 144].
Proof.
  eexists. eexists. eexists. split; [reflexivity|].
  split; [reflexivity|]. repeat split; discriminate.
Qed.

Lemma crop_canonical_noop_witness :
  (exists r, crop_img 0 (Example.vol [2; 8; 144; 144]) = Ok r /\
     array_eq r (Example.vol [2; 8; 144; 144]) /\
     exists r', crop_img 0 r = Ok r' /\ array_eq r' r) /\
  (exists r, crop_label 0 (Example.vol [8; 144; 144]) = Ok r /\
     array_eq r (Example.vol [8; 144; 144]) /\
     exists r', crop_label 0 r = Ok r' /\ array_eq r' r).
Proof.
  exact (crop_canonical_noop 0 (Example.vol [2; 8; 144; 144])
           (Example.vol [8; 144; 144]) 2 eq_refl eq_refl).
Defined.

Lemma crop_pads_after_content_witness :
  (exists r, crop_img 0 (Example.vol [2; 5; 200; 150]) = Ok r /\
     shape r = [2; 8; 144; 144] /\
     (forall t z x y, z < 5 ->
        item r [t; z; x; y]
        = item (Example.vol [2; 5; 200; 150]) [t; z; 200 / 2 - 72 + x; 150 / 2 - 72 + y]) /\
     (forall t z x y, 5 <= z -> item r [t; z; x; y] = 0)) /\
  (exists r, crop_label 0 (Example.vol [5; 200; 150]) = Ok r /\
     shape r = [8; 144; 144] /\
     (forall z x y, z < 5 ->
        item r [z; x; y]
        = item (Example.vol [5; 200; 150]) [z; 200 / 2 - 72 + x; 150 / 2 - 72 + y]) /\
     (forall z x y, 5 <= z -> item r [z; x; y] = 0)).
Proof.
  apply (crop_pads_after_content 0 (Example.vol [2; 5; 200; 150])
           (Example.vol [5; 200; 150]) 2 5 200 150 5 200 150); try reflexivity; lia.
Defined.

End DatasetFacts.

(** ** Channel bookkeeping of the layers *)

Module TorchFacts.
Import Py Trace Torch.
Local Open Scope Z_scope.

Lemma map_result_3 {A B} (f : A -> result B) a b c l :
  map_result f [a; b; c] = Ok l -> exists a' b' c', l = [a'; b'; c'].
Proof.
  cbn. destruct (f a) as [a'|]; [|discriminate]. cbn.
  destruct (f b) as [b'|]; [|discriminate]. cbn.
  destruct (f c) as [c'|]; [|discriminate]. cbn.
  intros [= <-]. eauto.
Qed.

Lemma as_volume_ok sh batch c sp :
  as_volume sh = Ok (batch, c, sp) ->
  exists d h w, sp = [d; h; w] /\ sh = batch ++ c :: sp /\ (batch = [] \/ exists n, batch = [n]).
Proof.
  unfold as_volume.
  destruct sh as [|a [|b [|c' [|d [|e [|]]]]]]; try discriminate; intros [= <- <- <-].
  - exists b, c', d. eauto.
  - exists c', d, e. eauto.
Qed.

Lemma as_volume_app batch c d h w :
  batch = [] \/ (exists n, batch = [n]) ->
  as_volume (batch ++ c :: [d; h; w]) = Ok (batch, c, [d; h; w]).
Proof. intros [->|[n ->]]; reflexivity. Qed.

Lemma Conv3d_forward_ok c x y :
  Conv3d_forward c x = Ok y ->
  channels x = Ok (in_channels c) /\ channels y = Ok (out_channels c) /\
  val y = VConv3d c (val x).
Proof.
  unfold Conv3d_forward, channels.
  destruct (as_volume (shape x)) as [[[batch ch] sp]|] eqn:Hv; [|discriminate].
  cbn. destruct (Z.eqb_spec ch (in_channels c)) as [->|]; [|discriminate].
  destruct (as_volume_ok _ _ _ _ Hv) as (d & h & w & -> & _ & Hb).
  destruct (map_result _ _) as [sp'|] eqn:Hsp; [|discriminate]. cbn.
  intros [= <-]. cbn.
  destruct (map_result_3 _ _ _ _ _ Hsp) as (d' & h' & w' & ->).
  rewrite as_volume_app by exact Hb. auto.
Qed.

Lemma Conv3d_forward_mismatch c x ch :
  channels x = Ok ch -> ch <> in_channels c ->
  Conv3d_forward c x = Raise RuntimeError.
Proof.
  unfold Conv3d_forward, channels.
  destruct (as_volume (shape x)) as [[[batch ch'] sp]|]; [|discriminate].
  cbn. intros [= ->] Hne. destruct (Z.eqb_spec ch (in_channels c)); [contradiction|].
  reflexivity.
Qed.

Lemma ConvTranspose3d_forward_ok c x y :
  ConvTranspose3d_forward c x = Ok y ->
  channels x = Ok (ct_in_channels c) /\ channels y = Ok (ct_out_channels c).
Proof.
  unfold ConvTranspose3d_forward, channels.
  destruct (as_volume (shape x)) as [[[batch ch] sp]|] eqn:Hv; [|discriminate].
  cbn. destruct (Z.eqb_spec ch (ct_in_channels c)) as [->|]; [|discriminate].
  destruct (1 <=? ct_in_channels c); [|discriminate]. cbn [andb].
  destruct (as_volume_ok _ _ _ _ Hv) as (d & h & w & -> & _ & Hb).
  destruct (map_result _ _) as [sp'|] eqn:Hsp; [|discriminate]. cbn.
  intros [= <-]. cbn.
  destruct (map_result_3 _ _ _ _ _ Hsp) as (d' & h' & w' & ->).
  rewrite as_volume_app by exact Hb. auto.
Qed.

Lemma MaxPool3d_forward_ok m x y :
  MaxPool3d_forward m x = Ok y -> channels y = channels x.
Proof.
  unfold MaxPool3d_forward, channels.
  destruct (as_volume (shape x)) as [[[batch ch] sp]|] eqn:Hv; [|discriminate].
  cbn. destruct (as_volume_ok _ _ _ _ Hv) as (d & h & w & -> & _ & Hb).
  destruct (map_result _ _) as [sp'|] eqn:Hsp; [|discriminate]. cbn.
  intros [= <-]. cbn.
  destruct (map_result_3 _ _ _ _ _ Hsp) as (d' & h' & w' & ->).
  now rewrite as_volume_app by exact Hb.
Qed.

Lemma Upsample_forward_ok u x y :
  Upsample_forward u x = Ok y -> channels y = channels x.
Proof.
  unfold Upsample_forward, channels.
  destruct (shape x) as [|n [|c [|d [|h [|w [|]]]]]]; try discriminate.
  destruct (forallb _ _); [|discriminate]. now intros [= <-].
Qed.

End TorchFacts.

(** ** The building blocks *)

Module BlockFacts.
Import Py Trace Torch ELUNet MonadFacts TorchFacts.
Local Open Scope Z_scope.

(** Claim C9.  [upconv2x2] returns the transpose convolution (kernel 2,
    stride 2) for the mode ["transpose"], and for every other mode string
    the trilinear branch: a 2x trilinear [Upsample] followed by a 1x1x1
    convolution from [in_channels] to [out_channels].  It never raises. *)
Theorem upconv2x2_mode (in_channels out_channels : Z) (mode : string) :
  (mode = "transpose" ->
   upconv2x2 in_channels out_channels mode
   = Transpose {| ct_in_channels := in_channels; ct_out_channels := out_channels;
                  ct_kernel_size := 2; ct_stride := 2 |}) /\
  (mode <> "transpose" ->
   upconv2x2 in_channels out_channels mode
   = Sequential {| up_mode := "trilinear"; scale_factor := 2 |}
                {| Torch.in_channels := in_channels;
                   Torch.out_channels := out_channels;
                   kernel_size := 1; stride := 1; padding := 0; bias := true |}).
Proof.
  unfold upconv2x2. split; intros Hmode.
  - subst mode. reflexivity.
  - destruct (String.eqb_spec mode "transpose"); [contradiction|reflexivity].
Qed.

Lemma upconv2x2_mode_witness :
  upconv2x2 16 8 "transpose"
  = Transpose {| ct_in_channels := 16; ct_out_channels := 8;
                 ct_kernel_size := 2; ct_stride := 2 |} /\
  upconv2x2 16 8 "trilinaer"
  = Sequential {| up_mode := "trilinear"; scale_factor := 2 |}
               {| Torch.in_channels := 16; Torch.out_channels := 8;
                  kernel_size := 1; stride := 1; padding := 0; bias := true |}.
Proof.
  split.
  - apply (upconv2x2_mode 16 8 "transpose"). reflexivity.
  - apply (upconv2x2_mode 16 8 "trilinaer"). discriminate.
Defined.

Lemma upconv2x2_forward_ok i o mode x u :
  upconv_forward (upconv2x2 i o mode) x = Ok u ->
  channels x = Ok i /\ channels u = Ok o.
Proof.
  unfold upconv2x2. destruct (String.eqb mode "transpose"); cbn.
  - intros H. now apply ConvTranspose3d_forward_ok in H.
  - destruct (Upsample_forward _ x) as [x'|] eqn:Hup; [|discriminate]. cbn.
    intros H. apply Conv3d_forward_ok in H as (Hin & Hout & _).
    apply Upsample_forward_ok in Hup. cbn in Hin, Hout.
    split; [congruence|exact Hout].
Qed.

Lemma UsBlock_conv_rejects in_channels out_channels up_mode x u :
  0 < in_channels ->
  upconv_forward (us_upconv (UsBlock_init in_channels out_channels up_mode)) x = Ok u ->
  channels u = Ok out_channels /\
  Conv3d_forward (us_conv (UsBlock_init in_channels out_channels up_mode)) u
  = Raise RuntimeError.
Proof.
  intros Hin Hup. apply upconv2x2_forward_ok in Hup as [_ Hch].
  split; [exact Hch|]. apply (Conv3d_forward_mismatch _ _ out_channels Hch).
  cbn. lia.
Qed.

Lemma UsBlock_forward_raises in_channels out_channels up_mode before_pool x y :
  0 < in_channels ->
  UsBlock_forward (UsBlock_init in_channels out_channels up_mode) before_pool x
  <> Ok y.
Proof.
  intros Hin H. unfold UsBlock_forward in H.
  apply result_bind_ok in H as (u & Hup & H).
  apply result_bind_ok in H as (v & Hv & _).
  destruct (UsBlock_conv_rejects _ _ _ _ _ Hin Hup) as [_ Hr]. congruence.
Qed.

(** Claim C2.  A [UsBlock] declares [in_channels + out_channels] input
    channels for its 3x3x3 convolution; its [forward] ignores
    [before_pool] and applies the upsampling step and then that
    convolution: when the upsampling step raises, [forward] raises the
    same exception; when it succeeds, it hands the convolution a tensor
    of [out_channels] channels, which the convolution rejects, and
    [forward] raises [RuntimeError].  No call of [forward] returns a
    tensor.  Channel counts are positive. *)
Theorem UsBlock_conv_width_mismatch (in_channels out_channels : Z)
    (up_mode : string) (before_pool before_pool' x : tensor)
    (Hin : 0 < in_channels) :
  let self := UsBlock_init in_channels out_channels up_mode in
  Torch.in_channels (us_conv self) = in_channels + out_channels /\
  UsBlock_forward self before_pool x = UsBlock_forward self before_pool' x /\
  (forall u, upconv_forward (us_upconv self) x = Ok u ->
     channels u = Ok out_channels /\
     Conv3d_forward (us_conv self) u = Raise RuntimeError /\
     UsBlock_forward self before_pool x = Raise RuntimeError) /\
  (forall e, upconv_forward (us_upconv self) x = Raise e ->
     UsBlock_forward self before_pool x = Raise e) /\
  (forall y, UsBlock_forward self before_pool x <> Ok y).
Proof.
  intros self. subst self.
  split; [reflexivity|]. split; [reflexivity|]. split; [|split].
  - intros u Hup.
    destruct (UsBlock_conv_rejects _ _ _ _ _ Hin Hup) as [Hch Hr].
    split; [exact Hch|]. split; [exact Hr|].
    unfold UsBlock_forward. rewrite Hup. cbn [mbind result_bind].
    now rewrite Hr.
  - intros e Hup. unfold UsBlock_forward. now rewrite Hup.
  - intros y. now apply UsBlock_forward_raises.
Qed.


Lemma UsBlock_conv_width_mismatch_witness :
  let self := UsBlock_init 16 8 "trilinear" in
  let x := {| shape := [2; 16; 18; 18; 1]; val := Leaf 0 |} in
  let x4 := {| shape := [16; 18; 18; 1]; val := Leaf 0 |} in
  let skip := {| shape := [2; 8; 18; 18; 1]; val := Leaf 1 |} in
  Torch.in_channels (us_conv self) = 24 /\
  (exists u, upconv_forward (us_upconv self) x = Ok u /\
     shape u = [2; 8; 36; 36; 2] /\
     Conv3d_forward (us_conv self) u = Raise RuntimeError) /\
  UsBlock_forward self skip x = Raise RuntimeError /\
  UsBlock_forward self skip x4 = Raise NotImplementedError.
Proof.
  intros self x x4 skip.
  destruct (UsBlock_conv_width_mismatch 16 8 "trilinear" skip skip x)
    as (Hw & _ & Hu & _ & _); [lia|].
  destruct (UsBlock_conv_width_mismatch 16 8 "trilinear" skip skip x4)
    as (_ & _ & _ & He & _); [lia|].
  split; [exact Hw|]. split; [|split].
  - eexists. split; [reflexivity|]. split; [reflexivity|].
    now apply Hu.
  - eapply Hu. reflexivity.
  - apply He. reflexivity.
Defined.

Lemma DsBlock_forward_channels self x out before_pool :
  DsBlock_forward self x = Ok (out, before_pool) ->
  channels out = Ok (Torch.out_channels (ds_conv self)).
Proof.
  unfold DsBlock_forward. intros H.
  apply result_bind_ok in H as (c & Hc & H).
  apply result_bind_ok in H as (o & Ho & H). injection H as <- <-.
  apply Conv3d_forward_ok in Hc as (_ & Hch & _).
  destruct (ds_pooling self).
  - apply result_bind_ok in Ho as (mp & _ & Ho).
    apply MaxPool3d_forward_ok in Ho. rewrite Ho. exact Hch.
  - injection Ho as <-. exact Hch.
Qed.

Lemma UsBlockRes_forward_raises in_channels out_channels up_mode before_pool x ch y :
  channels x = Ok ch -> ch <> in_channels ->
  outcome (UsBlockRes_forward (UsBlockRes_init in_channels out_channels up_mode)
             before_pool x) <> Ok y.
Proof.
  intros Hch Hne H. unfold UsBlockRes_forward in H.
  apply traced_bind_ok in H as (u & Hu & _). rewrite outcome_lift in Hu.
  apply upconv2x2_forward_ok in Hu as [Hx _]. congruence.
Qed.

End BlockFacts.

(** ** Construction of the network *)

Module InitFacts.
Import Py Trace Torch ELUNet InitLoops MonadFacts TorchFacts.
Local Open Scope Z_scope.

Lemma range_length n : length (range n) = Z.to_nat n.
Proof. unfold range. now rewrite length_fmap, length_seq. Qed.

Lemma range_lookup n (i : nat) z :
  range n !! i = Some z -> z = Z.of_nat i /\ (i < Z.to_nat n)%nat.
Proof.
  unfold range. rewrite list_lookup_fmap.
  destruct (seq 0 (Z.to_nat n) !! i) as [k|] eqn:Hk; [|discriminate].
  apply lookup_seq in Hk as [-> Hlt]. cbn. intros [= <-]. auto.
Qed.

Lemma range_last n : 1 <= n -> last (range n) = Some (n - 1).
Proof.
  intros Hn. unfold range.
  replace (Z.to_nat n) with (S (Z.to_nat (n - 1))) by lia.
  rewrite seq_S, fmap_app. cbn [fmap list_fmap]. rewrite last_snoc. f_equal. lia.
Qed.

Lemma init_down_closed depth start_filts ixs acc outs :
  init_down depth start_filts ixs acc outs
  = (acc ++ (down_stage depth start_filts <$> ixs),
     match last ixs with
     | Some i => Some (start_filts * 2 ^ i * 2)
     | None => outs
     end).
Proof.
  revert acc outs. induction ixs as [|i ixs IH]; intros acc outs; cbn [init_down].
  - now rewrite app_nil_r.
  - rewrite IH, <- app_assoc. cbn [app fmap list_fmap]. f_equal.
    destruct ixs as [|z ixs']; [reflexivity|]. rewrite last_cons_cons.
    destruct (last (z :: ixs')) eqn:E; [reflexivity|].
    apply last_None in E. discriminate.
Qed.

Lemma init_up_closed up_mode res ixs acc o :
  init_up up_mode res ixs acc (Some o)
  = Ok (acc ++ up_stages up_mode res (length ixs) o, Some (halved (length ixs) o)).
Proof.
  revert acc o. induction ixs as [|i ixs IH]; intros acc o; cbn [init_up].
  - cbn. now rewrite app_nil_r.
  - cbn [of_option mbind result_bind]. rewrite IH, <- app_assoc. reflexivity.
Qed.

Lemma up_stages_length up_mode res k o :
  length (up_stages up_mode res k o) = k.
Proof. revert o. induction k; intros o; cbn; [reflexivity|]. now rewrite IHk. Qed.

Lemma up_stages_lookup up_mode res k o (i : nat) blk :
  up_stages up_mode res k o !! i = Some blk ->
  up_block_out_channels blk = o / 2 ^ (Z.of_nat i + 1).
Proof.
  revert o i. induction k as [|k IH]; intros o i; cbn [up_stages]; [discriminate|].
  destruct i as [|i]; cbn [lookup list_lookup].
  - intros [= <-]. destruct res; cbn; now rewrite Z.pow_1_r.
  - intros H. apply IH in H. rewrite H.
    rewrite Z.div_div by lia.
    f_equal. rewrite <- Z.pow_succ_r by lia. f_equal. lia.
Qed.


(** What [__init__] returns for a depth of at least 1. *)
Lemma init_closed num_classes in_channels depth start_filts up_mode res :
  1 <= depth ->
  __init__ num_classes in_channels depth start_filts up_mode res
  = Ok {| conv_start := conv3x3 in_channels start_filts 1 1 true;
          down_convs := down_stage depth start_filts <$> range depth;
          up_convs := up_stages up_mode res (Z.to_nat (depth - 1))
                        (start_filts * 2 ^ (depth - 1) * 2);
          conv_final :=
            conv1x1 (halved (Z.to_nat (depth - 1))
                       (start_filts * 2 ^ (depth - 1) * 2)) num_classes;
          conv :=
            conv3x3 (halved (Z.to_nat (depth - 1))
                       (start_filts * 2 ^ (depth - 1) * 2) * 2)
                    (halved (Z.to_nat (depth - 1))
                       (start_filts * 2 ^ (depth - 1) * 2)) 1 1 true |}.
Proof.
  intros Hd. unfold __init__.
  rewrite init_down_closed, range_last by exact Hd. cbn [app].
  rewrite init_up_closed, range_length. reflexivity.
Qed.

(** Claim C4.  For a depth D of at least 1 and a start-filter count F0
    of at least 1, [__init__] succeeds and builds D encoder stages and
    D - 1 decoder stages; encoder stage [i] maps [F0 * 2^i] channels to
    twice as many and pools unless it is the last; decoder stage [i] has
    [F0 * 2^(D-1-i)] output channels, half the output channels of the
    stage before it (the last encoder stage for [i = 0]).  The input
    channels and the class count are not negative, as the layer
    constructors require. *)
Theorem init_stage_counts_and_channels
    (num_classes in_channels depth start_filts : Z) (up_mode : string)
    (res : bool) (Hdepth : 1 <= depth) (Hfilts : 1 <= start_filts)
    (Hin : 0 <= in_channels) (Hclasses : 0 <= num_classes) :
  exists self,
    __init__ num_classes in_channels depth start_filts up_mode res = Ok self /\
    Z.of_nat (length (down_convs self)) = depth /\
    Z.of_nat (length (up_convs self)) = depth - 1 /\
    (forall (i : nat) blk, down_convs self !! i = Some blk ->
       Torch.in_channels (ds_conv blk) = start_filts * 2 ^ Z.of_nat i /\
       Torch.out_channels (ds_conv blk) = 2 * (start_filts * 2 ^ Z.of_nat i) /\
       ds_pooling blk = bool_decide (Z.of_nat i < depth - 1)) /\
    (forall (i : nat) blk, up_convs self !! i = Some blk ->
       up_block_out_channels blk = start_filts * 2 ^ (depth - 1 - Z.of_nat i)) /\
    (forall blk last, up_convs self !! 0%nat = Some blk ->
       down_convs self !! Z.to_nat (depth - 1) = Some last ->
       up_block_out_channels blk = Torch.out_channels (ds_conv last) / 2 /\
       Torch.out_channels (ds_conv last) = 2 * up_block_out_channels blk) /\
    (forall (i : nat) prev blk, up_convs self !! i = Some prev ->
       up_convs self !! S i = Some blk ->
       up_block_out_channels blk = up_block_out_channels prev / 2 /\
       up_block_out_channels prev = 2 * up_block_out_channels blk).
Proof.
  eexists. split; [apply init_closed; exact Hdepth|]. cbn [down_convs up_convs].
  assert (Hdown : forall (i : nat) blk,
            (down_stage depth start_filts <$> range depth) !! i = Some blk ->
            blk = down_stage depth start_filts (Z.of_nat i)).
  { intros i blk. rewrite list_lookup_fmap.
    destruct (range depth !! i) as [z|] eqn:Hz; [|discriminate].
    apply range_lookup in Hz as [-> _]. now intros [= <-]. }
  assert (Hup : forall (i : nat) blk,
            up_stages up_mode res (Z.to_nat (depth - 1))
              (start_filts * 2 ^ (depth - 1) * 2) !! i = Some blk ->
            up_block_out_channels blk = start_filts * 2 ^ (depth - 1 - Z.of_nat i)).
  { intros i blk H. pose proof (lookup_lt_Some _ _ _ H) as Hlt.
    rewrite up_stages_length in Hlt.
    apply up_stages_lookup in H. rewrite H.
    replace (start_filts * 2 ^ (depth - 1) * 2)
      with (start_filts * 2 ^ (depth - 1 - Z.of_nat i) * 2 ^ (Z.of_nat i + 1)).
    - apply Z.div_mul. apply Z.pow_nonzero; lia.
    - rewrite <- !Z.mul_assoc. f_equal.
      rewrite <- Z.pow_add_r by lia.
      rewrite (Z.mul_comm (2 ^ (depth - 1)) 2), <- Z.pow_succ_r by lia.
      f_equal. lia. }
  split; [rewrite length_fmap, range_length; lia|].
  split; [rewrite up_stages_length; lia|].
  split; [|split; [exact Hup|split]].
  - intros i blk H. rewrite (Hdown i blk H). cbn.
    split; [reflexivity|]. split; [lia|].
    destruct (Z.ltb_spec (Z.of_nat i) (depth - 1)).
    + now rewrite bool_decide_eq_true_2.
    + now rewrite bool_decide_eq_false_2 by lia.
  - intros blk last Hb Hl. rewrite (Hdown _ _ Hl), (Hup _ _ Hb). cbn.
    pose proof (lookup_lt_Some _ _ _ Hb) as Hlt. rewrite up_stages_length in Hlt.
    rewrite Z2Nat.id by lia. rewrite Z.sub_0_r.
    rewrite Z.div_mul by lia. lia.
  - intros i prev blk Hp Hb. rewrite (Hup _ _ Hp), (Hup _ _ Hb).
    pose proof (lookup_lt_Some _ _ _ Hb) as Hlt. rewrite up_stages_length in Hlt.
    replace (depth - 1 - Z.of_nat i) with (Z.succ (depth - 1 - Z.of_nat (S i))) by lia.
    rewrite Z.pow_succ_r by lia.
    replace (start_filts * (2 * 2 ^ (depth - 1 - Z.of_nat (S i))))
      with (start_filts * 2 ^ (depth - 1 - Z.of_nat (S i)) * 2) by lia.
    rewrite Z.div_mul by lia. lia.
Qed.

Lemma init_stage_counts_and_channels_witness :
  exists self,
    __init__ 4 1 4 1 "trilinear" false = Ok self /\
    length (down_convs self) = 4%nat /\ length (up_convs self) = 3%nat /\
    (Torch.out_channels <$> (ds_conv <$> down_convs self)) = [2; 4; 8; 16] /\
    (up_block_out_channels <$> up_convs self) = [8; 4; 2].
Proof.
  destruct (init_stage_counts_and_channels 4 1 4 1 "trilinear" false)
    as (self & Hinit & _); [lia|lia|lia|lia|].
  exists self. split; [exact Hinit|].
  injection Hinit as <-. repeat split.
Defined.

End InitFacts.

(** ** The forward pass: which submodules run *)

Module ForwardFacts.
Import Py Trace Torch ELUNet MonadFacts TorchFacts.
Local Open Scope Z_scope.

(** Locate an event in a concrete trace. *)
Ltac find_event := repeat first [left; reflexivity | right].

Lemma called_inv {R} m args (outs : R -> list tensor) body r :
  outcome (called m args outs body) = Ok r ->
  outcome body = Ok r /\
  events (called m args outs body) = Call m args :: events body ++ [Return m (outs r)].
Proof.
  unfold called, emit. destruct body as [l [a|e]]; cbn; [|discriminate].
  intros [= ->]. split; reflexivity.
Qed.

Lemma called_In {R} m args (outs : R -> list tensor) body e :
  In e (events (called m args outs body)) ->
  e = Call m args \/ In e (events body) \/
  exists r, outcome body = Ok r /\ e = Return m (outs r).
Proof.
  unfold called, emit. destruct body as [l [a|ex]]; cbn.
  - intros [<-|H]; [now left|].
    apply in_app_iff in H as [H|[<-|[]]]; eauto.
  - intros [<-|H]; [now left|]. right. now left.
Qed.

Lemma match_size_events before_pool size e :
  In e (events (match_size before_pool size)) ->
  e = Interpolate before_pool size.
Proof.
  unfold match_size. case_bool_decide; [|intros []].
  intros He. apply traced_bind_In in He as [[<-|[]]|(u & _ & [])]. reflexivity.
Qed.

Lemma up_block_forward_events b before_pool x e :
  In e (events (up_block_forward b before_pool x)) -> event_member e = None.
Proof.
  destruct b as [b|b]; cbn [up_block_forward].
  - rewrite events_lift. intros [].
  - unfold UsBlockRes_forward. intros H.
    apply traced_bind_In in H as [[]|(u & _ & H)].
    apply traced_bind_In in H as [H|(bp & _ & H)].
    { apply match_size_events in H. now subst e. }
    apply traced_bind_In in H as [[]|(c & _ & H)].
    apply traced_bind_In in H as [[]|(c' & _ & [])].
Qed.

Section Members.
(** Events that do not involve the submodule [m0]. *)
Variable m0 : member.
Let avoids (e : event) : Prop := event_member e <> Some m0.

Lemma called_avoids {R} m args (outs : R -> list tensor) body :
  m <> m0 -> Forall avoids (events body) ->
  Forall avoids (events (called m args outs body)).
Proof.
  intros Hm Hbody. rewrite Forall_forall. intros e He.
  apply list_elem_of_In, called_In in He as [->|[He|(r & _ & ->)]].
  - unfold avoids. cbn. congruence.
  - rewrite Forall_forall in Hbody. apply Hbody. now apply list_elem_of_In.
  - unfold avoids. cbn. congruence.
Qed.

Lemma lift_avoids {A} (r : result A) : Forall avoids (events (lift (E:=event) r)).
Proof. constructor. Qed.

Lemma match_size_avoids before_pool size :
  Forall avoids (events (match_size before_pool size)).
Proof.
  rewrite Forall_forall. intros e He.
  apply list_elem_of_In, match_size_events in He. subst e. unfold avoids. cbn.
  discriminate.
Qed.

Lemma up_block_forward_avoids b before_pool x :
  Forall avoids (events (up_block_forward b before_pool x)).
Proof.
  rewrite Forall_forall. intros e He.
  apply list_elem_of_In, up_block_forward_events in He. unfold avoids.
  rewrite He. discriminate.
Qed.

Lemma forward_down_avoids n i modules x eo sk :
  (forall j, m0 <> down_convs_ j) ->
  Forall avoids (events (forward_down n i modules x eo sk)).
Proof.
  intros Hm0. revert i x eo sk.
  induction modules as [|module modules IH]; intros i x eo sk; cbn [forward_down].
  - constructor.
  - apply traced_bind_Forall.
    + apply called_avoids; [intros H; apply (Hm0 i); now rewrite H|apply lift_avoids].
    + intros [x' bp] _. apply IH.
Qed.

Lemma forward_up_avoids conv i modules x eo sk :
  (forall j, m0 <> up_convs_ j) -> m0 <> conv_ ->
  Forall avoids (events (forward_up conv i modules x eo sk)).
Proof.
  intros Hup Hconv. revert i x.
  induction modules as [|module modules IH]; intros i x; cbn [forward_up].
  - constructor.
  - apply traced_bind_Forall; [apply lift_avoids|]. intros skip _.
    apply traced_bind_Forall.
    { apply called_avoids; [intros H; apply (Hup i); now rewrite H|].
      apply up_block_forward_avoids. }
    intros x1 _.
    apply traced_bind_Forall; [apply lift_avoids|]. intros bp _.
    apply traced_bind_Forall; [apply match_size_avoids|]. intros bp' _.
    apply traced_bind_Forall; [apply lift_avoids|]. intros x2 _.
    apply traced_bind_Forall.
    { apply called_avoids; [congruence|apply lift_avoids]. }
    intros x3 _. apply IH.
Qed.

Lemma forward_avoids self x :
  m0 <> conv_start_ -> (forall j, m0 <> down_convs_ j) ->
  (forall j, m0 <> up_convs_ j) -> m0 <> conv_ ->
  Forall avoids (events (forward self x)).
Proof.
  intros Hs Hd Hu Hc. unfold forward.
  apply traced_bind_Forall.
  { apply called_avoids; [congruence|apply lift_avoids]. }
  intros x1 _. apply traced_bind_Forall; [now apply forward_down_avoids|].
  intros [[x2 eo] sk] _.
  apply traced_bind_Forall; [now apply forward_up_avoids|].
  intros x3 _. constructor.
Qed.

End Members.

(** The decoder loop ends with the shared convolution. *)
Lemma forward_up_result conv i modules x eo sk y :
  modules <> [] ->
  outcome (forward_up conv i modules x eo sk) = Ok y ->
  let ev := events (forward_up conv i modules x eo sk) in
  exists d bp z,
    last ev = Some (Return conv_ [y]) /\
    In (Return (up_convs_ (i + length modules - 1)) [d]) ev /\
    cat1 d bp = Ok z /\ Conv3d_forward conv z = Ok y.
Proof.
  revert i x. induction modules as [|module modules IH]; intros i x Hne H;
    [congruence|].
  cbn [forward_up] in *.
  apply traced_bind_inv in H as (skip & Hskip & H & ->).
  apply traced_bind_inv in H as (x1 & Hx1 & H & ->).
  apply traced_bind_inv in H as (bp & Hbp & H & ->).
  apply traced_bind_inv in H as (bp' & Hbp' & H & ->).
  apply traced_bind_inv in H as (x2 & Hx2 & H & ->).
  apply traced_bind_inv in H as (x3 & Hx3 & H & ->).
  apply called_inv in Hx1 as [Hx1 ->]. apply called_inv in Hx3 as [Hx3 ->].
  rewrite outcome_lift in Hx2, Hx3. cbn [events lift fst app].
  destruct modules as [|module' modules].
  - cbn in H. injection H as <-. exists x1, bp', x2. cbn [forward_up].
    split; [|split; [|split; assumption]].
    + rewrite last_cons, !last_app. reflexivity.
    + replace (i + length [module] - 1)%nat with i by (cbn; lia).
      right. apply in_app_iff. left. apply in_app_iff. right. now left.
  - destruct (IH (S i) x3 ltac:(discriminate) H) as (d & bp0 & z & Hlast & Hin & Hz & Hy).
    exists d, bp0, z. split; [|split; [|split; assumption]].
    + cbv zeta in Hlast. rewrite last_cons, !last_app, !last_cons, Hlast.
      reflexivity.
    + replace (i + length (module :: module' :: modules) - 1)%nat
        with (S i + length (module' :: modules) - 1)%nat by (cbn; lia).
      right. apply in_app_iff. right. apply in_app_iff. right.
      right. right. exact Hin.
Qed.


Lemma cat1_ok x y z : cat1 x y = Ok z -> val z = VCat (val x) (val y).
Proof.
  unfold cat1. destruct (shape x) as [|n [|c sp]]; try discriminate;
    destruct (shape y) as [|n' [|c' sp']]; try discriminate.
  case_match; [|discriminate]. now intros [= <-].
Qed.

Lemma init_conv_final num_classes in_channels depth start_filts up_mode res self :
  __init__ num_classes in_channels depth start_filts up_mode res = Ok self ->
  Torch.out_channels (conv_final self) = num_classes /\
  kernel_size (conv_final self) = 1.
Proof.
  unfold __init__. destruct (init_down _ _ _ _ _) as [downs outs].
  intros H. apply result_bind_ok in H as ([ups outs'] & _ & H).
  apply result_bind_ok in H as (o & _ & H). injection H as <-. auto.
Qed.

(** Claim C1.  No event of [forward] enters or leaves [conv_final],
    whatever the object and the input, also when the pass ends in an
    exception.  When [forward] returns and there is a decoder stage, the
    returned tensor is the result of the shared convolution [self.conv]
    on the concatenation of the last decoder stage's output with an
    encoder feature map, and that call is the last event.  The classifier
    that [__init__] builds is a 1x1x1 convolution to [num_classes]
    channels. *)
Theorem forward_never_applies_conv_final (self : ELUNet) (x : tensor) :
  (forall e, In e (events (forward self x)) ->
     event_member e <> Some conv_final_) /\
  (forall y skips,
     outcome (forward self x) = Ok (y, skips) -> up_convs self <> [] ->
     exists d bp z,
       last (events (forward self x)) = Some (Return conv_ [y]) /\
       In (Return (up_convs_ (length (up_convs self) - 1)) [d])
          (events (forward self x)) /\
       cat1 d bp = Ok z /\ Conv3d_forward (conv self) z = Ok y /\
       val y = VConv3d (conv self) (VCat (val d) (val bp))) /\
  (forall num_classes in_channels depth start_filts up_mode res,
     __init__ num_classes in_channels depth start_filts up_mode res = Ok self ->
     Torch.out_channels (conv_final self) = num_classes /\
     kernel_size (conv_final self) = 1).
Proof.
  split; [|split].
  - intros e He.
    pose proof (forward_avoids conv_final_ self x) as Hav.
    rewrite Forall_forall in Hav.
    apply Hav; try discriminate. now apply list_elem_of_In.
  - intros y skips H Hne. unfold forward in *.
    apply traced_bind_inv in H as (x1 & Hx1 & H & ->).
    apply traced_bind_inv in H as ([[x2 eo] sk] & Hx2 & H & ->).
    apply traced_bind_inv in H as (x3 & Hx3 & H & ->).
    cbn in H. injection H as <- <-.
    destruct (forward_up_result _ _ _ _ _ _ _ Hne Hx3)
      as (d & bp & z & Hlast & Hin & Hz & Hy).
    exists d, bp, z. cbn [events fst] in *.
    split; [|split; [|split; [exact Hz|split; [exact Hy|]]]].
    + rewrite app_nil_r, !last_app. cbn [mret traced_ret fst] in *.
      now rewrite Hlast.
    + rewrite !in_app_iff. right. right. left. exact Hin.
    + apply Conv3d_forward_ok in Hy as (_ & _ & ->). f_equal.
      now apply cat1_ok.
  - intros. eapply init_conv_final; eassumption.
Qed.

End ForwardFacts.

(** ** The forward pass: skip connections *)

Module SkipFacts.
Import Py Trace Torch ELUNet MonadFacts TorchFacts ForwardFacts.
Local Open Scope Z_scope.

(** The encoder loop: which tensors end up in [skip_connections]. *)
Lemma forward_down_skips n modules : forall i x eo sk x' eo' sk',
  (i + length modules = n)%nat ->
  outcome (forward_down n i modules x eo sk) = Ok (x', eo', sk') ->
  let ev := events (forward_down n i modules x eo sk) in
  length sk' = (length sk + (length modules - 1))%nat /\
  (forall k, (k < length sk)%nat -> sk' !! k = sk !! k) /\
  (forall k s, sk' !! (length sk + k)%nat = Some s ->
     exists bp, In (Return (down_convs_ (i + k)) [s; bp]) ev) /\
  (modules <> [] -> exists bp, In (Return (down_convs_ (n - 1)) [x'; bp]) ev).
Proof.
  induction modules as [|module modules IH]; intros i x eo sk x' eo' sk' Hn H ev.
  - cbn in H. injection H as <- <- <-. cbn [length]. rewrite Nat.add_0_r.
    split; [reflexivity|]. split; [reflexivity|]. split; [|congruence].
    intros k s Hs. apply lookup_lt_Some in Hs. lia.
  - subst ev. cbn [forward_down] in *.
    apply traced_bind_inv in H as ([x1 bp1] & Hc & H & ->).
    apply called_inv in Hc as [Hc ->]. cbn [fst snd] in *.
    destruct modules as [|module' modules]; cbn [length] in Hn.
    + (* the last stage: nothing is appended *)
      destruct (Z.ltb_spec (Z.of_nat i) (Z.of_nat n - 1)); [lia|].
      cbn in H. injection H as <- <- <-. cbn [length].
      split; [lia|]. split; [reflexivity|]. split.
      * intros k s Hs. apply lookup_lt_Some in Hs. lia.
      * intros _. exists bp1. replace (n - 1)%nat with i by lia.
        right. apply in_app_iff. left. apply in_app_iff. right. now left.
    + destruct (Z.ltb_spec (Z.of_nat i) (Z.of_nat n - 1)); [|lia].
      destruct (IH (S i) x1 (eo ++ [bp1]) (sk ++ [x1]) x' eo' sk'
                  ltac:(cbn [length] in *; lia) H)
        as (Hlen & Hpre & Hnew & Hlast).
      rewrite length_app in Hlen, Hpre, Hnew. cbn [length] in *.
      split; [lia|]. split; [|split].
      * intros k Hk. rewrite Hpre by lia. now apply lookup_app_l.
      * intros k s Hs. destruct k as [|k].
        -- rewrite Nat.add_0_r in *. rewrite Hpre in Hs by lia.
           rewrite lookup_app_r, Nat.sub_diag in Hs by lia.
           injection Hs as <-. exists bp1.
           right. apply in_app_iff. left. apply in_app_iff. right. now left.
        -- replace (length sk + S k)%nat with (length sk + 1 + k)%nat in Hs by lia.
           destruct (Hnew k s Hs) as (bp & Hin). exists bp.
           replace (i + S k)%nat with (S i + k)%nat by lia.
           right. apply in_app_iff. right. exact Hin.
      * intros _. destruct (Hlast ltac:(discriminate)) as (bp & Hin). exists bp.
        right. apply in_app_iff. right. exact Hin.
Qed.

(** The decoder loop: what each stage is called with. *)
Lemma forward_up_calls conv modules : forall i x eo sk i' skip xin,
  In (Call (up_convs_ i') [skip; xin]) (events (forward_up conv i modules x eo sk)) ->
  (i <= i')%nat /\ index sk (- (Z.of_nat i' + 1)) = Ok skip /\ (i' = i -> xin = x).
Proof.
  induction modules as [|module modules IH]; intros i x eo sk i' skip xin H;
    cbn [forward_up] in H; [destruct H|].
  apply traced_bind_In in H as [[]|(skip0 & Hskip & H)].
  rewrite outcome_lift in Hskip.
  apply traced_bind_In in H as [H|(x1 & _ & H)].
  { apply called_In in H as [H|[H|(r & _ & H)]].
    - injection H as -> -> ->. auto.
    - apply up_block_forward_events in H. discriminate H.
    - discriminate H. }
  apply traced_bind_In in H as [[]|(bp & _ & H)].
  apply traced_bind_In in H as [H|(bp' & _ & H)].
  { apply match_size_events in H. discriminate H. }
  apply traced_bind_In in H as [[]|(x2 & _ & H)].
  apply traced_bind_In in H as [H|(x3 & _ & H)].
  { apply called_In in H as [H|[[]|(r & _ & H)]]; discriminate H. }
  apply IH in H as (Hle & Hidx & Hx). split; [lia|]. split; [exact Hidx|]. lia.
Qed.

Lemma index_from_end {A} (l : list A) (i : nat) a :
  index l (- (Z.of_nat i + 1)) = Ok a ->
  (i < length l)%nat /\ l !! (length l - 1 - i)%nat = Some a.
Proof.
  unfold index. destruct (Z.ltb_spec (- (Z.of_nat i + 1)) 0); [|lia].
  destruct (Z.leb_spec 0 (Z.of_nat (length l) + - (Z.of_nat i + 1))); [|discriminate].
  replace (Z.to_nat (Z.of_nat (length l) + - (Z.of_nat i + 1)))
    with (length l - 1 - i)%nat by lia.
  destruct (l !! (length l - 1 - i)%nat) eqn:Hl; [|discriminate].
  cbn. intros [= ->]. split; [lia|reflexivity].
Qed.


(** Claim C5, amended.  With stages counted from 0 as [forward] counts
    them and D encoder stages: the encoder loop leaves D - 1 tensors in
    [skip_connections], the [j]-th being the output of encoder stage [j];
    whenever decoder stage [i] is called, D is at least [i + 2], its first
    argument is the output of encoder stage [D - 2 - i], and the second
    argument of decoder stage 0 is the output of the last encoder stage
    [D - 1]. *)
Theorem skips_feed_decoder_in_reverse (self : ELUNet) (x : tensor) :
  let n := length (down_convs self) in
  let ev := events (forward self x) in
  (forall x1 x' eo sk,
     outcome (forward_down n 0 (down_convs self) x1 [] []) = Ok (x', eo, sk) ->
     length sk = (n - 1)%nat) /\
  (forall y skips,
     outcome (forward self x) = Ok (y, skips) ->
     length skips = (n - 1)%nat /\
     forall j s, skips !! j = Some s ->
       exists bp, In (Return (down_convs_ j) [s; bp]) ev) /\
  (forall i skip xin,
     In (Call (up_convs_ i) [skip; xin]) ev ->
     (i + 2 <= n)%nat /\
     (exists bp, In (Return (down_convs_ (n - 2 - i)) [skip; bp]) ev) /\
     (i = 0%nat -> exists bp, In (Return (down_convs_ (n - 1)) [xin; bp]) ev)).
Proof.
  intros n ev. split; [|split].
  - intros x1 x' eo sk H.
    destruct (forward_down_skips n (down_convs self) 0 x1 [] [] x' eo sk
                eq_refl H) as (Hlen & _).
    exact Hlen.
  - intros y skips H. subst ev. unfold forward in *.
    apply traced_bind_inv in H as (x1 & Hx1 & H & ->).
    apply traced_bind_inv in H as ([[x2 eo] sk] & Hx2 & H & ->).
    apply traced_bind_inv in H as (x3 & Hx3 & H & ->).
    cbn in H. injection H as <- <-.
    destruct (forward_down_skips n (down_convs self) 0 x1 [] [] x2 eo sk
                eq_refl Hx2) as (Hlen & _ & Hnew & _).
    split; [exact Hlen|]. intros j s Hs.
    destruct (Hnew j s Hs) as (bp & Hin). exists bp.
    rewrite !in_app_iff. right. left. exact Hin.
  - intros i skip xin H. subst ev. unfold forward in *.
    apply traced_bind_In in H as [H|(x1 & Hx1 & H)].
    { apply called_In in H as [H|[[]|(r & _ & H)]]; discriminate H. }
    apply traced_bind_In in H as [H|([[x2 eo] sk] & Hx2 & H)].
    { pose proof (forward_down_avoids (up_convs_ i) n 0 (down_convs self) x1 [] []
                    ltac:(discriminate)) as Hav.
      rewrite Forall_forall in Hav. apply list_elem_of_In, Hav in H.
      now contradiction H. }
    apply traced_bind_In in H as [H|(x3 & _ & [])].
    destruct (forward_up_calls _ _ _ _ _ _ _ _ _ H) as (_ & Hidx & Hxin).
    apply index_from_end in Hidx as [Hlt Hidx].
    destruct (forward_down_skips n (down_convs self) 0 x1 [] [] x2 eo sk
                eq_refl Hx2) as (Hlen & _ & Hnew & Hlast).
    cbn [length] in Hlen. rewrite Nat.add_0_l in Hlen.
    split; [lia|]. split.
    + destruct (Hnew (length sk - 1 - i)%nat skip Hidx) as (bp & Hin).
      exists bp. replace (n - 2 - i)%nat with (length sk - 1 - i)%nat by lia.
      apply (traced_bind_In_r _ _ x1 _ Hx1).
      apply traced_bind_In_l. exact Hin.
    + intros ->. rewrite (Hxin eq_refl).
      destruct Hlast as (bp & Hin).
      { intros Hnil. unfold n in Hlen. rewrite Hnil in Hlen. cbn in Hlen. lia. }
      exists bp. apply (traced_bind_In_r _ _ x1 _ Hx1).
      apply traced_bind_In_l. exact Hin.
Qed.

End SkipFacts.

(** ** The module of the [__main__] block *)

Module ExampleFacts.
Import Py Trace Torch ELUNet MonadFacts TorchFacts BlockFacts ForwardFacts SkipFacts ExampleNet.
Local Open Scope Z_scope.



(** Claim C5 as stated fails: in the module of the [__main__] block
    (D = 4), decoder stage 0 is called with the output of encoder stage 2,
    which differs from every output of encoder stage [D - 1 - 0 = 3]. *)
Lemma skip_index_counterexample :
  exists self skip xin,
    main_module = Ok self /\ length (down_convs self) = 4%nat /\
    In (Call (up_convs_ 0) [skip; xin]) (events (forward self main_x)) /\
    (exists bp, In (Return (down_convs_ 2) [skip; bp]) (events (forward self main_x))) /\
    (forall o bp,
       In (Return (down_convs_ (4 - 1 - 0)) [o; bp]) (events (forward self main_x)) ->
       skip <> o).
Proof.
  eexists. eexists. eexists. split; [reflexivity|]. split; [reflexivity|].
  split; [vm_compute; find_event|].
  split; [eexists; vm_compute; find_event|].
  intros o bp Hin. vm_compute in Hin.
  repeat (destruct Hin as [Hin|Hin]; [try discriminate Hin|]);
    [|destruct Hin].
  injection Hin as <- <-. discriminate.
Qed.

Lemma skips_feed_decoder_in_reverse_witness :
  exists self skip xin,
    main_module = Ok self /\
    In (Call (up_convs_ 0) [skip; xin]) (events (forward self main_x)) /\
    (exists bp, In (Return (down_convs_ 2) [skip; bp]) (events (forward self main_x))) /\
    (exists bp, In (Return (down_convs_ 3) [xin; bp]) (events (forward self main_x))).
Proof.
  pose (self := ltac:(let t := eval vm_compute in main_module in
                      match t with Ok ?m => exact m end) : ELUNet).
  exists self. eexists. eexists. split; [reflexivity|].
  match goal with
  | |- ?P /\ _ => assert (Hcall : P) by (vm_compute; find_event)
  end.
  split; [exact Hcall|].
  destruct (skips_feed_decoder_in_reverse self main_x) as (_ & _ & H).
  destruct (H _ _ _ Hcall) as (_ & Hskip & Hx).
  split; [exact Hskip|exact (Hx eq_refl)].
Defined.

End ExampleFacts.

(** ** The decoder of a constructed network *)

Module DecoderFacts.
Import Py Trace Torch ELUNet InitLoops MonadFacts TorchFacts BlockFacts InitFacts
  ForwardFacts SkipFacts ExampleNet.
Local Open Scope Z_scope.

(** After the encoder loop, [x] has the width of the last stage. *)
Lemma forward_down_channels n modules : forall i x eo sk x' eo' sk' blk,
  last modules = Some blk ->
  outcome (forward_down n i modules x eo sk) = Ok (x', eo', sk') ->
  channels x' = Ok (Torch.out_channels (ds_conv blk)).
Proof.
  induction modules as [|module modules IH]; intros i x eo sk x' eo' sk' blk Hl H;
    [discriminate|].
  cbn [forward_down] in H.
  apply traced_bind_ok in H as ([x1 bp1] & Hc & H).
  apply called_inv in Hc as [Hc _]. rewrite outcome_lift in Hc.
  destruct modules as [|module' modules].
  - cbn in Hl. injection Hl as <-. cbn in H. injection H as <- _ _.
    now apply DsBlock_forward_channels in Hc.
  - rewrite last_cons_cons in Hl. exact (IH _ _ _ _ _ _ _ _ Hl H).
Qed.

(** A decoder loop whose first stage was built by [__init__] for an input
    of [o] channels never completes. *)
Lemma forward_up_first_raises conv up_mode res k o x eo sk y :
  2 <= o -> channels x = Ok o ->
  outcome (forward_up conv 0 (up_stages up_mode res (S k) o) x eo sk) <> Ok y.
Proof.
  intros Ho Hch H. cbn [up_stages forward_up] in H.
  apply traced_bind_ok in H as (skip & _ & H).
  apply traced_bind_ok in H as (x1 & Hx1 & _).
  apply called_inv in Hx1 as [Hx1 _].
  assert (1 <= o / 2) by (Z.div_mod_to_equations; lia).
  destruct res; cbn [up_block_forward] in Hx1.
  - revert Hx1. apply (UsBlockRes_forward_raises _ _ _ _ _ o); [exact Hch|lia].
  - rewrite outcome_lift in Hx1. revert Hx1. apply UsBlock_forward_raises. lia.
Qed.

(** Every network that [__init__] builds with a decoder raises in
    [forward], whatever the input. *)
Lemma forward_raises num_classes in_channels depth start_filts up_mode res self x :
  2 <= depth -> 1 <= start_filts ->
  __init__ num_classes in_channels depth start_filts up_mode res = Ok self ->
  exists e, outcome (forward self x) = Raise e.
Proof.
  intros Hd Hf Hinit. rewrite init_closed in Hinit by lia. injection Hinit as <-.
  destruct (outcome (forward _ x)) as [[y skips]|e] eqn:H; [exfalso|eauto].
  unfold forward in H. cbn [conv_start down_convs up_convs conv] in H.
  apply traced_bind_ok in H as (x1 & _ & H).
  apply traced_bind_ok in H as ([[x2 eo] sk] & Hx2 & H).
  apply traced_bind_ok in H as (x3 & Hx3 & _).
  eapply forward_down_channels in Hx2.
  2:{ unfold range. replace (Z.to_nat depth) with (S (Z.to_nat (depth - 1))) by lia.
      rewrite seq_S, fmap_app, fmap_app. cbn [fmap list_fmap]. apply last_snoc. }
  cbn in Hx2.
  replace (Z.to_nat (depth - 1)) with (S (Z.to_nat (depth - 2))) in Hx3 by lia.
  revert Hx3. apply forward_up_first_raises.
  - assert (1 <= 2 ^ (depth - 1)) by (apply Z.pow_le_mono_r with (b := 0); lia).
    nia.
  - rewrite Hx2. repeat f_equal. lia.
Qed.

Lemma forward_raises_on_main_input :
  exists self e,
    __init__ 4 1 4 1 "trilinear" false = Ok self /\
    outcome (forward self main_x) = Raise e.
Proof.
  pose (self := ltac:(let t := eval vm_compute in (__init__ 4 1 4 1 "trilinear" false) in
                      match t with Ok ?m => exact m end) : ELUNet).
  destruct (forward_raises 4 1 4 1 "trilinear" false self main_x) as (e & He);
    [lia|lia|reflexivity|].
  exists self, e. split; [reflexivity|exact He].
Defined.

(** Claim C6, evaluated on the [__main__] block: the input
    (2, 1, 144, 144, 8) has spatial sizes that are multiples of [2^(D-1)],
    yet decoder stage 0 receives a skip tensor of spatial size (18, 18, 1)
    while its upsampling step yields (36, 36, 2); [forward] then raises
    inside that stage, so no resampling event occurs only because the pass
    never reaches the comparison. *)
Theorem main_forward_mismatched_skip :
  exists self skip xin up u,
    main_module = Ok self /\
    length (down_convs self) = 4%nat /\
    Forall (fun s => s mod 2 ^ (4 - 1) = 0) (spatial main_x) /\
    In (Call (up_convs_ 0) [skip; xin]) (events (forward self main_x)) /\
    up_convs self !! 0%nat = Some (Plain up) /\
    upconv_forward (us_upconv up) xin = Ok u /\
    spatial skip = [18; 18; 1] /\ spatial u = [36; 36; 2] /\
    outcome (forward self main_x) = Raise RuntimeError /\
    (forall t size, ~ In (Interpolate t size) (events (forward self main_x))).
Proof.
  eexists. eexists. eexists. eexists. eexists.
  split; [reflexivity|]. split; [reflexivity|].
  split; [repeat constructor|].
  split; [vm_compute; find_event|].
  split; [reflexivity|]. split; [reflexivity|].
  split; [reflexivity|]. split; [reflexivity|]. split; [reflexivity|].
  intros t size Hin. vm_compute in Hin.
  repeat (destruct Hin as [Hin|Hin]; [discriminate Hin|]). destruct Hin.
Qed.

(** Where the channel widths agree, as in the object assembled by hand,
    both resampling guards fire although the input sizes are multiples of
    [2^(D-1)]: the tensors they compare differ by a factor of 2. *)
Lemma assembled_forward_resamples :
  exists skip before_pool,
    Forall (fun s => s mod 2 ^ (2 - 1) = 0) (spatial (input [1; 1; 4; 4; 4])) /\
    spatial skip = [2; 2; 2] /\ spatial before_pool = [2; 2; 2] /\
    In (Interpolate skip [4; 4; 4])
       (events (forward assembled (input [1; 1; 4; 4; 4]))) /\
    In (Interpolate before_pool [4; 4; 4])
       (events (forward assembled (input [1; 1; 4; 4; 4]))) /\
    skip <> before_pool.
Proof.
  eexists. eexists. split; [repeat constructor|].
  split; [|split; [|split; [vm_compute; do 7 right; left; reflexivity|
    split; [vm_compute; do 9 right; left; reflexivity|]]]];
    [reflexivity|reflexivity|discriminate].
Qed.

Lemma forward_never_applies_conv_final_witness :
  exists y skips,
    outcome (forward assembled (input [1; 1; 4; 4; 4])) = Ok (y, skips) /\
    shape y = [1; 2; 4; 4; 4] /\
    last (events (forward assembled (input [1; 1; 4; 4; 4])))
    = Some (Return conv_ [y]) /\
    (forall e, In e (events (forward assembled (input [1; 1; 4; 4; 4]))) ->
       event_member e <> Some conv_final_).
Proof.
  destruct (forward_never_applies_conv_final assembled (input [1; 1; 4; 4; 4]))
    as (Hnever & Hout & _).
  eexists. eexists. split; [reflexivity|]. split; [reflexivity|].
  split; [|exact Hnever].
  edestruct Hout as (d & bp & z & Hlast & _); [reflexivity|discriminate|].
  exact Hlast.
Defined.

End DecoderFacts.

(** ** More on the crop functions *)

Module CropFacts.
Import Py Np Trace Str Cardiac MonadFacts CardiacFacts.
Local Open Scope Z_scope.

Ltac paper_unfold v Hsh :=
  let sh := fresh "sh" in
  let it := fresh "it" in
  destruct v as [sh it]; simpl in Hsh; subst sh;
  unfold crop_img_paper, crop_label_paper; cbn [shape];
  rewrite ?index_0, ?index_1, ?index_2, ?index_3;
  cbn -[int_div slice_len slice_start Z.add Z.sub Z.ltb].

Section Paper.
Context {A : Type} (zero : A).

Lemma crop_img_paper_spec (v : ndarray A) (T d X Y : Z)
    (Hv : shape v = [T; d; X; Y]) :
  exists r, crop_img_paper zero v = Ok r /\ shape r = [T; 8; X; Y] /\
    forall t z x y,
      item r [t; z; x; y]
      = if d <? 8
        then (if z <? d then item v [t; z; x; y] else zero)
        else item v [t; d / 2 - 4 + z; x; y].
Proof.
  paper_unfold v Hv. destruct (Z.ltb_spec d 8).
  - unfold concatenate. cbn -[Z.add Z.sub Z.ltb Z.div].
    rewrite Z.eqb_refl, bool_decide_eq_true_2 by reflexivity.
    cbn -[Z.add Z.sub Z.ltb Z.div].
    eexists. split; [reflexivity|]. cbn -[Z.add Z.sub Z.ltb Z.div].
    split; [do 2 f_equal; lia|]. reflexivity.
  - rewrite slice_len_8, slice_start_8 by lia.
    eexists. split; [reflexivity|]. split; reflexivity.
Qed.

Lemma crop_label_paper_spec (v : ndarray A) (d X Y : Z)
    (Hv : shape v = [d; X; Y]) :
  exists r, crop_label_paper zero v = Ok r /\ shape r = [8; X; Y] /\
    forall z x y,
      item r [z; x; y]
      = if d <? 8
        then (if z <? d then item v [z; x; y] else zero)
        else item v [d / 2 - 4 + z; x; y].
Proof.
  paper_unfold v Hv. destruct (Z.ltb_spec d 8).
  - unfold concatenate. cbn -[Z.add Z.sub Z.ltb Z.div].
    rewrite bool_decide_eq_true_2 by reflexivity.
    cbn -[Z.add Z.sub Z.ltb Z.div].
    eexists. split; [reflexivity|]. cbn -[Z.add Z.sub Z.ltb Z.div].
    split; [f_equal; lia|]. reflexivity.
  - rewrite slice_len_8, slice_start_8 by lia.
    eexists. split; [reflexivity|]. split; reflexivity.
Qed.


Lemma getslice_4 (p : ndarray A) a b c d s0 s1 s2 s3 :
  shape p = [a; b; c; d] ->
  getslice p [s0; s1; s2; s3]
  = Ok {| shape := [spec_len s0 a; spec_len s1 b; spec_len s2 c; spec_len s3 d];
          item := fun idx => item p (slice_src [s0; s1; s2; s3] [a; b; c; d] idx) |}.
Proof. intros Hp. unfold getslice. rewrite Hp. reflexivity. Qed.

(** The paper variants crop or pad the depth axis and nothing else. *)
Theorem crop_paper_depth_only (v l : ndarray A) (T d X Y d' X' Y' : Z)
    (Hv : shape v = [T; d; X; Y]) (Hl : shape l = [d'; X'; Y']) :
  (exists r, crop_img_paper zero v = Ok r /\ shape r = [T; 8; X; Y] /\
     forall t z x y,
       item r [t; z; x; y]
       = if d <? 8
         then (if z <? d then item v [t; z; x; y] else zero)
         else item v [t; d / 2 - 4 + z; x; y]) /\
  (exists r, crop_label_paper zero l = Ok r /\ shape r = [8; X'; Y'] /\
     forall z x y,
       item r [z; x; y]
       = if d' <? 8
         then (if z <? d' then item l [z; x; y] else zero)
         else item l [d' / 2 - 4 + z; x; y]).
Proof.
  split.
  - exact (crop_img_paper_spec v T d X Y Hv).
  - exact (crop_label_paper_spec l d' X' Y' Hl).
Qed.

(** [crop_img] is [crop_img_paper] followed by the 144 x 144 window. *)
Theorem crop_img_is_paper_then_window (v : ndarray A) (T d X Y : Z)
    (Hv : shape v = [T; d; X; Y]) (HX : 144 <= X) (HY : 144 <= Y) :
  exists r p w,
    crop_img zero v = Ok r /\ crop_img_paper zero v = Ok p /\
    getslice p [Full; Full;
                Range (int_div X 2 - 72) (int_div X 2 + 72);
                Range (int_div Y 2 - 72) (int_div Y 2 + 72)] = Ok w /\
    array_eq r w.
Proof.
  destruct (crop_img_paper_spec v T d X Y Hv) as (p & Hp & Hsp & Hip).
  assert (Hr : exists r, crop_img zero v = Ok r /\ shape r = [T; 8; 144; 144] /\
            forall t z x y,
              item r [t; z; x; y]
              = item p [t; z; X / 2 - 72 + x; Y / 2 - 72 + y]).
  { destruct (Z.ltb_spec d 8) as [Hd|Hd].
    - destruct (crop_img_pad zero v T d X Y Hv Hd HX HY) as (r & Hr & Hsr & Hlo & Hhi).
      exists r. split; [exact Hr|]. split; [exact Hsr|]. intros t z x y.
      rewrite Hip. destruct (Z.ltb_spec d 8); [|lia].
      destruct (Z.ltb_spec z d); [now apply Hlo | now apply Hhi].
    - destruct (crop_img_centre zero v T d X Y Hv Hd HX HY) as (r & Hr & Hsr & Hit).
      exists r. split; [exact Hr|]. split; [exact Hsr|]. intros t z x y.
      rewrite Hip, Hit. destruct (Z.ltb_spec d 8); [lia|]. reflexivity. }
  destruct Hr as (r & Hr & Hsr & Hir).
  exists r, p. eexists. split; [exact Hr|]. split; [exact Hp|].
  split; [apply getslice_4; exact Hsp|].
  split.
  - rewrite Hsr. cbn [shape spec_len]. change 72 with (int_div 144 2).
    now rewrite !slice_len_144 by lia.
  - intros idx Hlen. rewrite Hsr in Hlen.
    destruct idx as [|t [|z [|x [|y [|]]]]]; try discriminate Hlen.
    rewrite Hir. cbn [item slice_src spec_start]. change 72 with (int_div 144 2).
    rewrite !slice_start_144 by lia. reflexivity.
Qed.


(** For a depth of 8 or more, [crop_img] and [crop_label] keep the 8
    slices from [depth / 2 - 4] on and the 144 x 144 window from
    [size / 2 - 72] on; nothing is padded. *)
Theorem crop_keeps_centre_window (v l : ndarray A) (T d X Y d' X' Y' : Z)
    (Hv : shape v = [T; d; X; Y]) (Hd : 8 <= d) (HX : 144 <= X) (HY : 144 <= Y)
    (Hl : shape l = [d'; X'; Y']) (Hd' : 8 <= d') (HX' : 144 <= X')
    (HY' : 144 <= Y') :
  (exists r, crop_img zero v = Ok r /\ shape r = [T; 8; 144; 144] /\
     forall t z x y,
       item r [t; z; x; y]
       = item v [t; d / 2 - 4 + z; X / 2 - 72 + x; Y / 2 - 72 + y]) /\
  (exists r, crop_label zero l = Ok r /\ shape r = [8; 144; 144] /\
     forall z x y,
       item r [z; x; y]
       = item l [d' / 2 - 4 + z; X' / 2 - 72 + x; Y' / 2 - 72 + y]).
Proof.
  split.
  - exact (crop_img_centre zero v T d X Y Hv Hd HX HY).
  - exact (crop_label_centre zero l d' X' Y' Hl Hd' HX' HY').
Qed.

(** Cropping a second time changes nothing, whatever the depth. *)
Theorem crop_idempotent (v l r rl : ndarray A) (T d X Y d' X' Y' : Z)
    (Hv : shape v = [T; d; X; Y]) (HX : 144 <= X) (HY : 144 <= Y)
    (Hl : shape l = [d'; X'; Y']) (HX' : 144 <= X') (HY' : 144 <= Y')
    (Hr : crop_img zero v = Ok r) (Hrl : crop_label zero l = Ok rl) :
  (exists r', crop_img zero r = Ok r' /\ array_eq r' r) /\
  (exists r', crop_label zero rl = Ok r' /\ array_eq r' rl).
Proof.
  split.
  - assert (Hsr : shape r = [T; 8; 144; 144]).
    { destruct (Z.lt_ge_cases d 8).
      - destruct (crop_img_pad zero v T d X Y) as (r0 & Hr0 & Hs & _); congruence.
      - destruct (crop_img_centre zero v T d X Y) as (r0 & Hr0 & Hs & _); congruence. }
    destruct (crop_img_centre zero r T 8 144 144 Hsr) as (r' & Hr' & Hs' & Hit);
      try lia.
    exists r'. split; [exact Hr'|]. split; [congruence|].
    intros idx Hlen. rewrite Hs' in Hlen.
    destruct idx as [|t [|z [|x [|y [|]]]]]; try discriminate Hlen.
    rewrite Hit. f_equal.
  - assert (Hsr : shape rl = [8; 144; 144]).
    { destruct (Z.lt_ge_cases d' 8).
      - destruct (crop_label_pad zero l d' X' Y') as (r0 & Hr0 & Hs & _); congruence.
      - destruct (crop_label_centre zero l d' X' Y') as (r0 & Hr0 & Hs & _); congruence. }
    destruct (crop_label_centre zero rl 8 144 144 Hsr) as (r' & Hr' & Hs' & Hit);
      try lia.
    exists r'. split; [exact Hr'|]. split; [congruence|].
    intros idx Hlen. rewrite Hs' in Hlen.
    destruct idx as [|z [|x [|y [|]]]]; try discriminate Hlen.
    rewrite Hit. f_equal.
Qed.

(** *** Axes shorter than 144 *)

(** What the window [n/2 - 72 : n/2 + 72] keeps of an axis of [n] < 144
    entries: a negative start counts from the end. *)
Lemma short_slice_len n :
  0 <= n < 144 ->
  slice_len n (int_div n 2 - int_div 144 2) (int_div n 2 + int_div 144 2)
  = if 48 <=? n then 72 - n / 2 else n.
Proof.
  intros Hn. change (int_div 144 2) with 72.
  unfold slice_len, clamp. rewrite int_div_nonneg by lia.
  case_ltb; Z.div_mod_to_equations; lia.
Qed.

Lemma short_slice_lt n :
  0 <= n < 144 ->
  slice_len n (int_div n 2 - int_div 144 2) (int_div n 2 + int_div 144 2) < 144.
Proof.
  intros Hn. rewrite short_slice_len by exact Hn.
  case_ltb; Z.div_mod_to_equations; lia.
Qed.

(** With a depth below 8, an axis shorter than 144 makes [crop_img] and
    [crop_label] raise: the zero block is always 144 x 144. *)
Theorem crop_short_axis_pad_raises (v l : ndarray A) (T d X Y d' X' Y' : Z)
    (Hv : shape v = [T; d; X; Y]) (Hd : d < 8) (HX : 0 <= X) (HY : 0 <= Y)
    (Hshort : X < 144 \/ Y < 144)
    (Hl : shape l = [d'; X'; Y']) (Hd' : d' < 8) (HX' : 0 <= X') (HY' : 0 <= Y')
    (Hshort' : X' < 144 \/ Y' < 144) :
  crop_img zero v = Raise ValueError /\ crop_label zero l = Raise ValueError.
Proof.
  split.
  - crop_unfold v Hv. destruct (Z.ltb_spec d 8); [|lia].
    unfold concatenate. cbn -[int_div slice_len Z.add Z.sub Z.ltb Z.div].
    rewrite Z.eqb_refl. rewrite bool_decide_eq_false_2; [reflexivity|].
    intros [= H1 H2]. destruct Hshort as [Hs|Hs].
    + pose proof (short_slice_lt X ltac:(lia)). lia.
    + pose proof (short_slice_lt Y ltac:(lia)). lia.
  - crop_unfold l Hl. destruct (Z.ltb_spec d' 8); [|lia].
    unfold concatenate. cbn -[int_div slice_len Z.add Z.sub Z.ltb Z.div].
    rewrite bool_decide_eq_false_2; [reflexivity|].
    intros [= H1 H2]. destruct Hshort' as [Hs|Hs].
    + pose proof (short_slice_lt X' ltac:(lia)). lia.
    + pose proof (short_slice_lt Y' ltac:(lia)). lia.
Qed.


(** *** Arrays of too small a rank *)

(** An array with fewer than 4 axes, for the image crops, or fewer than 3,
    for the label crops, makes the crop raise [IndexError]: a shape entry
    or an axis of the slice is missing. *)
Theorem crop_rank_too_small (v l : ndarray A)
    (Hv : (length (shape v) < 4)%nat) (Hl : (length (shape l) < 3)%nat) :
  crop_img zero v = Raise IndexError /\ crop_label zero l = Raise IndexError /\
  crop_img_paper zero v = Raise IndexError /\
  crop_label_paper zero l = Raise IndexError.
Proof.
  destruct v as [sh it], l as [shl itl]. cbn [shape] in *.
  unfold crop_img, crop_label, crop_img_paper, crop_label_paper. cbn [shape].
  repeat split.
  - destruct sh as [|a [|b [|c [|e sh]]]]; try reflexivity. cbn in Hv. lia.
  - destruct shl as [|a [|b [|c shl]]]; try reflexivity. cbn in Hl. lia.
  - destruct sh as [|a [|b [|c [|e sh]]]]; try reflexivity;
      [| | cbn in Hv; lia].
    + rewrite index_1. cbn [mbind result_bind].
      destruct (b <? 8); reflexivity.
    + rewrite index_1. cbn [mbind result_bind].
      destruct (b <? 8); reflexivity.
  - destruct shl as [|a [|b [|c shl]]]; try reflexivity; [| | cbn in Hl; lia].
    + rewrite index_0. cbn [mbind result_bind].
      destruct (a <? 8); reflexivity.
    + rewrite index_0. cbn [mbind result_bind].
      destruct (a <? 8); reflexivity.
Qed.

End Paper.
End CropFacts.

(** ** Numbers and text *)

Module StrFacts.
Import Py Str.
Local Open Scope Z_scope.

Lemma digit_char_spec d :
  0 <= d < 10 ->
  is_digit (digit_char d) = true /\ digit_val (digit_char d) = d /\
  is_space (digit_char d) = false.
Proof.
  intros Hd.
  assert (d = 0 \/ d = 1 \/ d = 2 \/ d = 3 \/ d = 4 \/ d = 5 \/ d = 6 \/ d = 7
          \/ d = 8 \/ d = 9) as H by lia.
  repeat (destruct H as [->|H]; [repeat split; reflexivity|]).
  subst d. repeat split; reflexivity.
Qed.

Lemma digits_of_S fuel n acc :
  digits_of (S fuel) n acc
  = if n <? 10 then String (digit_char (n mod 10)) acc
    else digits_of fuel (n / 10) (String (digit_char (n mod 10)) acc).
Proof. reflexivity. Qed.

(** Reading back the digits that [digits_of] writes in front of [acc]. *)
Lemma int_digits_digits_of fuel : forall n acc a b,
  0 <= n < 10 ^ Z.of_nat (S fuel) ->
  exists k, 0 <= k /\
    int_digits (digits_of (S fuel) n acc) a b
    = int_digits acc (a * 10 ^ k + n) true.
Proof.
  induction fuel as [|fuel IH]; intros n acc a b Hn.
  - change (10 ^ Z.of_nat 1) with 10 in Hn.
    cbn [digits_of]. destruct (Z.ltb_spec n 10); [|lia].
    rewrite Z.mod_small by lia.
    destruct (digit_char_spec n ltac:(lia)) as (Hd & Hv & _).
    cbn [int_digits]. rewrite Hd, Hv. exists 1. split; [lia|].
    f_equal. lia.
  - rewrite digits_of_S. destruct (Z.ltb_spec n 10).
    + rewrite Z.mod_small by lia.
      destruct (digit_char_spec n ltac:(lia)) as (Hd & Hv & _).
      cbn [int_digits]. rewrite Hd, Hv. exists 1. split; [lia|].
      f_equal. lia.
    + assert (Hq : 0 <= n / 10 < 10 ^ Z.of_nat (S fuel)).
      { split; [apply Z.div_pos; lia|].
        apply Z.div_lt_upper_bound; [lia|].
        replace (Z.of_nat (S (S fuel))) with (Z.succ (Z.of_nat (S fuel))) in Hn by lia.
        rewrite Z.pow_succ_r in Hn by lia. lia. }
      destruct (IH (n / 10) (String (digit_char (n mod 10)) acc) a b Hq)
        as (k & Hk & ->).
      destruct (digit_char_spec (n mod 10)) as (Hd & Hv & _);
        [apply Z.mod_pos_bound; lia|].
      cbn [int_digits]. rewrite Hd, Hv. exists (Z.succ k). split; [lia|].
      f_equal. rewrite Z.pow_succ_r by lia.
      pose proof (Z.div_mod n 10 ltac:(lia)). lia.
Qed.

Lemma digits_of_head fuel : forall n acc,
  0 <= n ->
  exists c rest, digits_of (S fuel) n acc = String c rest /\
    is_digit c = true /\ is_space c = false.
Proof.
  induction fuel as [|fuel IH]; intros n acc Hn; rewrite digits_of_S.
  - destruct (digit_char_spec (n mod 10)) as (Hd & _ & Hs);
      [apply Z.mod_pos_bound; lia|].
    destruct (n <? 10); cbn [digits_of]; eauto.
  - destruct (Z.ltb_spec n 10).
    + destruct (digit_char_spec (n mod 10)) as (Hd & _ & Hs);
        [apply Z.mod_pos_bound; lia|]. eauto.
    + apply IH. apply Z.div_pos; lia.
Qed.

Lemma fuel_enough n :
  0 <= n -> n < 10 ^ Z.of_nat (S (Z.to_nat (Z.log2 n))).
Proof.
  intros Hn. rewrite Nat2Z.inj_succ, Z2Nat.id by apply Z.log2_nonneg.
  destruct (Z.eq_dec n 0) as [->|Hne]; [reflexivity|].
  pose proof (Z.log2_spec n ltac:(lia)) as [_ Hlt].
  eapply Z.lt_le_trans; [exact Hlt|].
  apply Z.pow_le_mono_l. pose proof (Z.log2_nonneg n). lia.
Qed.

Lemma int_digit_start c s :
  is_digit c = true ->
  int (String c s) = of_option ValueError (int_digits (String c s) 0 false).
Proof.
  intros Hc. unfold int.
  destruct c as [[] [] [] [] [] [] [] []]; try discriminate Hc; reflexivity.
Qed.


Lemma int_of_str (n : Z) : int (str n) = Ok n.
Proof.
  unfold str. destruct (Z.ltb_spec n 0) as [Hneg|Hpos].
  - unfold int. cbn [lstrip]. change (is_space "-") with false. cbv iota.
    destruct (int_digits_digits_of (Z.to_nat (Z.log2 (- n))) (- n) EmptyString 0 false)
      as (k & _ & ->); [split; [lia|apply fuel_enough; lia]|].
    cbn. f_equal. lia.
  - destruct (digits_of_head (Z.to_nat (Z.log2 n)) n EmptyString Hpos)
      as (c & rest & Heq & Hc & _).
    rewrite Heq, (int_digit_start c rest Hc), <- Heq.
    destruct (int_digits_digits_of (Z.to_nat (Z.log2 n)) n EmptyString 0 false)
      as (k & _ & ->); [split; [lia|apply fuel_enough; lia]|].
    cbn. f_equal.
Qed.

(** [int(str(n))] is [n], for every integer. *)
Theorem int_str_round_trip (n : Z) : int (str n) = Ok n.
Proof. apply int_of_str. Qed.

Lemma string_length_append s1 s2 :
  String.length (s1 +:+ s2) = (String.length s1 + String.length s2)%nat.
Proof.
  induction s1 as [|c s1 IH]; [reflexivity|].
  change (String c s1 +:+ s2) with (String c (s1 +:+ s2)).
  cbn [String.length]. now rewrite IH.
Qed.

Lemma replicate_char_length n c : String.length (replicate_char n c) = n.
Proof. induction n; cbn; congruence. Qed.

Lemma zfill_len (width : nat) (s : string) :
  String.length (zfill width s) = Nat.max width (String.length s).
Proof.
  unfold zfill. destruct s as [|c s]; cbn [String.length].
  - rewrite replicate_char_length. lia.
  - destruct (Ascii.eqb c "+" || Ascii.eqb c "-")%bool; cbn [String.length].
    + rewrite string_length_append, replicate_char_length. cbn [String.length]. lia.
    + rewrite string_length_append, replicate_char_length. cbn [String.length]. lia.
Qed.

Lemma zfill_long (width : nat) (s : string) :
  (width <= String.length s)%nat -> zfill width s = s.
Proof.
  intros Hw. unfold zfill.
  replace (width - String.length s)%nat with 0%nat by lia. cbn [replicate_char].
  destruct s as [|c s]; [reflexivity|].
  destruct (Ascii.eqb c "+" || Ascii.eqb c "-")%bool; reflexivity.
Qed.

(** [zfill] pads up to the width and never shortens. *)
Theorem zfill_length (width : nat) (s : string) :
  String.length (zfill width s) = Nat.max width (String.length s) /\
  ((width <= String.length s)%nat -> zfill width s = s).
Proof. split; [apply zfill_len|apply zfill_long]. Qed.

End StrFacts.

(** ** Case numbers and frame numbers *)

Module NameFacts.
Import Py Np Trace Str Cardiac Inputs Texts MonadFacts CardiacFacts DatasetFacts
  StrFacts.
Local Open Scope Z_scope.

Lemma append_assoc (a b c : string) : (a +:+ b) +:+ c = a +:+ (b +:+ c).
Proof.
  induction a as [|x a IH]; [reflexivity|].
  change (String x a +:+ b) with (String x (a +:+ b)).
  change (String x (a +:+ b) +:+ c) with (String x ((a +:+ b) +:+ c)).
  change (String x a +:+ (b +:+ c)) with (String x (a +:+ (b +:+ c))).
  now rewrite IH.
Qed.

Lemma append_nil_r (a : string) : a +:+ EmptyString = a.
Proof.
  induction a as [|x a IH]; [reflexivity|].
  change (String x a +:+ EmptyString) with (String x (a +:+ EmptyString)).
  now rewrite IH.
Qed.

Lemma findall_digits_from_run run : forall cur post,
  all_digits run ->
  findall_digits_from cur (run +:+ post) = findall_digits_from (cur +:+ run) post.
Proof.
  induction run as [|c run IH]; intros cur post Hrun.
  - now rewrite append_nil_r.
  - destruct Hrun as [Hc Hrun].
    change (String c run +:+ post) with (String c (run +:+ post)).
    cbn [findall_digits_from]. rewrite Hc, IH by exact Hrun.
    now rewrite append_assoc.
Qed.

Lemma findall_digits_none s : no_digits s -> findall_digits s = [].
Proof.
  unfold findall_digits. induction s as [|c s IH]; [reflexivity|].
  intros [Hc Hs]. cbn [findall_digits_from]. rewrite Hc. cbn [flush app].
  now apply IH.
Qed.

(** The case number is the first run of digits, filled to three places
    and never cut. *)
Theorem ptnum_of_first_run (pre run post : string)
    (Hpre : no_digits pre) (Hrun : all_digits run) (Hne : run <> EmptyString)
    (Hpost : not_digit_start post) :
  ptnum_of (pre +:+ run +:+ post) = Ok (zfill 3 run) /\
  (3 <= String.length (zfill 3 run))%nat /\
  ((3 <= String.length run)%nat -> ptnum_of (pre +:+ run +:+ post) = Ok run).
Proof.
  assert (H : ptnum_of (pre +:+ run +:+ post) = Ok (zfill 3 run)).
  { unfold ptnum_of. rewrite findall_digits_skip by exact Hpre.
    unfold findall_digits. rewrite findall_digits_from_run by exact Hrun.
    change (EmptyString +:+ run) with run.
    destruct (findall_digits_run run post Hne Hpost) as (rest & ->).
    reflexivity. }
  split; [exact H|]. pose proof (zfill_len 3 run) as Hlen.
  split; [lia|]. intros Hlong. now rewrite H, zfill_long.
Qed.


(** *** Lines and fields *)

Lemma no_char_app c a b : no_char c a -> no_char c b -> no_char c (a +:+ b).
Proof.
  induction a as [|x a IH]; [auto|]. intros [Hx Ha] Hb.
  change (String x a +:+ b) with (String x (a +:+ b)). split; auto.
Qed.

Lemma split_cons sep c s :
  c <> sep ->
  exists h t, split sep s = h :: t /\ split sep (String c s) = String c h :: t.
Proof.
  intros Hc. cbn [split]. destruct (Ascii.eqb_spec c sep); [contradiction|].
  destruct s as [|c' s]; cbn [split].
  - eauto.
  - destruct (Ascii.eqb c' sep); [eauto|].
    destruct (split sep s); eauto.
Qed.

Lemma split_app sep a : forall s,
  no_char sep a ->
  exists h t, split sep s = h :: t /\ split sep (a +:+ s) = (a +:+ h) :: t.
Proof.
  induction a as [|c a IH]; intros s Ha.
  - change (EmptyString +:+ s) with s.
    destruct s as [|c s]; cbn [split]; [eauto|].
    destruct (Ascii.eqb c sep); [eauto|]. destruct (split sep s); eauto.
  - destruct Ha as [Hc Ha]. destruct (IH s Ha) as (h & t & Hs & Has).
    exists h, t. split; [exact Hs|].
    change (String c a +:+ s) with (String c (a +:+ s)).
    destruct (split_cons sep c (a +:+ s) Hc) as (h' & t' & H1 & H2).
    rewrite H2. rewrite Has in H1. now injection H1 as <- <-.
Qed.

Lemma split_none sep s : no_char sep s -> split sep s = [s].
Proof.
  intros Hs. destruct (split_app sep s EmptyString Hs) as (h & t & H1 & H2).
  cbn [split] in H1. injection H1 as <- <-. now rewrite !append_nil_r in H2.
Qed.

Lemma split_at sep a s :
  no_char sep a -> split sep (a +:+ String sep s) = a :: split sep s.
Proof.
  intros Ha. destruct (split_app sep a (String sep s) Ha) as (h & t & H1 & H2).
  cbn [split] in H1. rewrite Ascii.eqb_refl in H1. injection H1 as <- <-.
  now rewrite append_nil_r in H2.
Qed.

Lemma split_lines_no_char sep c s :
  no_char c s -> Forall (no_char c) (split sep s).
Proof.
  induction s as [|x s IH]; intros Hs; cbn [split].
  - repeat constructor.
  - destruct Hs as [Hx Hs]. specialize (IH Hs).
    destruct (Ascii.eqb x sep).
    + constructor; [exact I|exact IH].
    + destruct (split sep s) as [|h t]; [repeat constructor; auto|].
      inversion IH; subst. constructor; [split; assumption|assumption].
Qed.

Lemma index_In {A} (l : list A) i x : index l i = Ok x -> In x l.
Proof.
  unfold index. intros H.
  assert (Hl : exists k, l !! k = Some x).
  { destruct (i <? 0); [destruct (0 <=? _); [|discriminate]|];
      match type of H with
      | of_option _ (l !! ?k) = _ => exists k; destruct (l !! k); [|discriminate]
      end; now injection H as ->. }
  destruct Hl as (k & Hk). apply list_elem_of_In. eapply list_elem_of_lookup_2.
  exact Hk.
Qed.

Lemma digits_of_no_char c fuel : forall n acc,
  is_digit c = false -> no_char c acc -> no_char c (digits_of fuel n acc).
Proof.
  induction fuel as [|fuel IH]; intros n acc Hc Hacc; [exact Hacc|].
  rewrite digits_of_S.
  assert (Hd : no_char c (String (digit_char (n mod 10)) acc)).
  { split; [|exact Hacc]. intros <-.
    destruct (digit_char_spec (n mod 10)) as (Hd & _); [apply Z.mod_pos_bound; lia|].
    congruence. }
  destruct (n <? 10); [exact Hd|]. now apply IH.
Qed.

Lemma str_no_char c n : is_digit c = false -> c <> "-"%char -> no_char c (str n).
Proof.
  intros Hc Hm. unfold str. destruct (n <? 0).
  - split; [congruence|]. now apply digits_of_no_char.
  - now apply digits_of_no_char.
Qed.

Lemma blanks_no_char c k : c <> " "%char -> no_char c (blanks k).
Proof. intros Hc. induction k; cbn; [exact I|]. split; [congruence|exact IHk]. Qed.

Lemma int_blanks k s : int (blanks k +:+ s) = int s.
Proof.
  unfold int. replace (lstrip (blanks k +:+ s)) with (lstrip s); [reflexivity|].
  induction k as [|k IH]; [reflexivity|].
  change (blanks (S k) +:+ s) with (String " " (blanks k +:+ s)).
  cbn [lstrip]. change (is_space " ") with true. cbv iota. exact IH.
Qed.

(** The value after the colon, for every integer and any number of
    blanks in front of it. *)
Lemma field_value key k n :
  no_char ":" key ->
  (l ← index (split ":" (info_line key k n)) 1; int l) = Ok n.
Proof.
  intros Hkey. unfold info_line. rewrite split_at by exact Hkey.
  rewrite split_none.
  - rewrite index_1. cbn [mbind result_bind]. rewrite int_blanks.
    apply int_of_str.
  - apply no_char_app; [apply blanks_no_char; discriminate|].
    apply str_no_char; [reflexivity|discriminate].
Qed.

Lemma info_line_one_line key k n : no_char nl key -> no_char nl (info_line key k n).
Proof.
  intros Hk. apply no_char_app; [exact Hk|]. split; [discriminate|].
  apply no_char_app; [apply blanks_no_char; discriminate|].
  apply str_no_char; [reflexivity|discriminate].
Qed.

(** Reading [Info.cfg] gives back the frame numbers that were written,
    whatever follows the second line. *)
Theorem frame_of_info_lines (k1 k2 : nat) (ed es : Z) (rest : string)
    (Hrest : line_end rest) :
  frame_of (info_lines k1 k2 ed es rest) 0 = Ok ed /\
  frame_of (info_lines k1 k2 ed es rest) 1 = Ok es.
Proof.
  assert (Hsplit : exists tail,
            split nl (info_lines k1 k2 ed es rest)
            = info_line "ED" k1 ed :: info_line "ES" k2 es :: tail).
  { unfold info_lines.
    rewrite split_at by (apply info_line_one_line; repeat split; discriminate).
    destruct rest as [|c rest].
    - rewrite append_nil_r, split_none
        by (apply info_line_one_line; repeat split; discriminate).
      eauto.
    - cbn [line_end] in Hrest. subst c.
      rewrite split_at by (apply info_line_one_line; repeat split; discriminate).
      eauto. }
  destruct Hsplit as (tail & Hsplit). unfold frame_of. rewrite Hsplit.
  rewrite index_0, index_1. cbn [mbind result_bind].
  split; apply field_value; repeat split; discriminate.
Qed.

(** A configuration without a colon, or without a second line, makes the
    lookup of a frame number raise [IndexError]. *)
Theorem frame_of_malformed (content : string) :
  (no_char ":" content -> forall line, frame_of content line = Raise IndexError) /\
  (no_char nl content -> frame_of content 1 = Raise IndexError).
Proof.
  split.
  - intros Hc line. unfold frame_of.
    destruct (index (split nl content) line) as [l|e] eqn:Hl.
    + apply index_In in Hl.
      pose proof (split_lines_no_char nl ":" content Hc) as Hall.
      rewrite Forall_forall in Hall.
      apply list_elem_of_In, Hall in Hl.
      cbn [mbind result_bind]. now rewrite split_none by exact Hl.
    + cbn [mbind result_bind].
      unfold index in Hl.
      destruct (line <? 0); [destruct (0 <=? _)|];
        try destruct (_ !! _); cbn [of_option] in Hl;
        try discriminate Hl; now injection Hl as <-.
  - intros Hc. unfold frame_of. now rewrite split_none by exact Hc.
Qed.

End NameFacts.

(** ** More on the dataset adapter *)

Module AdapterFacts.
Import Py Np Trace Str Cardiac Inputs Texts MonadFacts CardiacFacts DatasetFacts
  StrFacts NameFacts.
Local Open Scope Z_scope.

Section Adapter.
Context {A : Type}.
Variable zero : A.
Variable np_mean np_std : ndarray A -> A.
Variable sub div : A -> A -> A.
Variable to_float32 to_long : A -> A.
Variable ReadImage : string -> result (ndarray A).
Variable read_text : string -> result string.

Abbreviation init_ := (__init__ zero np_mean np_std sub div to_float32 ReadImage read_text).
Abbreviation getitem_ := (__getitem__ to_float32 to_long).

(** Construction stops at the first failure: a folder name without a
    digit opens no file, an unreadable volume leaves one file opened, an
    unreadable configuration two. *)
Theorem init_stops_at_first_failure (folder_name : string) :
  (no_digits folder_name -> init_ folder_name = ([], Raise IndexError)) /\
  (forall ptnum e,
     ptnum_of folder_name = Ok ptnum ->
     ReadImage (patient_dir ptnum +:+ "/patient" +:+ ptnum +:+ "_4d.nii.gz")
     = Raise e ->
     init_ folder_name
     = ([patient_dir ptnum +:+ "/patient" +:+ ptnum +:+ "_4d.nii.gz"], Raise e)) /\
  (forall ptnum v v' e,
     ptnum_of folder_name = Ok ptnum ->
     ReadImage (patient_dir ptnum +:+ "/patient" +:+ ptnum +:+ "_4d.nii.gz")
     = Ok v ->
     crop_img zero v = Ok v' ->
     read_text (patient_dir ptnum +:+ "/" +:+ "Info.cfg") = Raise e ->
     init_ folder_name
     = ([patient_dir ptnum +:+ "/patient" +:+ ptnum +:+ "_4d.nii.gz";
         patient_dir ptnum +:+ "/" +:+ "Info.cfg"], Raise e)).
Proof.
  split; [|split].
  - intros Hnone. unfold __init__, ptnum_of.
    now rewrite findall_digits_none by exact Hnone.
  - intros ptnum e Hpt Hv. unfold __init__. rewrite Hpt.
    cbn [lift mbind traced_bind]. unfold sitk_read, emit, lift.
    cbn [mbind traced_bind]. rewrite Hv. reflexivity.
  - intros ptnum v v' e Hpt Hv Hv' Hc. unfold __init__. rewrite Hpt.
    cbn [lift mbind traced_bind]. unfold sitk_read, open_read, emit, lift.
    cbn [mbind traced_bind]. rewrite Hv. cbn [mbind traced_bind]. rewrite Hv'.
    cbn [mbind traced_bind]. rewrite Hc. reflexivity.
Qed.

(** A constructed dataset has one example: index 0 and index -1 give it,
    every other index raises [IndexError]. *)
Theorem constructed_has_one_example (folder_name : string) (self : cardiacdata)
    (Hinit : outcome (init_ folder_name) = Ok self) :
  __len__ self = 1 /\
  (exists r, getitem_ self 0 = Ok r) /\
  getitem_ self (-1) = getitem_ self 0 /\
  (forall i, i <> 0 -> i <> -1 -> getitem_ self i = Raise IndexError).
Proof.
  destruct (init_ok zero np_mean np_std sub div to_float32 ReadImage read_text
              folder_name self Hinit)
    as (ptnum & v & v' & content & es & es_label & es_label' & ed & ed_label
        & ed_label' & a & b & c & gt0 & img2 & gt2 & _ & _ & _ & _ & _ & _ & _
        & _ & _ & _ & _ & _ & _ & _ & _ & _ & Himg & Hgt & Hlen).
  split; [exact Hlen|]. unfold __getitem__, getitem. rewrite Himg, Hgt.
  cbn [shape expand_dims0]. split; [|split].
  - eexists. reflexivity.
  - reflexivity.
  - intros i Hi0 Hi1.
    destruct (Z.ltb_spec i 0).
    + destruct (Z.leb_spec 0 (1 + i)); [lia|]. reflexivity.
    + destruct (Z.leb_spec 0 i); [|lia]. destruct (Z.ltb_spec i 1); [lia|].
      reflexivity.
Qed.

(** *** Where the two phases end up *)

Lemma concatenate_inv (a b r : ndarray A) axis :
  concatenate a b axis = Ok r ->
  r = {| shape := <[axis := default 0 (shape a !! axis)
                            + default 0 (shape b !! axis)]> (shape a);
         item := fun idx =>
           let i := default 0 (idx !! axis) in
           if i <? default 0 (shape a !! axis) then item a idx
           else item b (<[axis := i - default 0 (shape a !! axis)]> idx) |}.
Proof.
  unfold concatenate. destruct (same_except _ _ _); [|discriminate].
  now intros [= <-].
Qed.

Lemma merge_leading_inv (v r : ndarray A) a b c d :
  shape v = [a; b; c; d] -> merge_leading v = Ok r ->
  r = {| shape := [a * b; c; d];
         item := fun idx => item v (unravel [a; b; c; d] (ravel [a * b; c; d] idx)) |}.
Proof.
  intros Hsh. unfold merge_leading. rewrite Hsh.
  rewrite index_0, index_1, index_2, index_3. cbn -[Z.mul ravel unravel].
  unfold reshape. case_match; [|discriminate]. rewrite Hsh. now intros [= <-].
Qed.

Lemma div_mod_unique a b q r :
  0 <= r < b -> a = q * b + r -> a / b = q /\ a mod b = r.
Proof.
  intros Hr ->. split.
  - symmetry. apply (Z.div_unique _ b q r); lia.
  - symmetry. apply (Z.mod_unique _ b q r); lia.
Qed.

Lemma unravel_two_phases k x y :
  0 <= k < 16 -> 0 <= x < 144 -> 0 <= y < 144 ->
  unravel [2; 8; 144; 144] (ravel [2 * 8; 144; 144] [k; x; y])
  = [k / 8; k mod 8; x; y].
Proof.
  intros Hk Hx Hy.
  assert (Hrav : ravel [2 * 8; 144; 144] [k; x; y] = k * 20736 + (x * 144 + y))
    by (unfold ravel, size_of, fold_right; lia).
  rewrite Hrav. clear Hrav.
  pose proof (Z.div_mod k 8 ltac:(lia)) as Hk8.
  pose proof (Z.mod_pos_bound k 8 ltac:(lia)) as Hk8'.
  destruct (div_mod_unique (k * 20736 + (x * 144 + y)) 165888 (k / 8)
              (k mod 8 * 20736 + (x * 144 + y))) as [E1 E2]; [lia|lia|].
  destruct (div_mod_unique (k mod 8 * 20736 + (x * 144 + y)) 20736 (k mod 8)
              (x * 144 + y)) as [E3 E4]; [lia|lia|].
  destruct (div_mod_unique (x * 144 + y) 144 x y) as [E5 E6]; [lia|lia|].
  unfold unravel.
  change (size_of [8; 144; 144]) with 165888.
  change (size_of [144; 144]) with 20736.
  change (size_of [144]) with 144. change (size_of []) with 1.
  rewrite E1, E2, E3, E4, E5, E6, Z.div_1_r. reflexivity.
Qed.

Lemma getslice_frame_item (a r : ndarray A) T e rest z x y :
  shape a = T :: rest -> 1 <= e <= T ->
  getslice a [Range (e - 1) e] = Ok r ->
  item r [0; z; x; y] = item a [e - 1; z; x; y].
Proof.
  intros Hsh He. unfold getslice. rewrite Hsh. cbn -[Z.add Z.sub].
  intros [= <-]. cbn -[Z.add Z.sub]. do 2 f_equal.
  unfold slice_start, clamp. case_ltb; lia.
Qed.

(** The label returned by [__getitem__(0)] holds the 8 cropped
    end-diastole slices first and the 8 end-systole slices after them,
    although the end-systole file is read first. *)
Theorem labels_ed_then_es (folder_name : string) (self : cardiacdata)
    (Hinit : outcome (init_ folder_name) = Ok self) :
  exists ptnum content ed es ed_label es_label ed' es',
    ptnum_of folder_name = Ok ptnum /\
    read_text (patient_dir ptnum +:+ "/" +:+ "Info.cfg") = Ok content /\
    frame_of content 0 = Ok ed /\ frame_of content 1 = Ok es /\
    ReadImage (gt_dir ptnum ed) = Ok ed_label /\
    ReadImage (gt_dir ptnum es) = Ok es_label /\
    crop_label zero ed_label = Ok ed' /\ crop_label zero es_label = Ok es' /\
    (shape ed' = [8; 144; 144] -> shape es' = [8; 144; 144] ->
     exists im g, getitem_ self 0 = Ok (im, g) /\
       forall k x y, 0 <= k < 8 -> 0 <= x < 144 -> 0 <= y < 144 ->
         item g [k; x; y] = to_long (to_float32 (item ed' [k; x; y])) /\
         item g [8 + k; x; y] = to_long (to_float32 (item es' [k; x; y]))).
Proof.
  destruct (init_ok zero np_mean np_std sub div to_float32 ReadImage read_text
              folder_name self Hinit)
    as (ptnum & v & v' & content & es & es_label & es_label' & ed & ed_label
        & ed_label' & a & b & c & gt0 & img2 & gt2 & Hpt & Hv & Hv' & Hc & Hes
        & Hesl & Hesl' & Hed & Hedl & Hedl' & Ha & Hb & Hcat & Hgt0 & Himg2
        & Hgt2 & Himg & Hgt & Hlen).
  exists ptnum, content, ed, es, ed_label, es_label, ed_label', es_label'.
  do 8 (split; [assumption|]).
  intros Hsed Hses.
  apply concatenate_inv in Hgt0. cbn [shape expand_dims0] in Hgt0.
  rewrite Hsed, Hses in Hgt0. cbn -[Z.ltb Z.sub] in Hgt0.
  apply (merge_leading_inv _ _ 2 8 144 144) in Hgt2; [|now rewrite Hgt0].
  unfold __getitem__, getitem. rewrite Himg, Hgt. cbn [shape expand_dims0].
  cbn [Z.ltb Z.leb Z.compare andb mbind result_bind].
  eexists. eexists. split; [reflexivity|].
  intros k x y Hk Hx Hy. cbn [item map_array expand_dims0 tail].
  rewrite Hgt2. cbn [item].
  rewrite !unravel_two_phases by lia.
  replace (k / 8) with 0 by (Z.div_mod_to_equations; lia).
  replace (k mod 8) with k by (Z.div_mod_to_equations; lia).
  replace ((8 + k) / 8) with 1 by (Z.div_mod_to_equations; lia).
  replace ((8 + k) mod 8) with k by (Z.div_mod_to_equations; lia).
  rewrite Hgt0. cbn [item expand_dims0 tail]. split; reflexivity.
Qed.


(** The image returned by [__getitem__(0)] holds the end-diastole frame
    in slices 0 to 7 and the end-systole frame in slices 8 to 15.  Both
    are normalized with one mean and one deviation: the mean of the
    [float32] cast of the two frames concatenated, and the deviation of
    that array after the mean is subtracted. *)
Theorem image_ed_then_es (folder_name : string) (self : cardiacdata)
    (Hinit : outcome (init_ folder_name) = Ok self) :
  exists ptnum content ed es v v',
    ptnum_of folder_name = Ok ptnum /\
    ReadImage (patient_dir ptnum +:+ "/patient" +:+ ptnum +:+ "_4d.nii.gz") = Ok v /\
    read_text (patient_dir ptnum +:+ "/" +:+ "Info.cfg") = Ok content /\
    frame_of content 0 = Ok ed /\ frame_of content 1 = Ok es /\
    crop_img zero v = Ok v' /\
    forall T, shape v' = [T; 8; 144; 144] -> 1 <= ed <= T -> 1 <= es <= T ->
      exists a b c im g,
        getslice v' [Range (ed - 1) ed] = Ok a /\
        getslice v' [Range (es - 1) es] = Ok b /\
        concatenate a b 0 = Ok c /\
        shape c = [2; 8; 144; 144] /\
        getitem_ self 0 = Ok (im, g) /\
        let f := map_array to_float32 c in
        let m := np_mean f in
        let s := np_std (map_array (fun e => sub e m) f) in
        forall k x y, 0 <= k < 8 -> 0 <= x < 144 -> 0 <= y < 144 ->
          item im [0; k; x; y]
          = to_float32 (div (sub (to_float32 (item v' [ed - 1; k; x; y])) m) s) /\
          item im [0; 8 + k; x; y]
          = to_float32 (div (sub (to_float32 (item v' [es - 1; k; x; y])) m) s).
Proof.
  destruct (init_ok zero np_mean np_std sub div to_float32 ReadImage read_text
              folder_name self Hinit)
    as (ptnum & v & v' & content & es & es_label & es_label' & ed & ed_label
        & ed_label' & a & b & c & gt0 & img2 & gt2 & Hpt & Hv & Hv' & Hc & Hes
        & Hesl & Hesl' & Hed & Hedl & Hedl' & Ha & Hb & Hcat & Hgt0 & Himg2
        & Hgt2 & Himg & Hgt & Hlen).
  exists ptnum, content, ed, es, v, v'.
  do 6 (split; [assumption|]).
  intros T Hsv' Hedr Hesr.
  exists a, b, c. eexists. eexists. do 3 (split; [assumption|]).
  pose proof (getslice_frame_shape _ _ _ _ _ Hsv' Hedr Ha) as Hsa.
  pose proof (getslice_frame_shape _ _ _ _ _ Hsv' Hesr Hb) as Hsb.
  pose proof (fun z x y => getslice_frame_item _ _ _ _ _ z x y Hsv' Hedr Ha) as Hia.
  pose proof (fun z x y => getslice_frame_item _ _ _ _ _ z x y Hsv' Hesr Hb) as Hib.
  apply concatenate_inv in Hcat. rewrite Hsa, Hsb in Hcat.
  cbn -[Z.ltb Z.sub] in Hcat.
  assert (Hsc : shape c = [2; 8; 144; 144]) by now rewrite Hcat.
  apply (merge_leading_inv _ _ 2 8 144 144) in Himg2; [|exact Hsc].
  unfold __getitem__, getitem. rewrite Himg, Hgt. cbn [shape expand_dims0].
  cbn [Z.ltb Z.leb Z.compare andb mbind result_bind].
  split; [exact Hsc|]. split; [reflexivity|].
  intros k x y Hk Hx Hy. cbn [item map_array expand_dims0 tail].
  rewrite Himg2. cbn [item normalize_img map_array].
  rewrite !unravel_two_phases by lia.
  replace (k / 8) with 0 by (Z.div_mod_to_equations; lia).
  replace (k mod 8) with k by (Z.div_mod_to_equations; lia).
  replace ((8 + k) / 8) with 1 by (Z.div_mod_to_equations; lia).
  replace ((8 + k) mod 8) with k by (Z.div_mod_to_equations; lia).
  assert (Hc0 : forall z, item c [0; z; x; y] = item v' [ed - 1; z; x; y]).
  { intros z. rewrite Hcat. cbn [item]. now rewrite <- Hia. }
  assert (Hc1 : forall z, item c [1; z; x; y] = item v' [es - 1; z; x; y]).
  { intros z. rewrite Hcat. cbn [item]. now rewrite <- Hib. }
  rewrite Hc0, Hc1. split; reflexivity.
Qed.

End Adapter.
End AdapterFacts.

(** ** Shapes through the blocks *)

Module ShapeFacts.
Import Py Trace Torch ELUNet InitLoops MonadFacts TorchFacts BlockFacts InitFacts
  ForwardFacts.
Local Open Scope Z_scope.

Lemma conv3x3_same_size n : 1 <= n -> window_out 3 1 1 n = Ok n.
Proof.
  intros Hn. unfold window_out.
  destruct (Z.leb_spec 3 (n + 2 * 1)); [|lia]. cbn [andb Z.ltb Z.compare].
  f_equal. rewrite Z.div_1_r. lia.
Qed.

Lemma conv1x1_same_size n : 1 <= n -> window_out 1 1 0 n = Ok n.
Proof.
  intros Hn. unfold window_out.
  destruct (Z.leb_spec 1 (n + 2 * 0)); [|lia]. cbn [andb Z.ltb Z.compare].
  f_equal. rewrite Z.div_1_r. lia.
Qed.

Lemma pool_halves n :
  window_out 2 2 0 n = if 2 <=? n then Ok (n / 2) else Raise RuntimeError.
Proof.
  unfold window_out. replace (n + 2 * 0) with n by lia.
  destruct (Z.leb_spec 2 n); cbn [andb Z.ltb Z.compare]; [|reflexivity].
  f_equal. Z.div_mod_to_equations; lia.
Qed.

(** A 3x3x3 convolution of [conv3x3] keeps the sizes of a batched
    tensor. *)
Lemma conv3x3_forward n c d h w v o :
  1 <= d -> 1 <= h -> 1 <= w ->
  Conv3d_forward (conv3x3 c o 1 1 true) {| shape := [n; c; d; h; w]; val := v |}
  = Ok {| shape := [n; o; d; h; w]; val := VConv3d (conv3x3 c o 1 1 true) v |}.
Proof.
  intros Hd Hh Hw. unfold Conv3d_forward. cbn [shape as_volume mbind result_bind].
  cbn [conv3x3 in_channels kernel_size stride padding out_channels].
  rewrite Z.eqb_refl. cbn [map_result].
  rewrite !conv3x3_same_size by assumption. reflexivity.
Qed.

Lemma conv1x1_forward n c d h w v o :
  1 <= d -> 1 <= h -> 1 <= w ->
  Conv3d_forward (conv1x1 c o) {| shape := [n; c; d; h; w]; val := v |}
  = Ok {| shape := [n; o; d; h; w]; val := VConv3d (conv1x1 c o) v |}.
Proof.
  intros Hd Hh Hw. unfold Conv3d_forward. cbn [shape as_volume mbind result_bind].
  cbn [conv1x1 in_channels kernel_size stride padding out_channels].
  rewrite Z.eqb_refl. cbn [map_result].
  rewrite !conv1x1_same_size by assumption. reflexivity.
Qed.

(** *** DsBlock *)

Lemma DsBlock_forward_unpooled i o n d h w v :
  1 <= d -> 1 <= h -> 1 <= w ->
  exists out,
    DsBlock_forward (DsBlock_init i o false) {| shape := [n; i; d; h; w]; val := v |}
    = Ok (out, out) /\
    shape out = [n; o; d; h; w].
Proof.
  intros Hd Hh Hw. unfold DsBlock_forward, DsBlock_init. cbn [ds_conv ds_pooling].
  rewrite conv3x3_forward by assumption. cbn [mbind result_bind mret result_ret].
  eexists. split; reflexivity.
Qed.

Lemma DsBlock_forward_pooled i o n d h w v :
  2 <= d -> 2 <= h -> 2 <= w ->
  exists out before_pool,
    DsBlock_forward (DsBlock_init i o true) {| shape := [n; i; d; h; w]; val := v |}
    = Ok (out, before_pool) /\
    shape out = [n; o; d / 2; h / 2; w / 2] /\
    shape before_pool = [n; o; d; h; w].
Proof.
  intros Hd Hh Hw. unfold DsBlock_forward, DsBlock_init.
  cbn [ds_conv ds_pooling ds_mp].
  rewrite conv3x3_forward by lia. cbn [mbind result_bind mret result_ret of_option].
  unfold MaxPool3d_forward.
  cbn [shape ReLU_forward as_volume mbind result_bind map_result
       mp_kernel_size mp_stride mp_padding].
  rewrite !pool_halves.
  destruct (Z.leb_spec 2 d); [|lia]. destruct (Z.leb_spec 2 h); [|lia].
  destruct (Z.leb_spec 2 w); [|lia]. cbn [mbind result_bind].
  destruct (Z.leb_spec 1 (d / 2)); [|Z.div_mod_to_equations; lia].
  destruct (Z.leb_spec 1 (h / 2)); [|Z.div_mod_to_equations; lia].
  destruct (Z.leb_spec 1 (w / 2)); [|Z.div_mod_to_equations; lia].
  cbn [mbind result_bind mret result_ret app].
  eexists. eexists. split; [reflexivity|]. split; reflexivity.
Qed.

Lemma DsBlock_forward_too_small i o n d h w v :
  1 <= d -> 1 <= h -> 1 <= w -> d = 1 \/ h = 1 \/ w = 1 ->
  DsBlock_forward (DsBlock_init i o true) {| shape := [n; i; d; h; w]; val := v |}
  = Raise RuntimeError.
Proof.
  intros Hd Hh Hw Hone. unfold DsBlock_forward, DsBlock_init.
  cbn [ds_conv ds_pooling ds_mp].
  rewrite conv3x3_forward by lia. cbn [mbind result_bind mret result_ret of_option].
  unfold MaxPool3d_forward.
  cbn [shape ReLU_forward as_volume mbind result_bind map_result
       mp_kernel_size mp_stride mp_padding].
  rewrite !pool_halves.
  destruct (Z.leb_spec 2 d); cbn [mbind result_bind]; [|reflexivity].
  destruct (Z.leb_spec 1 (d / 2)); [|Z.div_mod_to_equations; lia].
  cbn [mbind result_bind].
  destruct (Z.leb_spec 2 h); cbn [mbind result_bind]; [|reflexivity].
  destruct (Z.leb_spec 1 (h / 2)); [|Z.div_mod_to_equations; lia].
  cbn [mbind result_bind].
  destruct (Z.leb_spec 2 w); cbn [mbind result_bind]; [lia|reflexivity].
Qed.

(** An encoder stage on a batched tensor of [in_channels] channels:
    without pooling it returns one tensor twice; with pooling it halves
    every spatial size, rounding down, and keeps the sizes of
    [before_pool]; a size of 1 cannot be pooled. *)
Theorem DsBlock_forward_shapes (in_channels out_channels n d h w : Z) (v : value)
    (Hin : 1 <= in_channels) (Hout : 1 <= out_channels) (Hn : 1 <= n)
    (Hd : 1 <= d) (Hh : 1 <= h) (Hw : 1 <= w) :
  let x := {| shape := [n; in_channels; d; h; w]; val := v |} in
  (exists out,
     DsBlock_forward (DsBlock_init in_channels out_channels false) x = Ok (out, out) /\
     shape out = [n; out_channels; d; h; w]) /\
  (2 <= d -> 2 <= h -> 2 <= w ->
   exists out before_pool,
     DsBlock_forward (DsBlock_init in_channels out_channels true) x
     = Ok (out, before_pool) /\
     shape out = [n; out_channels; d / 2; h / 2; w / 2] /\
     shape before_pool = [n; out_channels; d; h; w]) /\
  (d = 1 \/ h = 1 \/ w = 1 ->
   DsBlock_forward (DsBlock_init in_channels out_channels true) x
   = Raise RuntimeError).
Proof.
  intros x. split; [|split].
  - now apply DsBlock_forward_unpooled.
  - intros. now apply DsBlock_forward_pooled.
  - intros. now apply DsBlock_forward_too_small.
Qed.

(** *** upconv2x2 *)

Lemma transpose_doubles n : 1 <= n -> transpose_out 2 2 n = Ok (2 * n).
Proof.
  intros Hn. unfold transpose_out. destruct (Z.leb_spec 1 n); [|lia].
  f_equal. lia.
Qed.

Lemma upconv2x2_forward_batched i o mode n d h w v :
  1 <= i -> 1 <= d -> 1 <= h -> 1 <= w ->
  exists v',
    upconv_forward (upconv2x2 i o mode) {| shape := [n; i; d; h; w]; val := v |}
    = Ok {| shape := [n; o; 2 * d; 2 * h; 2 * w]; val := v' |}.
Proof.
  intros Hi Hd Hh Hw. unfold upconv2x2.
  destruct (String.eqb mode "transpose"); cbn [upconv_forward].
  - unfold ConvTranspose3d_forward.
    cbn [shape as_volume mbind result_bind ct_in_channels ct_out_channels
         ct_kernel_size ct_stride map_result].
    rewrite Z.eqb_refl, !transpose_doubles by assumption.
    destruct (Z.leb_spec 1 i); [|lia]. cbn [andb].
    eexists. reflexivity.
  - unfold Upsample_forward. cbn [shape forallb scale_factor val].
    destruct (Z.leb_spec 1 d); [|lia]. destruct (Z.leb_spec 1 h); [|lia].
    destruct (Z.leb_spec 1 w); [|lia]. cbn [andb mbind result_bind].
    rewrite conv1x1_forward by lia.
    rewrite (Z.mul_comm d), (Z.mul_comm h), (Z.mul_comm w).
    eexists. reflexivity.
Qed.

(** On a batched tensor both kinds of [upconv2x2] double every spatial
    size and give [out_channels] channels.  On an unbatched tensor only
    the transpose convolution does: the trilinear branch raises
    [NotImplementedError]. *)
Theorem upconv2x2_doubles (in_channels out_channels : Z) (mode : string)
    (n d h w : Z) (v : value)
    (Hin : 1 <= in_channels) (Hout : 1 <= out_channels) (Hn : 1 <= n)
    (Hd : 1 <= d) (Hh : 1 <= h) (Hw : 1 <= w) :
  (exists u,
     upconv_forward (upconv2x2 in_channels out_channels mode)
       {| shape := [n; in_channels; d; h; w]; val := v |} = Ok u /\
     shape u = [n; out_channels; 2 * d; 2 * h; 2 * w]) /\
  (mode = "transpose" ->
   exists u,
     upconv_forward (upconv2x2 in_channels out_channels mode)
       {| shape := [in_channels; d; h; w]; val := v |} = Ok u /\
     shape u = [out_channels; 2 * d; 2 * h; 2 * w]) /\
  (mode <> "transpose" ->
   upconv_forward (upconv2x2 in_channels out_channels mode)
     {| shape := [in_channels; d; h; w]; val := v |} = Raise NotImplementedError).
Proof.
  split; [|split].
  - destruct (upconv2x2_forward_batched in_channels out_channels mode n d h w v)
      as (v' & Hu); try assumption.
    eexists. split; [exact Hu|reflexivity].
  - intros ->. unfold upconv2x2. rewrite String.eqb_refl.
    cbn [upconv_forward]. unfold ConvTranspose3d_forward.
    cbn [shape as_volume mbind result_bind ct_in_channels ct_out_channels
         ct_kernel_size ct_stride map_result].
    rewrite Z.eqb_refl, !transpose_doubles by assumption.
    destruct (Z.leb_spec 1 in_channels); [|lia]. cbn [andb].
    eexists. split; reflexivity.
  - intros Hmode. unfold upconv2x2.
    destruct (String.eqb_spec mode "transpose"); [contradiction|].
    reflexivity.
Qed.

(** *** UsBlockRes *)

Lemma cat1_same n c c' sp v v' :
  cat1 {| shape := n :: c :: sp; val := v |} {| shape := n :: c' :: sp; val := v' |}
  = Ok {| shape := n :: (c + c') :: sp; val := VCat v v' |}.
Proof.
  unfold cat1. cbn [shape val]. rewrite Z.eqb_refl.
  rewrite bool_decide_eq_true_2 by reflexivity. reflexivity.
Qed.

(** On its own a residual decoder block accepts a batched input of
    [in_channels] channels and a skip tensor of [out_channels] channels of
    any spatial size: it returns [out_channels] channels at twice the
    input's size, and resamples the skip tensor exactly when its size is
    not already that. *)
Theorem UsBlockRes_forward_shapes (in_channels out_channels : Z) (up_mode : string)
    (n d h w d' h' w' : Z) (v v' : value)
    (Hin : 1 <= in_channels) (Hout : 1 <= out_channels) (Hn : 1 <= n)
    (Hd : 1 <= d) (Hh : 1 <= h) (Hw : 1 <= w)
    (Hd' : 1 <= d') (Hh' : 1 <= h') (Hw' : 1 <= w') :
  let self := UsBlockRes_init in_channels out_channels up_mode in
  let x := {| shape := [n; in_channels; d; h; w]; val := v |} in
  let before_pool := {| shape := [n; out_channels; d'; h'; w']; val := v' |} in
  (exists y, outcome (UsBlockRes_forward self before_pool x) = Ok y /\
     shape y = [n; out_channels; 2 * d; 2 * h; 2 * w]) /\
  events (UsBlockRes_forward self before_pool x)
  = if bool_decide ([d'; h'; w'] = [2 * d; 2 * h; 2 * w]) then []
    else [Interpolate before_pool [2 * d; 2 * h; 2 * w]].
Proof.
  intros self x before_pool. unfold UsBlockRes_forward, self, UsBlockRes_init.
  cbn [res_upconv res_conv].
  destruct (upconv2x2_forward_batched in_channels out_channels up_mode n d h w v)
    as (vu & Hu); try assumption.
  unfold x. rewrite Hu. cbn [lift mbind traced_bind app spatial shape drop].
  unfold match_size, before_pool. cbn [spatial shape drop].
  destruct (decide ([d'; h'; w'] = [2 * d; 2 * h; 2 * w])) as [Heq|Hne].
  - rewrite (bool_decide_eq_false_2 _ (fun H => H Heq)).
    rewrite (bool_decide_eq_true_2 _ Heq).
    injection Heq as -> -> ->.
    cbn [mret traced_ret lift mbind traced_bind app].
    rewrite cat1_same. cbn [mbind traced_bind app].
    rewrite conv3x3_forward by lia. cbn [events outcome fst snd ReLU_forward shape].
    split; [eexists; split; reflexivity|reflexivity].
  - rewrite (bool_decide_eq_true_2 _ Hne).
    rewrite (bool_decide_eq_false_2 _ Hne).
    unfold emit, interpolate. cbn [shape forallb val].
    destruct (Z.leb_spec 1 d'); [|lia]. destruct (Z.leb_spec 1 h'); [|lia].
    destruct (Z.leb_spec 1 w'); [|lia].
    destruct (Z.leb_spec 1 (2 * d)); [|lia]. destruct (Z.leb_spec 1 (2 * h)); [|lia].
    destruct (Z.leb_spec 1 (2 * w)); [|lia].
    cbn [andb lift mbind traced_bind app].
    rewrite cat1_same. cbn [mbind traced_bind app].
    rewrite conv3x3_forward by lia. cbn [events outcome fst snd ReLU_forward shape].
    split; [eexists; split; reflexivity|reflexivity].
Qed.

End ShapeFacts.

(** ** The encoder of a constructed network *)

Module EncoderFacts.
Import Py Trace Torch ELUNet InitLoops MonadFacts TorchFacts BlockFacts InitFacts
  ForwardFacts ShapeFacts.
Local Open Scope Z_scope.

Lemma outcome_bind {E A B} (m : traced E A) (f : A -> traced E B) a :
  outcome m = Ok a -> outcome (m ≫= f) = outcome (f a).
Proof.
  destruct m as [l [a'|e]]; cbn; [|discriminate]. intros [= ->]. now destruct (f a).
Qed.

Lemma outcome_bind_raise {E A B} (m : traced E A) (f : A -> traced E B) e :
  outcome m = Raise e -> outcome (m ≫= f) = Raise e.
Proof. destruct m as [l [a'|e']]; cbn; [discriminate|]. now intros [= ->]. Qed.

Lemma outcome_called {R} m args (outs : R -> list tensor) body :
  outcome (called m args outs body) = outcome body.
Proof. unfold called, emit. now destruct body as [l [a|e]]. Qed.

Lemma called_returns {R} m args (outs : R -> list tensor) body r :
  outcome body = Ok r -> In (Return m (outs r)) (events (called m args outs body)).
Proof.
  intros H. destruct (called_inv m args outs body r) as [_ ->];
    [now rewrite outcome_called|].
  right. apply in_app_iff. right. now left.
Qed.

(** One iteration of the encoder loop. *)
Lemma forward_down_cons n i module modules x eo sk out bp :
  DsBlock_forward module x = Ok (out, bp) ->
  let rest := forward_down n (S i) modules out (eo ++ [bp])
                (if Z.of_nat i <? Z.of_nat n - 1 then sk ++ [out] else sk) in
  outcome (forward_down n i (module :: modules) x eo sk) = outcome rest /\
  In (Return (down_convs_ i) [out; bp])
     (events (forward_down n i (module :: modules) x eo sk)) /\
  (forall e, In e (events rest) ->
     In e (events (forward_down n i (module :: modules) x eo sk))).
Proof.
  intros Hm rest. cbn [forward_down].
  assert (Hc : outcome (called (down_convs_ i) [x]
                          (fun r : tensor * tensor => [r.1; r.2])
                          (lift (DsBlock_forward module x))) = Ok (out, bp))
    by now rewrite outcome_called, outcome_lift.
  split; [|split].
  - now rewrite (outcome_bind _ _ _ Hc).
  - apply traced_bind_In_l.
    apply (called_returns (down_convs_ i) [x]
             (fun r : tensor * tensor => [r.1; r.2]) _ (out, bp)).
    now rewrite outcome_lift.
  - intros e He. now apply (traced_bind_In_r _ _ _ _ Hc).
Qed.

Lemma forward_down_cons_raise n i module modules x eo sk e :
  DsBlock_forward module x = Raise e ->
  outcome (forward_down n i (module :: modules) x eo sk) = Raise e.
Proof.
  intros Hm. cbn [forward_down]. apply outcome_bind_raise.
  now rewrite outcome_called, outcome_lift.
Qed.

Lemma pow2_pos k : 0 <= k -> 1 <= 2 ^ k.
Proof. intros Hk. apply (Z.pow_le_mono_r 2 0 k); lia. Qed.

Lemma pow2_S k : 0 <= k -> 2 ^ (k + 1) = 2 * 2 ^ k.
Proof. intros Hk. now rewrite Z.add_1_r, Z.pow_succ_r. Qed.

Lemma half_div d k : 0 <= k -> d / 2 / 2 ^ k = d / 2 ^ (k + 1).
Proof.
  intros Hk. pose proof (pow2_pos k Hk).
  rewrite Z.div_div, pow2_S by lia. reflexivity.
Qed.

Lemma down_stage_pooled depth F0 (i : nat) :
  Z.of_nat i < depth - 1 ->
  down_stage depth F0 (Z.of_nat i)
  = DsBlock_init (F0 * 2 ^ Z.of_nat i) (F0 * 2 ^ (Z.of_nat i + 1)) true.
Proof.
  intros Hi. unfold down_stage. destruct (Z.ltb_spec (Z.of_nat i) (depth - 1)); [|lia].
  rewrite pow2_S by lia. f_equal. lia.
Qed.

Lemma down_stage_last depth F0 (i : nat) :
  Z.of_nat i = depth - 1 ->
  down_stage depth F0 (Z.of_nat i)
  = DsBlock_init (F0 * 2 ^ Z.of_nat i) (F0 * 2 ^ (Z.of_nat i + 1)) false.
Proof.
  intros Hi. unfold down_stage. destruct (Z.ltb_spec (Z.of_nat i) (depth - 1)); [lia|].
  rewrite pow2_S by lia. f_equal. lia.
Qed.

(** The encoder loop over the stages [i .. i + m] that [__init__] builds,
    entered with a tensor of the width of stage [i] whose spatial sizes
    are at least [2^m]. *)
Lemma forward_down_built depth F0 N (m : nat) : forall (i : nat) x eo sk d h w,
  Z.of_nat i + Z.of_nat m + 1 = depth ->
  shape x = [N; F0 * 2 ^ Z.of_nat i; d; h; w] ->
  2 ^ Z.of_nat m <= d -> 2 ^ Z.of_nat m <= h -> 2 ^ Z.of_nat m <= w ->
  exists x' new news,
    outcome (forward_down (Z.to_nat depth) i
               (down_stage depth F0 <$> (Z.of_nat <$> seq i (S m))) x eo sk)
    = Ok (x', eo ++ new, sk ++ news) /\
    shape x' = [N; F0 * 2 ^ depth; d / 2 ^ Z.of_nat m; h / 2 ^ Z.of_nat m;
                w / 2 ^ Z.of_nat m] /\
    length new = S m /\ length news = m /\
    forall j : nat, (j <= m)%nat ->
      exists out bp,
        In (Return (down_convs_ (i + j)) [out; bp])
           (events (forward_down (Z.to_nat depth) i
                      (down_stage depth F0 <$> (Z.of_nat <$> seq i (S m))) x eo sk)) /\
        new !! j = Some bp /\
        ((j < m)%nat -> news !! j = Some out) /\
        shape bp = [N; F0 * 2 ^ (Z.of_nat i + Z.of_nat j + 1);
                    d / 2 ^ Z.of_nat j; h / 2 ^ Z.of_nat j; w / 2 ^ Z.of_nat j] /\
        shape out = if bool_decide (j < m)%nat
                    then [N; F0 * 2 ^ (Z.of_nat i + Z.of_nat j + 1);
                          d / 2 ^ (Z.of_nat j + 1); h / 2 ^ (Z.of_nat j + 1);
                          w / 2 ^ (Z.of_nat j + 1)]
                    else shape bp.
Proof.
  induction m as [|m IH]; intros i [sh v] eo sk d h w Hi Hsh Hd Hh Hw;
    cbn [shape] in Hsh; subst sh.
  - cbn [seq fmap list_fmap]. rewrite down_stage_last by lia.
    change (Z.of_nat 0) with 0 in *. rewrite Z.pow_0_r in Hd, Hh, Hw.
    destruct (DsBlock_forward_unpooled (F0 * 2 ^ Z.of_nat i)
                (F0 * 2 ^ (Z.of_nat i + 1)) N d h w v) as (out & Hf & Hso);
      try assumption.
    destruct (forward_down_cons (Z.to_nat depth) i _ [] _ eo sk out out Hf)
      as (Ho & Hret & _).
    destruct (Z.ltb_spec (Z.of_nat i) (Z.of_nat (Z.to_nat depth) - 1)); [lia|].
    exists out, [out], []. rewrite Ho. cbn [forward_down]. rewrite app_nil_r.
    split; [reflexivity|]. rewrite Z.pow_0_r, !Z.div_1_r.
    split; [rewrite Hso; replace (Z.of_nat i + 1) with depth by lia; reflexivity|].
    split; [reflexivity|]. split; [reflexivity|].
    intros j Hj. assert (j = 0%nat) as -> by lia. exists out, out.
    rewrite Nat.add_0_r. split; [exact Hret|]. split; [reflexivity|].
    split; [lia|]. change (Z.of_nat 0) with 0. rewrite Z.pow_0_r, !Z.div_1_r.
    split; [rewrite Hso, Z.add_0_r; reflexivity|].
    rewrite bool_decide_eq_false_2 by lia. reflexivity.
  - rewrite Nat2Z.inj_succ in Hi, Hd, Hh, Hw.
    rewrite Z.pow_succ_r in Hd, Hh, Hw by lia.
    pose proof (pow2_pos (Z.of_nat m) ltac:(lia)) as Hpos.
    change (seq i (S (S m))) with (i :: seq (S i) (S m)).
    cbn [fmap list_fmap]. rewrite down_stage_pooled by lia.
    destruct (DsBlock_forward_pooled (F0 * 2 ^ Z.of_nat i)
                (F0 * 2 ^ (Z.of_nat i + 1)) N d h w v)
      as (out & bp & Hf & Hso & Hsb); try lia.
    match goal with
    | |- context [forward_down ?n _ (?b :: ?bs) ?t _ _] =>
        destruct (forward_down_cons n i b bs t eo sk out bp Hf) as (Ho & Hret & Hsub)
    end.
    destruct (Z.ltb_spec (Z.of_nat i) (Z.of_nat (Z.to_nat depth) - 1)); [|lia].
    destruct (IH (S i) out (eo ++ [bp]) (sk ++ [out]) (d / 2) (h / 2) (w / 2))
      as (x' & new & news & Hrun & Hsx & Hln & Hlns & Hall).
    { lia. }
    { rewrite Hso, Nat2Z.inj_succ, <- Z.add_1_r. reflexivity. }
    { Z.div_mod_to_equations; lia. }
    { Z.div_mod_to_equations; lia. }
    { Z.div_mod_to_equations; lia. }
    exists x', (bp :: new), (out :: news). rewrite Ho, Hrun, <- !app_assoc.
    split; [reflexivity|].
    split; [rewrite Hsx, !half_div, Nat2Z.inj_succ, <- !Z.add_1_r by lia; reflexivity|].
    split; [cbn [length]; lia|]. split; [cbn [length]; lia|].
    intros [|j] Hj.
    + exists out, bp. rewrite Nat.add_0_r. split; [exact Hret|].
      split; [reflexivity|]. split; [reflexivity|].
      change (Z.of_nat 0) with 0. rewrite Z.pow_0_r, !Z.div_1_r, Z.add_0_r.
      split; [exact Hsb|]. rewrite bool_decide_eq_true_2 by lia.
      rewrite Z.add_0_l, Z.pow_1_r. exact Hso.
    + destruct (Hall j ltac:(lia)) as (o' & b' & Hin & Hnew & Hnews & Hsb' & Hso').
      exists o', b'. replace (i + S j)%nat with (S i + j)%nat by lia.
      split; [apply Hsub, Hin|]. split; [exact Hnew|].
      split; [intros Hlt; apply Hnews; lia|].
      rewrite !half_div in Hsb', Hso' by lia.
      rewrite !Nat2Z.inj_succ, <- !Z.add_1_r in *.
      replace (Z.of_nat i + (Z.of_nat j + 1) + 1)
        with (Z.of_nat i + 1 + Z.of_nat j + 1) by lia.
      split; [exact Hsb'|]. rewrite Hso'.
      destruct (decide (j < m)%nat).
      * rewrite !bool_decide_eq_true_2 by lia. reflexivity.
      * rewrite !bool_decide_eq_false_2 by lia. reflexivity.
Qed.

(** The same loop on a tensor with a spatial size below [2^m]: a pooling
    step meets a size of 1. *)
Lemma forward_down_small depth F0 N (m : nat) : forall (i : nat) x eo sk d h w,
  Z.of_nat i + Z.of_nat m + 1 = depth ->
  shape x = [N; F0 * 2 ^ Z.of_nat i; d; h; w] ->
  1 <= d -> 1 <= h -> 1 <= w ->
  d < 2 ^ Z.of_nat m \/ h < 2 ^ Z.of_nat m \/ w < 2 ^ Z.of_nat m ->
  outcome (forward_down (Z.to_nat depth) i
             (down_stage depth F0 <$> (Z.of_nat <$> seq i (S m))) x eo sk)
  = Raise RuntimeError.
Proof.
  induction m as [|m IH]; intros i [sh v] eo sk d h w Hi Hsh Hd Hh Hw Hsmall;
    cbn [shape] in Hsh; subst sh.
  - change (Z.of_nat 0) with 0 in Hsmall. rewrite Z.pow_0_r in Hsmall. lia.
  - rewrite Nat2Z.inj_succ in Hi, Hsmall.
    rewrite Z.pow_succ_r in Hsmall by lia.
    change (seq i (S (S m))) with (i :: seq (S i) (S m)).
    cbn [fmap list_fmap]. rewrite down_stage_pooled by lia.
    destruct (decide (2 <= d /\ 2 <= h /\ 2 <= w)) as [(Hd2 & Hh2 & Hw2)|Hone].
    + destruct (DsBlock_forward_pooled (F0 * 2 ^ Z.of_nat i)
                  (F0 * 2 ^ (Z.of_nat i + 1)) N d h w v)
        as (out & bp & Hf & Hso & Hsb); try lia.
      match goal with
      | |- context [forward_down ?n _ (?b :: ?bs) ?t _ _] =>
          destruct (forward_down_cons n i b bs t eo sk out bp Hf) as (Ho & _ & _)
      end.
      rewrite Ho. apply (IH (S i) out _ _ (d / 2) (h / 2) (w / 2)).
      * lia.
      * rewrite Hso, Nat2Z.inj_succ, <- Z.add_1_r. reflexivity.
      * Z.div_mod_to_equations; lia.
      * Z.div_mod_to_equations; lia.
      * Z.div_mod_to_equations; lia.
      * Z.div_mod_to_equations; lia.
    + apply forward_down_cons_raise, DsBlock_forward_too_small; lia.
Qed.

Lemma events_bind_raise {E A B} (m : traced E A) (f : A -> traced E B) e :
  outcome m = Raise e -> events (m ≫= f) = events m.
Proof. destruct m as [l [a|e']]; cbn; [discriminate|reflexivity]. Qed.

Lemma forward_down_cons_events n i module modules x eo sk out bp :
  DsBlock_forward module x = Ok (out, bp) ->
  events (forward_down n i (module :: modules) x eo sk)
  = Call (down_convs_ i) [x] :: Return (down_convs_ i) [out; bp]
    :: events (forward_down n (S i) modules out (eo ++ [bp])
                 (if Z.of_nat i <? Z.of_nat n - 1 then sk ++ [out] else sk)).
Proof.
  intros Hm. cbn [forward_down].
  assert (Hc : outcome (called (down_convs_ i) [x]
                          (fun r : tensor * tensor => [r.1; r.2])
                          (lift (DsBlock_forward module x))) = Ok (out, bp))
    by now rewrite outcome_called, outcome_lift.
  rewrite (traced_bind_events _ _ _ Hc).
  destruct (called_inv _ _ _ _ _ Hc) as [_ ->]. rewrite events_lift. reflexivity.
Qed.

Lemma forward_down_cons_raise_events n i module modules x eo sk e :
  DsBlock_forward module x = Raise e ->
  events (forward_down n i (module :: modules) x eo sk)
  = [Call (down_convs_ i) [x]].
Proof.
  intros Hm. cbn [forward_down].
  rewrite (events_bind_raise _ _ e) by now rewrite outcome_called, outcome_lift.
  unfold called, emit. now rewrite Hm.
Qed.

(** Where that run stops: in a stage that pools, entered and never left. *)
Lemma forward_down_small_stops depth F0 N (m : nat) :
  forall (i : nat) x eo sk d h w,
  Z.of_nat i + Z.of_nat m + 1 = depth ->
  shape x = [N; F0 * 2 ^ Z.of_nat i; d; h; w] ->
  1 <= d -> 1 <= h -> 1 <= w ->
  d < 2 ^ Z.of_nat m \/ h < 2 ^ Z.of_nat m \/ w < 2 ^ Z.of_nat m ->
  exists (j : nat) t,
    (j < m)%nat /\
    last (events (forward_down (Z.to_nat depth) i
                    (down_stage depth F0 <$> (Z.of_nat <$> seq i (S m))) x eo sk))
    = Some (Call (down_convs_ (i + j)) [t]).
Proof.
  induction m as [|m IH]; intros i [sh v] eo sk d h w Hi Hsh Hd Hh Hw Hsmall;
    cbn [shape] in Hsh; subst sh.
  - change (Z.of_nat 0) with 0 in Hsmall. rewrite Z.pow_0_r in Hsmall. lia.
  - rewrite Nat2Z.inj_succ in Hi, Hsmall.
    rewrite Z.pow_succ_r in Hsmall by lia.
    change (seq i (S (S m))) with (i :: seq (S i) (S m)).
    cbn [fmap list_fmap]. rewrite down_stage_pooled by lia.
    destruct (decide (2 <= d /\ 2 <= h /\ 2 <= w)) as [(Hd2 & Hh2 & Hw2)|Hone].
    + destruct (DsBlock_forward_pooled (F0 * 2 ^ Z.of_nat i)
                  (F0 * 2 ^ (Z.of_nat i + 1)) N d h w v)
        as (out & bp & Hf & Hso & Hsb); try lia.
      rewrite (forward_down_cons_events _ _ _ _ _ _ _ _ _ Hf).
      destruct (IH (S i) out (eo ++ [bp])
                  (if Z.of_nat i <? Z.of_nat (Z.to_nat depth) - 1
                   then sk ++ [out] else sk) (d / 2) (h / 2) (w / 2))
        as (j & t & Hj & Hlast).
      * lia.
      * rewrite Hso, Nat2Z.inj_succ, <- Z.add_1_r. reflexivity.
      * Z.div_mod_to_equations; lia.
      * Z.div_mod_to_equations; lia.
      * Z.div_mod_to_equations; lia.
      * Z.div_mod_to_equations; lia.
      * exists (S j), t. split; [lia|].
        rewrite !last_cons, Hlast. f_equal. f_equal. f_equal. lia.
    + exists 0%nat. eexists. split; [lia|].
      rewrite (forward_down_cons_raise_events _ _ _ _ _ _ _ RuntimeError)
        by (apply DsBlock_forward_too_small; lia).
      rewrite Nat.add_0_r. reflexivity.
Qed.

(** *** The pass through a constructed network *)

Lemma range_seq depth :
  1 <= depth -> range depth = Z.of_nat <$> seq 0 (S (Z.to_nat (depth - 1))).
Proof. intros Hd. unfold range. do 2 f_equal. lia. Qed.

(** [forward] up to the end of the encoder loop. *)
Lemma forward_through_start self x x0 :
  Conv3d_forward (conv_start self) x = Ok x0 ->
  let enc := forward_down (length (down_convs self)) 0 (down_convs self) x0 [] [] in
  (forall e, In e (events enc) -> In e (events (forward self x))) /\
  (forall e, outcome enc = Raise e -> outcome (forward self x) = Raise e) /\
  (forall x' eo sk, outcome enc = Ok (x', eo, sk) ->
     outcome (forward self x)
     = outcome (y ← forward_up (conv self) 0 (up_convs self) x' eo sk;
                mret (y, sk))).
Proof.
  intros Hs enc. unfold forward.
  assert (Hc : outcome (called conv_start_ [x] (fun r => [r])
                          (lift (Conv3d_forward (conv_start self) x))) = Ok x0)
    by now rewrite outcome_called, outcome_lift.
  split; [|split].
  - intros e He. apply (traced_bind_In_r _ _ _ _ Hc). now apply traced_bind_In_l.
  - intros e He. rewrite (outcome_bind _ _ _ Hc). now apply outcome_bind_raise.
  - intros x' eo sk He. rewrite (outcome_bind _ _ _ Hc).
    now rewrite (outcome_bind _ _ _ He).
Qed.

Lemma forward_events_encoder_raise self x x0 e :
  Conv3d_forward (conv_start self) x = Ok x0 ->
  outcome (forward_down (length (down_convs self)) 0 (down_convs self) x0 [] [])
  = Raise e ->
  events (forward self x)
  = Call conv_start_ [x] :: Return conv_start_ [x0]
    :: events (forward_down (length (down_convs self)) 0 (down_convs self)
                 x0 [] []).
Proof.
  intros Hs He. unfold forward.
  assert (Hc : outcome (called conv_start_ [x] (fun r => [r])
                          (lift (Conv3d_forward (conv_start self) x))) = Ok x0)
    by now rewrite outcome_called, outcome_lift.
  rewrite (traced_bind_events _ _ _ Hc).
  destruct (called_inv _ _ _ _ _ Hc) as [_ ->]. rewrite events_lift.
  now rewrite (events_bind_raise _ _ e He).
Qed.

Lemma conv_start_forward in_channels F0 n d h w v :
  1 <= d -> 1 <= h -> 1 <= w ->
  exists x0,
    Conv3d_forward (conv3x3 in_channels F0 1 1 true)
      {| shape := [n; in_channels; d; h; w]; val := v |} = Ok x0 /\
    shape x0 = [n; F0 * 2 ^ Z.of_nat 0; d; h; w].
Proof.
  intros Hd Hh Hw. rewrite conv3x3_forward by assumption.
  eexists. split; [reflexivity|]. cbn [shape]. change (2 ^ Z.of_nat 0) with 1.
  now rewrite Z.mul_1_r.
Qed.

(** With spatial sizes of at least [2^(depth-1)], every encoder stage of
    a constructed network returns during [forward]: stage [k] leaves
    [before_pool] with [start_filts * 2^(k+1)] channels at the input size
    divided by [2^k], rounded down, and an output of half that size,
    except the last stage, whose output is [before_pool]. *)
Theorem encoder_stage_shapes
    (num_classes in_channels depth start_filts : Z) (up_mode : string) (res : bool)
    (self : ELUNet) (n d h w : Z) (v : value) (k : nat)
    (Hclasses : 1 <= num_classes) (Hin : 1 <= in_channels) (Hdepth : 1 <= depth)
    (Hfilts : 1 <= start_filts) (Hn : 1 <= n)
    (Hinit : __init__ num_classes in_channels depth start_filts up_mode res = Ok self)
    (Hd : 2 ^ (depth - 1) <= d) (Hh : 2 ^ (depth - 1) <= h)
    (Hw : 2 ^ (depth - 1) <= w) (Hk : Z.of_nat k < depth) :
  exists out before_pool,
    In (Return (down_convs_ k) [out; before_pool])
       (events (forward self {| shape := [n; in_channels; d; h; w]; val := v |})) /\
    shape before_pool
    = [n; start_filts * 2 ^ (Z.of_nat k + 1);
       d / 2 ^ Z.of_nat k; h / 2 ^ Z.of_nat k; w / 2 ^ Z.of_nat k] /\
    shape out
    = if Z.of_nat k <? depth - 1
      then [n; start_filts * 2 ^ (Z.of_nat k + 1);
            d / 2 ^ (Z.of_nat k + 1); h / 2 ^ (Z.of_nat k + 1);
            w / 2 ^ (Z.of_nat k + 1)]
      else shape before_pool.
Proof.
  rewrite init_closed in Hinit by exact Hdepth. injection Hinit as <-.
  pose proof (pow2_pos (depth - 1) ltac:(lia)) as Hpos.
  destruct (conv_start_forward in_channels start_filts n d h w v)
    as (x0 & Hx0 & Hs0); try lia.
  match goal with
  | |- context [forward ?s ?x] =>
      destruct (forward_through_start s x x0 Hx0) as (Hsub & _ & _)
  end.
  cbn [down_convs] in Hsub. rewrite length_fmap, range_length in Hsub.
  rewrite (range_seq depth Hdepth) in *.
  destruct (forward_down_built depth start_filts n (Z.to_nat (depth - 1)) 0 x0
              [] [] d h w) as (x' & new & news & _ & _ & _ & _ & Hall);
    [lia|exact Hs0| | | |].
  1-3: rewrite Z2Nat.id by lia; assumption.
  destruct (Hall k ltac:(lia)) as (out & bp & Hin' & _ & _ & Hsb & Hso).
  exists out, bp. split; [now apply Hsub|].
  change (Z.of_nat 0) with 0 in Hsb, Hso. rewrite !Z.add_0_l in Hsb, Hso.
  split; [exact Hsb|]. rewrite Hso.
  destruct (Z.ltb_spec (Z.of_nat k) (depth - 1)).
  - now rewrite bool_decide_eq_true_2 by lia.
  - now rewrite bool_decide_eq_false_2 by lia.
Qed.

(** A spatial size below [2^(depth-1)] makes [forward] of a constructed
    network raise [RuntimeError] inside the encoder: the trace ends with
    the entry into an encoder stage that pools, which never returns
    because a pooling step would leave an empty volume, and no event
    involves a decoder stage or the shared convolution. *)
Theorem forward_input_too_small
    (num_classes in_channels depth start_filts : Z) (up_mode : string) (res : bool)
    (self : ELUNet) (n d h w : Z) (v : value)
    (Hclasses : 1 <= num_classes) (Hin : 1 <= in_channels) (Hdepth : 1 <= depth)
    (Hfilts : 1 <= start_filts) (Hn : 1 <= n)
    (Hinit : __init__ num_classes in_channels depth start_filts up_mode res = Ok self)
    (Hd : 1 <= d) (Hh : 1 <= h) (Hw : 1 <= w)
    (Hsmall : d < 2 ^ (depth - 1) \/ h < 2 ^ (depth - 1) \/ w < 2 ^ (depth - 1)) :
  let run := forward self {| shape := [n; in_channels; d; h; w]; val := v |} in
  outcome run = Raise RuntimeError /\
  (exists (k : nat) t,
     Z.of_nat k < depth - 1 /\
     last (events run) = Some (Call (down_convs_ k) [t])) /\
  (forall e, In e (events run) ->
     event_member e <> Some conv_ /\
     forall i, event_member e <> Some (up_convs_ i)).
Proof.
  intros run. subst run.
  rewrite init_closed in Hinit by exact Hdepth. injection Hinit as <-.
  destruct (conv_start_forward in_channels start_filts n d h w v)
    as (x0 & Hx0 & Hs0); try lia.
  match goal with
  | |- context [forward ?s ?x] =>
      destruct (forward_through_start s x x0 Hx0) as (_ & Hraise & _);
      pose proof (forward_events_encoder_raise s x x0 RuntimeError Hx0) as Hev
  end.
  cbn [down_convs] in Hraise, Hev.
  rewrite length_fmap, range_length in Hraise, Hev.
  rewrite (range_seq depth Hdepth) in *.
  assert (Henc : outcome (forward_down (Z.to_nat depth) 0
                            (down_stage depth start_filts <$>
                               (Z.of_nat <$> seq 0 (S (Z.to_nat (depth - 1)))))
                            x0 [] []) = Raise RuntimeError).
  { apply (forward_down_small depth start_filts n _ 0 x0 [] [] d h w);
      try assumption; [lia|].
    rewrite Z2Nat.id by lia. exact Hsmall. }
  specialize (Hev Henc).
  split; [now apply Hraise|]. split.
  - destruct (forward_down_small_stops depth start_filts n (Z.to_nat (depth - 1))
                0 x0 [] [] d h w) as (j & t & Hj & Hlast); try assumption; [lia| |].
    { rewrite Z2Nat.id by lia. exact Hsmall. }
    exists j, t. split; [lia|].
    rewrite Hev, !last_cons, Hlast. reflexivity.
  - intros e He. rewrite Hev in He.
    destruct He as [<-|[<-|He]]; [split; [discriminate|intros i; discriminate]..|].
    split.
    + pose proof (forward_down_avoids conv_ (Z.to_nat depth) 0
                    (down_stage depth start_filts <$>
                       (Z.of_nat <$> seq 0 (S (Z.to_nat (depth - 1)))))
                    x0 [] [] ltac:(discriminate)) as Hav.
      rewrite Forall_forall in Hav. apply Hav. now apply list_elem_of_In.
    + intros i.
      pose proof (forward_down_avoids (up_convs_ i) (Z.to_nat depth) 0
                    (down_stage depth start_filts <$>
                       (Z.of_nat <$> seq 0 (S (Z.to_nat (depth - 1)))))
                    x0 [] [] ltac:(discriminate)) as Hav.
      rewrite Forall_forall in Hav. apply Hav. now apply list_elem_of_In.
Qed.

End EncoderFacts.

(** ** Construction and the whole pass *)

Module NetworkFacts.
Import Py Trace Torch ELUNet InitLoops MonadFacts TorchFacts BlockFacts InitFacts
  ForwardFacts ShapeFacts DecoderFacts EncoderFacts.
Local Open Scope Z_scope.

Lemma range_nonpos n : n <= 0 -> range n = [].
Proof. intros Hn. unfold range. now replace (Z.to_nat n) with 0%nat by lia. Qed.

Lemma halved_pow (k : nat) o : halved k (o * 2 ^ Z.of_nat k) = o.
Proof.
  revert o. induction k as [|k IH]; intros o; cbn [halved].
  - change (Z.of_nat 0) with 0. rewrite Z.pow_0_r. lia.
  - rewrite Nat2Z.inj_succ, Z.pow_succ_r by lia.
    replace (o * (2 * 2 ^ Z.of_nat k)) with (o * 2 ^ Z.of_nat k * 2) by lia.
    rewrite Z.div_mul by lia. apply IH.
Qed.

Lemma halved_built depth F0 :
  1 <= depth ->
  halved (Z.to_nat (depth - 1)) (F0 * 2 ^ (depth - 1) * 2) = 2 * F0.
Proof.
  intros Hd.
  replace (F0 * 2 ^ (depth - 1) * 2)
    with (2 * F0 * 2 ^ Z.of_nat (Z.to_nat (depth - 1)))
    by (rewrite Z2Nat.id by lia; lia).
  apply halved_pow.
Qed.

(** Without an encoder stage [outs] is never bound: for a depth of 0 or
    less, [__init__] raises [NameError] where it builds [conv_final]. *)
Theorem init_needs_a_stage
    (num_classes in_channels depth start_filts : Z) (up_mode : string) (res : bool)
    (Hclasses : 1 <= num_classes) (Hin : 1 <= in_channels)
    (Hfilts : 1 <= start_filts) (Hdepth : depth <= 0) :
  __init__ num_classes in_channels depth start_filts up_mode res = Raise NameError.
Proof. unfold __init__. rewrite !range_nonpos by lia. reflexivity. Qed.

(** The two layers that [__init__] builds after the loops do not depend
    on the depth: the classifier takes [2 * start_filts] channels and the
    shared convolution maps [4 * start_filts] channels to
    [2 * start_filts]. *)
Theorem init_head_widths
    (num_classes in_channels depth start_filts : Z) (up_mode : string) (res : bool)
    (Hclasses : 1 <= num_classes) (Hin : 1 <= in_channels)
    (Hfilts : 1 <= start_filts) (Hdepth : 1 <= depth) :
  exists self,
    __init__ num_classes in_channels depth start_filts up_mode res = Ok self /\
    conv_final self = conv1x1 (2 * start_filts) num_classes /\
    conv self = conv3x3 (4 * start_filts) (2 * start_filts) 1 1 true.
Proof.
  rewrite init_closed by exact Hdepth. eexists. split; [reflexivity|].
  cbn [conv_final conv]. rewrite halved_built by exact Hdepth.
  split; [reflexivity|]. f_equal. lia.
Qed.

(** *** The only depth at which [forward] returns *)

Lemma forward_depth_1 num_classes in_channels F0 up_mode res self n d h w v :
  __init__ num_classes in_channels 1 F0 up_mode res = Ok self ->
  1 <= d -> 1 <= h -> 1 <= w ->
  exists y,
    outcome (forward self {| shape := [n; in_channels; d; h; w]; val := v |})
    = Ok (y, []) /\
    shape y = [n; 2 * F0; d; h; w].
Proof.
  intros Hinit Hd Hh Hw. rewrite init_closed in Hinit by lia. injection Hinit as <-.
  destruct (conv_start_forward in_channels F0 n d h w v)
    as (x0 & Hx0 & Hs0); try lia.
  match goal with
  | |- context [forward ?s ?x] =>
      destruct (forward_through_start s x x0 Hx0) as (_ & _ & Hok)
  end.
  cbn [down_convs up_convs conv] in Hok.
  destruct (forward_down_built 1 F0 n 0 0 x0 [] [] d h w)
    as (x' & new & news & Hrun & Hsx & _ & Hlen & _);
    [reflexivity|exact Hs0| | | |]; try (change (2 ^ Z.of_nat 0) with 1; lia).
  destruct news; [|discriminate Hlen].
  exists x'. rewrite (Hok x' ([] ++ new) ([] ++ [])).
  - split; [reflexivity|]. rewrite Hsx. change (2 ^ Z.of_nat 0) with 1.
    rewrite !Z.div_1_r. f_equal. f_equal. lia.
  - exact Hrun.
Qed.

(** A constructed network returns from [forward] only when its depth is
    1: then a batched input of [in_channels] channels gives a tensor of
    [2 * start_filts] channels at the input's size and an empty tuple of
    skip tensors; with a depth of 2 or more every input ends in an
    exception. *)
Theorem forward_returns_only_at_depth_1
    (num_classes in_channels depth start_filts : Z) (up_mode : string) (res : bool)
    (self : ELUNet) (n d h w : Z) (v : value)
    (Hclasses : 1 <= num_classes) (Hin : 1 <= in_channels)
    (Hfilts : 1 <= start_filts) (Hn : 1 <= n)
    (Hinit : __init__ num_classes in_channels depth start_filts up_mode res = Ok self)
    (Hd : 1 <= d) (Hh : 1 <= h) (Hw : 1 <= w) :
  (depth = 1 ->
   exists y,
     outcome (forward self {| shape := [n; in_channels; d; h; w]; val := v |})
     = Ok (y, []) /\
     shape y = [n; 2 * start_filts; d; h; w]) /\
  (2 <= depth -> forall x, exists e, outcome (forward self x) = Raise e).
Proof.
  split.
  - intros ->. now apply (forward_depth_1 num_classes in_channels start_filts
                           up_mode res).
  - intros Hdepth x.
    now apply (forward_raises num_classes in_channels depth start_filts up_mode res).
Qed.

End NetworkFacts.

(** ** The shared convolution *)

Module FusionFacts.
Import Py Trace Torch ELUNet InitLoops MonadFacts TorchFacts BlockFacts InitFacts
  ForwardFacts SkipFacts ShapeFacts DecoderFacts EncoderFacts NetworkFacts.
Local Open Scope Z_scope.

Lemma up_block_forward_channels b skip x x1 :
  outcome (up_block_forward b skip x) = Ok x1 ->
  channels x1 = Ok (up_block_out_channels b).
Proof.
  destruct b as [b|b]; cbn [up_block_forward up_block_out_channels].
  - rewrite outcome_lift. unfold UsBlock_forward. intros H.
    apply result_bind_ok in H as (u & _ & H).
    apply result_bind_ok in H as (c & Hc & H). injection H as <-.
    now apply Conv3d_forward_ok in Hc as (_ & Hch & _).
  - unfold UsBlockRes_forward. intros H.
    apply traced_bind_ok in H as (u & _ & H).
    apply traced_bind_ok in H as (bp & _ & H).
    apply traced_bind_ok in H as (z & _ & H).
    apply traced_bind_ok in H as (c & Hc & H). injection H as <-.
    rewrite outcome_lift in Hc.
    now apply Conv3d_forward_ok in Hc as (_ & Hch & _).
Qed.

Lemma match_size_shape bp size bp' n c d h w :
  shape bp = [n; c; d; h; w] ->
  outcome (match_size bp size) = Ok bp' ->
  exists d' h' w', shape bp' = [n; c; d'; h'; w'].
Proof.
  intros Hs. unfold match_size. case_bool_decide.
  - unfold emit, lift, interpolate. rewrite Hs. cbn.
    destruct size as [|d' [|h' [|w' [|]]]]; try discriminate.
    case_match; [|discriminate]. intros [= <-]. cbn. eauto.
  - intros [= <-]. eauto.
Qed.

Lemma cat1_channels x y z n c d h w :
  shape y = [n; c; d; h; w] -> cat1 x y = Ok z ->
  exists c1, channels x = Ok c1 /\ channels z = Ok (c1 + c).
Proof.
  intros Hy. unfold cat1. rewrite Hy.
  destruct (shape x) as [|n1 [|c1 sp]] eqn:Hx; try discriminate.
  case_match eqn:Hc; [|discriminate]. intros [= <-].
  apply andb_prop in Hc as [_ Hsp]. apply bool_decide_eq_true in Hsp. subst sp.
  exists c1. unfold channels. rewrite Hx. cbn. auto.
Qed.

Ltac in_cases H :=
  repeat first [rewrite in_app_iff in H | progress cbn [In app] in H];
  repeat match type of H with _ \/ _ => destruct H as [H|H] end.

Ltac no_conv H Hbe Hme :=
  solve [ discriminate H | destruct H
        | apply Hbe in H; discriminate H | apply Hme in H; discriminate H ].

(** The first decoder iteration of [forward], when the shared convolution
    rejects whatever the iteration concatenates. *)
Lemma forward_up_head conv b ups x eo sk :
  (forall skip x1 bp bp' z,
     outcome (up_block_forward b skip x) = Ok x1 ->
     index eo (- (Z.of_nat 0 + 1)) = Ok bp ->
     outcome (match_size bp (spatial x1)) = Ok bp' ->
     cat1 x1 bp' = Ok z ->
     Conv3d_forward conv z = Raise RuntimeError) ->
  (forall r, outcome (forward_up conv 0 (b :: ups) x eo sk) <> Ok r) /\
  (forall z, In (Call conv_ [z]) (events (forward_up conv 0 (b :: ups) x eo sk)) ->
     exists skip x1 bp bp',
       outcome (up_block_forward b skip x) = Ok x1 /\
       index eo (- (Z.of_nat 0 + 1)) = Ok bp /\
       outcome (match_size bp (spatial x1)) = Ok bp' /\
       cat1 x1 bp' = Ok z /\
       outcome (forward_up conv 0 (b :: ups) x eo sk) = Raise RuntimeError).
Proof.
  intros Hrej. cbn [forward_up]. unfold called, emit, lift, events, outcome.
  destruct (index sk (- (Z.of_nat 0 + 1))) as [skip|e0];
    [|split; [discriminate|intros z []]].
  cbn [mbind traced_bind mret traced_ret app].
  pose proof (up_block_forward_events b skip x) as Hbe.
  destruct (up_block_forward b skip x) as [l1 [x1|e1]] eqn:Hb;
    cbn [events fst] in Hbe; cbn [mbind traced_bind mret traced_ret app fst snd].
  2:{ split; [discriminate|]. intros z Hz. in_cases Hz; no_conv Hz Hbe Hbe. }
  destruct (index eo (- (Z.of_nat 0 + 1))) as [bp|e2] eqn:Heo;
    cbn [mbind traced_bind mret traced_ret app fst snd].
  2:{ split; [discriminate|]. intros z Hz. in_cases Hz; no_conv Hz Hbe Hbe. }
  pose proof (match_size_events bp (spatial x1)) as Hme.
  destruct (match_size bp (spatial x1)) as [l2 [bp'|e3]] eqn:Hm;
    cbn [events fst] in Hme; cbn [mbind traced_bind mret traced_ret app fst snd].
  2:{ split; [discriminate|]. intros z Hz. in_cases Hz; no_conv Hz Hbe Hme. }
  destruct (cat1 x1 bp') as [z0|e4] eqn:Hcat; cbn [mbind traced_bind mret traced_ret app fst snd].
  2:{ split; [discriminate|]. intros z Hz. in_cases Hz; no_conv Hz Hbe Hme. }
  rewrite (Hrej skip x1 bp bp' z0 ltac:(now rewrite Hb) eq_refl
             ltac:(now rewrite Hm) Hcat).
  cbn [mbind traced_bind mret traced_ret app fst snd].
  split; [discriminate|]. intros z Hz.
  exists skip, x1, bp, bp'. in_cases Hz; try no_conv Hz Hbe Hme.
  injection Hz as <-.
  split; [now rewrite Hb|]. split; [reflexivity|]. split; [now rewrite Hm|].
  split; [exact Hcat|reflexivity].
Qed.

(** A call of the shared convolution happens in the decoder loop. *)
Lemma forward_conv_calls self x z :
  In (Call conv_ [z]) (events (forward self x)) ->
  exists x0 x' eo sk,
    Conv3d_forward (conv_start self) x = Ok x0 /\
    outcome (forward_down (length (down_convs self)) 0 (down_convs self) x0 [] [])
    = Ok (x', eo, sk) /\
    In (Call conv_ [z])
       (events (forward_up (conv self) 0 (up_convs self) x' eo sk)).
Proof.
  unfold forward. intros Hz.
  apply traced_bind_In in Hz as [Hz|(x0 & Hx0 & Hz)].
  { apply called_In in Hz as [Hz|[Hz|(r & _ & Hz)]];
      [discriminate Hz|destruct Hz|discriminate Hz]. }
  rewrite outcome_called, outcome_lift in Hx0.
  apply traced_bind_In in Hz as [Hz|([[x' eo] sk] & Henc & Hz)].
  { pose proof (forward_down_avoids conv_ (length (down_convs self)) 0
                  (down_convs self) x0 [] [] ltac:(discriminate)) as Hav.
    rewrite Forall_forall in Hav. apply list_elem_of_In, Hav in Hz.
    now contradiction Hz. }
  apply traced_bind_In in Hz as [Hz|(y & _ & [])].
  exists x0, x', eo, sk. auto.
Qed.

Lemma pow2_ge_4 k : 2 <= k -> 4 <= 2 ^ k.
Proof.
  intros Hk. replace k with (k - 2 + 1 + 1) by lia.
  rewrite !pow2_S by lia. pose proof (pow2_pos (k - 2) ltac:(lia)). lia.
Qed.

(** The shared convolution fits no network with the encoder that
    [__init__] builds: whatever blocks stand in the decoder, on an input
    that passes the encoder [forward] never returns, and whenever the
    first decoder iteration reaches [self.conv], the tensor it
    concatenated from the block's output and the last encoder feature map
    has [start_filts * 2^depth] channels more than the block's output,
    not the [4 * start_filts] that the convolution declares, and
    [forward] raises [RuntimeError]. *)
Theorem shared_conv_never_returns
    (num_classes in_channels depth start_filts : Z) (up_mode : string) (res : bool)
    (self : ELUNet) (b : up_block) (ups : list up_block)
    (n d h w : Z) (v : value)
    (Hclasses : 1 <= num_classes) (Hin : 1 <= in_channels) (Hdepth : 2 <= depth)
    (Hfilts : 1 <= start_filts) (Hn : 1 <= n)
    (Hinit : __init__ num_classes in_channels depth start_filts up_mode res = Ok self)
    (Hb : 1 <= up_block_out_channels b)
    (Hd : 2 ^ (depth - 1) <= d) (Hh : 2 ^ (depth - 1) <= h)
    (Hw : 2 ^ (depth - 1) <= w) :
  let net := {| conv_start := conv_start self; down_convs := down_convs self;
                up_convs := b :: ups; conv_final := conv_final self;
                conv := conv self |} in
  let run := forward net {| shape := [n; in_channels; d; h; w]; val := v |} in
  Torch.in_channels (conv self) = 4 * start_filts /\
  (forall r, outcome run <> Ok r) /\
  (forall z, In (Call conv_ [z]) (events run) ->
     channels z = Ok (up_block_out_channels b + start_filts * 2 ^ depth) /\
     Conv3d_forward (conv self) z = Raise RuntimeError /\
     outcome run = Raise RuntimeError).
Proof.
  intros net run. subst run net.
  rewrite init_closed in Hinit by lia. injection Hinit as <-.
  cbn [conv_start down_convs conv_final conv].
  rewrite halved_built by lia.
  pose proof (pow2_pos (depth - 1) ltac:(lia)) as Hpos.
  pose proof (pow2_ge_4 depth Hdepth) as Hpow.
  destruct (conv_start_forward in_channels start_filts n d h w v)
    as (x0 & Hx0 & Hs0); try lia.
  match goal with
  | |- context [forward ?s ?x] =>
      destruct (forward_through_start s x x0 Hx0) as (_ & _ & Hok);
      pose proof (forward_conv_calls s x) as Hcalls
  end.
  cbn [down_convs up_convs conv conv_start] in Hok, Hcalls.
  rewrite length_fmap, range_length in Hok, Hcalls.
  rewrite (range_seq depth ltac:(lia)) in *.
  destruct (forward_down_built depth start_filts n (Z.to_nat (depth - 1)) 0 x0
              [] [] d h w) as (x' & new & news & Hrun & _ & Hlen & _ & Hall);
    [lia|exact Hs0| | | |].
  1-3: rewrite Z2Nat.id by lia; assumption.
  destruct (Hall (Z.to_nat (depth - 1)) ltac:(lia))
    as (_ & bp & _ & Hnew & _ & Hsb & _).
  replace (Z.of_nat 0 + Z.of_nat (Z.to_nat (depth - 1)) + 1) with depth in Hsb by lia.
  set (cv := conv3x3 (2 * start_filts * 2) (2 * start_filts) 1 1 true) in *.
  assert (Hchain : forall skip x1 bp0 bp' z,
            outcome (up_block_forward b skip x') = Ok x1 ->
            index ([] ++ new) (- (Z.of_nat 0 + 1)) = Ok bp0 ->
            outcome (match_size bp0 (spatial x1)) = Ok bp' ->
            cat1 x1 bp' = Ok z ->
            channels z = Ok (up_block_out_channels b + start_filts * 2 ^ depth) /\
            Conv3d_forward cv z = Raise RuntimeError).
  { intros skip x1 bp0 bp' z Hx1 Hbp0 Hbp' Hcat.
    apply index_from_end in Hbp0 as [_ Hbp0]. cbn [app] in Hbp0.
    rewrite Hlen in Hbp0.
    replace (S (Z.to_nat (depth - 1)) - 1 - 0)%nat with (Z.to_nat (depth - 1))
      in Hbp0 by lia.
    rewrite Hnew in Hbp0. injection Hbp0 as <-.
    destruct (match_size_shape _ _ _ _ _ _ _ _ Hsb Hbp') as (d' & h' & w' & Hsb').
    destruct (cat1_channels _ _ _ _ _ _ _ _ Hsb' Hcat) as (c1 & Hc1 & Hcz).
    rewrite (up_block_forward_channels _ _ _ _ Hx1) in Hc1. injection Hc1 as <-.
    split; [exact Hcz|].
    apply (Conv3d_forward_mismatch _ _ _ Hcz). unfold cv.
    cbn [conv3x3 Torch.in_channels]. nia. }
  destruct (forward_up_head cv b ups x' ([] ++ new) ([] ++ news))
    as (Hnever & Hreach).
  { intros skip x1 bp0 bp' z H1 H2 H3 H4.
    now destruct (Hchain skip x1 bp0 bp' z H1 H2 H3 H4). }
  split; [unfold cv; cbn; lia|]. split.
  - intros r Hr. rewrite (Hok _ _ _ Hrun) in Hr.
    apply traced_bind_ok in Hr as (y & Hy & _). exact (Hnever y Hy).
  - intros z Hz. apply Hcalls in Hz as (x0' & x'' & eo & sk & Hx0' & Henc & Hz).
    rewrite Hx0 in Hx0'. injection Hx0' as <-.
    rewrite Hrun in Henc. injection Henc as <- <- <-.
    destruct (Hreach z Hz) as (skip & x1 & bp0 & bp' & H1 & H2 & H3 & H4 & Hout).
    destruct (Hchain skip x1 bp0 bp' z H1 H2 H3 H4) as [Hcz Hrz].
    split; [exact Hcz|]. split; [exact Hrz|].
    rewrite (Hok _ _ _ Hrun). now apply outcome_bind_raise.
Qed.

End FusionFacts.

(** ** The statements about the dataset on concrete inputs *)

Module CardiacInstances.
Import Py Np Trace Str Cardiac Inputs Texts MonadFacts CardiacFacts DatasetFacts
  CropFacts StrFacts NameFacts AdapterFacts.
Local Open Scope Z_scope.

Lemma crop_paper_depth_only_witness :
  (exists r, crop_img_paper 0 (Example.vol [2; 5; 200; 150]) = Ok r /\
     shape r = [2; 8; 200; 150]) /\
  (exists r, crop_label_paper 0 (Example.vol [10; 200; 150]) = Ok r /\
     shape r = [8; 200; 150]).
Proof.
  destruct (crop_paper_depth_only 0 (Example.vol [2; 5; 200; 150])
              (Example.vol [10; 200; 150]) 2 5 200 150 10 200 150 eq_refl eq_refl)
    as ((r & Hr & Hs & _) & (r' & Hr' & Hs' & _)).
  split; [exists r|exists r']; split; assumption.
Defined.

Lemma crop_img_is_paper_then_window_witness :
  exists r p w,
    crop_img 0 (Example.vol [30; 10; 256; 216]) = Ok r /\
    crop_img_paper 0 (Example.vol [30; 10; 256; 216]) = Ok p /\
    getslice p [Full; Full; Range 56 200; Range 36 180] = Ok w /\
    array_eq r w.
Proof.
  apply (crop_img_is_paper_then_window 0 (Example.vol [30; 10; 256; 216])
           30 10 256 216 eq_refl); lia.
Defined.

Lemma crop_keeps_centre_window_witness :
  (exists r, crop_img 0 (Example.vol [30; 10; 256; 216]) = Ok r /\
     shape r = [30; 8; 144; 144] /\
     item r [0; 0; 0; 0] = item (Example.vol [30; 10; 256; 216]) [0; 1; 56; 36]) /\
  (exists r, crop_label 0 (Example.vol [10; 256; 216]) = Ok r /\
     shape r = [8; 144; 144] /\
     item r [0; 0; 0] = item (Example.vol [10; 256; 216]) [1; 56; 36]).
Proof.
  destruct (crop_keeps_centre_window 0 (Example.vol [30; 10; 256; 216])
              (Example.vol [10; 256; 216]) 30 10 256 216 10 256 216)
    as ((r & Hr & Hs & Hi) & (r' & Hr' & Hs' & Hi')); try reflexivity; try lia.
  split; [exists r|exists r']; (split; [assumption|]); (split; [assumption|]).
  - exact (Hi 0 0 0 0).
  - exact (Hi' 0 0 0).
Defined.

Lemma crop_idempotent_witness :
  exists r rl,
    crop_img 0 (Example.vol [2; 5; 200; 150]) = Ok r /\
    crop_label 0 (Example.vol [10; 256; 216]) = Ok rl /\
    (exists r', crop_img 0 r = Ok r' /\ array_eq r' r) /\
    (exists r', crop_label 0 rl = Ok r' /\ array_eq r' rl).
Proof.
  destruct (crop_img 0 (Example.vol [2; 5; 200; 150])) as [r|e] eqn:Hr;
    [|discriminate Hr].
  destruct (crop_label 0 (Example.vol [10; 256; 216])) as [rl|e] eqn:Hrl;
    [|discriminate Hrl].
  exists r, rl. split; [reflexivity|]. split; [reflexivity|].
  apply (crop_idempotent 0 (Example.vol [2; 5; 200; 150])
           (Example.vol [10; 256; 216]) r rl 2 5 200 150 10 256 216);
    try reflexivity; try assumption; lia.
Defined.

Lemma crop_short_axis_pad_raises_witness :
  crop_img 0 (Example.vol [2; 5; 100; 200]) = Raise ValueError /\
  crop_label 0 (Example.vol [5; 200; 100]) = Raise ValueError.
Proof.
  apply (crop_short_axis_pad_raises 0 (Example.vol [2; 5; 100; 200])
           (Example.vol [5; 200; 100]) 2 5 100 200 5 200 100);
    try reflexivity; try lia.
Defined.


Lemma crop_rank_too_small_witness :
  crop_img 0 (Example.vol [10; 256; 216]) = Raise IndexError /\
  crop_label 0 (Example.vol [256; 216]) = Raise IndexError /\
  crop_img_paper 0 (Example.vol [10; 256; 216]) = Raise IndexError /\
  crop_label_paper 0 (Example.vol [256; 216]) = Raise IndexError.
Proof.
  apply (crop_rank_too_small 0 (Example.vol [10; 256; 216])
           (Example.vol [256; 216])); cbn; lia.
Defined.

Lemma zfill_length_witness :
  String.length (zfill 3 "5") = 3%nat /\ zfill 3 "1234" = "1234".
Proof.
  split.
  - exact (proj1 (zfill_length 3 "5")).
  - apply (proj2 (zfill_length 3 "1234")). cbn. lia.
Defined.

Lemma ptnum_of_first_run_witness :
  ptnum_of "case_7_of_12" = Ok "007" /\ ptnum_of "case_1234" = Ok "1234".
Proof.
  split.
  - apply (ptnum_of_first_run "case_" "7" "_of_12");
      [repeat split|repeat split|discriminate|reflexivity].
  - apply (ptnum_of_first_run "case_" "1234" "");
      [repeat split|repeat split|discriminate|exact I|cbn; lia].
Defined.

Lemma frame_of_info_lines_witness :
  frame_of (info_lines 1 1 1 10 (String nl "Group: DCM")) 0 = Ok 1 /\
  frame_of (info_lines 1 1 1 10 (String nl "Group: DCM")) 1 = Ok 10.
Proof. exact (frame_of_info_lines 1 1 1 10 (String nl "Group: DCM") eq_refl). Defined.

Lemma frame_of_malformed_witness :
  frame_of "ED 1" 0 = Raise IndexError /\ frame_of "ED:1" 1 = Raise IndexError.
Proof.
  split.
  - apply (proj1 (frame_of_malformed "ED 1")). repeat split; discriminate.
  - apply (proj2 (frame_of_malformed "ED:1")). repeat split; discriminate.
Defined.

Lemma init_stops_at_first_failure_witness :
  __init__ 0 (fun _ => 0) (fun _ => 1) Z.sub Z.div id Example.files Example.texts
    "patient"
  = ([], Raise IndexError) /\
  __init__ 0 (fun _ => 0) (fun _ => 1) Z.sub Z.div id Example.files Example.texts
    "patient7"
  = ([IMG_DIR +:+ "/patient007/patient007_4d.nii.gz"], Raise FileNotFoundError).
Proof.
  split.
  - apply (proj1 (init_stops_at_first_failure 0 (fun _ => 0) (fun _ => 1)
                    Z.sub Z.div id Example.files Example.texts "patient")).
    repeat split.
  - destruct (init_stops_at_first_failure 0 (fun _ => 0) (fun _ => 1)
                Z.sub Z.div id Example.files Example.texts "patient7")
      as (_ & H & _).
    exact (H "007" FileNotFoundError eq_refl eq_refl).
Defined.

Lemma constructed_has_one_example_witness :
  exists self,
    outcome Example.dataset = Ok self /\
    __len__ self = 1 /\
    __getitem__ id id self (-1) = __getitem__ id id self 0 /\
    __getitem__ id id self 1 = Raise IndexError.
Proof.
  destruct (outcome Example.dataset) as [self|e] eqn:Hself; [|discriminate Hself].
  exists self. split; [reflexivity|].
  destruct (constructed_has_one_example 0 (fun _ => 0) (fun _ => 1) Z.sub Z.div
              id id Example.files Example.texts "patient5" self Hself)
    as (Hlen & _ & Hlast & Hout).
  split; [exact Hlen|]. split; [exact Hlast|]. apply Hout; lia.
Defined.

Lemma labels_ed_then_es_witness :
  exists self ed' es' im g,
    outcome Example.dataset = Ok self /\
    crop_label 0 (Example.vol [10; 256; 216]) = Ok ed' /\
    crop_label 0 (Example.vol [10; 256; 216]) = Ok es' /\
    __getitem__ id id self 0 = Ok (im, g) /\
    forall k x y, 0 <= k < 8 -> 0 <= x < 144 -> 0 <= y < 144 ->
      item g [k; x; y] = item ed' [k; x; y] /\
      item g [8 + k; x; y] = item es' [k; x; y].
Proof.
  destruct (outcome Example.dataset) as [self|e] eqn:Hself; [|discriminate Hself].
  destruct (labels_ed_then_es 0 (fun _ => 0) (fun _ => 1) Z.sub Z.div id id
              Example.files Example.texts "patient5" self Hself)
    as (ptnum & content & ed & es & ed_label & es_label & ed' & es'
        & Hpt & Hc & Hed & Hes & Hedl & Hesl & Hed' & Hes' & H).
  injection Hpt as <-. injection Hc as <-.
  injection Hed as <-. injection Hes as <-.
  injection Hedl as <-. injection Hesl as <-.
  destruct (crop_label_centre 0 (Example.vol [10; 256; 216]) 10 256 216)
    as (r & Hr & Hs & _); try reflexivity; try lia.
  assert (Hsd : shape ed' = [8; 144; 144])
    by (rewrite Hr in Hed'; injection Hed' as <-; exact Hs).
  assert (Hss : shape es' = [8; 144; 144])
    by (rewrite Hr in Hes'; injection Hes' as <-; exact Hs).
  destruct (H Hsd Hss) as (im & g & Hget & Hitems).
  exists self, ed', es', im, g. repeat (split; [assumption || reflexivity|]).
  exact Hitems.
Defined.

Lemma image_ed_then_es_witness :
  exists self v' (c : ndarray Z) im g,
    outcome Example.dataset = Ok self /\
    crop_img 0 (Example.vol [30; 10; 256; 216]) = Ok v' /\
    shape c = [2; 8; 144; 144] /\
    __getitem__ id id self 0 = Ok (im, g) /\
    forall k x y, 0 <= k < 8 -> 0 <= x < 144 -> 0 <= y < 144 ->
      item im [0; k; x; y] = (item v' [1 - 1; k; x; y] - 0) / 1 /\
      item im [0; 8 + k; x; y] = (item v' [10 - 1; k; x; y] - 0) / 1.
Proof.
  destruct (outcome Example.dataset) as [self|e] eqn:Hself; [|discriminate Hself].
  destruct (image_ed_then_es 0 (fun _ => 0) (fun _ => 1) Z.sub Z.div id id
              Example.files Example.texts "patient5" self Hself)
    as (ptnum & content & ed & es & v & v' & Hpt & Hv & Hc & Hed & Hes & Hv' & H).
  injection Hpt as <-. injection Hc as <-.
  injection Hed as <-. injection Hes as <-. injection Hv as <-.
  destruct (crop_img_centre 0 (Example.vol [30; 10; 256; 216]) 30 10 256 216)
    as (r & Hr & Hs & _); try reflexivity; try lia.
  assert (Hsv : shape v' = [30; 8; 144; 144])
    by (rewrite Hr in Hv'; injection Hv' as <-; exact Hs).
  destruct (H 30 Hsv) as (a & b & c & im & g & _ & _ & _ & Hsc & Hget & Hitems);
    try (vm_compute; split; discriminate).
  exists self, v', c, im, g. repeat (split; [assumption || reflexivity|]).
  exact Hitems.
Defined.

End CardiacInstances.

(** ** The statements about the network on concrete inputs *)

Module NetworkInstances.
Import Py Trace Torch ELUNet InitLoops ExampleNet MonadFacts TorchFacts BlockFacts
  InitFacts ForwardFacts ShapeFacts EncoderFacts NetworkFacts FusionFacts.
Local Open Scope Z_scope.

Lemma DsBlock_forward_shapes_witness :
  (exists out before_pool,
     DsBlock_forward (DsBlock_init 1 2 true) (input [2; 1; 144; 144; 8])
     = Ok (out, before_pool) /\
     shape out = [2; 2; 72; 72; 4] /\ shape before_pool = [2; 2; 144; 144; 8]) /\
  DsBlock_forward (DsBlock_init 4 8 true) (input [2; 4; 36; 36; 1])
  = Raise RuntimeError.
Proof.
  split.
  - destruct (DsBlock_forward_shapes 1 2 2 144 144 8 (Leaf 0)) as (_ & H & _);
      try lia.
    apply H; lia.
  - destruct (DsBlock_forward_shapes 4 8 2 36 36 1 (Leaf 0)) as (_ & _ & H);
      try lia.
    apply H. right. right. reflexivity.
Defined.

Lemma upconv2x2_doubles_witness :
  (exists u,
     upconv_forward (upconv2x2 16 8 "trilinear") (input [2; 16; 18; 18; 1]) = Ok u /\
     shape u = [2; 8; 36; 36; 2]) /\
  (exists u,
     upconv_forward (upconv2x2 16 8 "transpose") (input [16; 18; 18; 1]) = Ok u /\
     shape u = [8; 36; 36; 2]) /\
  upconv_forward (upconv2x2 16 8 "trilinear") (input [16; 18; 18; 1])
  = Raise NotImplementedError.
Proof.
  split; [|split].
  - apply (upconv2x2_doubles 16 8 "trilinear" 2 18 18 1 (Leaf 0)); lia.
  - destruct (upconv2x2_doubles 16 8 "transpose" 2 18 18 1 (Leaf 0))
      as (_ & H & _); try lia.
    apply H. reflexivity.
  - destruct (upconv2x2_doubles 16 8 "trilinear" 2 18 18 1 (Leaf 0))
      as (_ & _ & H); try lia.
    apply H. discriminate.
Defined.

Lemma UsBlockRes_forward_shapes_witness :
  let self := UsBlockRes_init 4 2 "trilinear" in
  let x := {| shape := [1; 4; 2; 2; 2]; val := Leaf 0 |} in
  let same := {| shape := [1; 2; 4; 4; 4]; val := Leaf 1 |} in
  let other := {| shape := [1; 2; 2; 2; 2]; val := Leaf 1 |} in
  (exists y, outcome (UsBlockRes_forward self same x) = Ok y /\
     shape y = [1; 2; 4; 4; 4]) /\
  events (UsBlockRes_forward self same x) = [] /\
  events (UsBlockRes_forward self other x) = [Interpolate other [4; 4; 4]].
Proof.
  intros self x same other.
  destruct (UsBlockRes_forward_shapes 4 2 "trilinear" 1 2 2 2 4 4 4
              (Leaf 0) (Leaf 1)) as (Hy & He); try lia.
  destruct (UsBlockRes_forward_shapes 4 2 "trilinear" 1 2 2 2 2 2 2
              (Leaf 0) (Leaf 1)) as (_ & He'); try lia.
  split; [exact Hy|]. split; [exact He|exact He'].
Defined.

Lemma encoder_stage_shapes_witness :
  exists self out before_pool,
    __init__ 4 1 4 1 "trilinear" false = Ok self /\
    In (Return (down_convs_ 2) [out; before_pool]) (events (forward self main_x)) /\
    shape before_pool = [2; 8; 36; 36; 2] /\
    shape out = [2; 8; 18; 18; 1].
Proof.
  pose (self := ltac:(let t := eval vm_compute in (__init__ 4 1 4 1 "trilinear" false) in
                      match t with Ok ?m => exact m end) : ELUNet).
  destruct (encoder_stage_shapes 4 1 4 1 "trilinear" false self 2 144 144 8
              (Leaf 0) 2) as (out & bp & Hin & Hsb & Hso);
    try lia; try reflexivity.
  exists self, out, bp. split; [reflexivity|]. split; [exact Hin|].
  split; [exact Hsb|exact Hso].
Defined.

Lemma forward_input_too_small_witness :
  exists self (k : nat) t,
    __init__ 4 1 4 1 "trilinear" false = Ok self /\
    outcome (forward self (input [2; 1; 144; 144; 4])) = Raise RuntimeError /\
    Z.of_nat k < 4 - 1 /\
    last (events (forward self (input [2; 1; 144; 144; 4])))
    = Some (Call (down_convs_ k) [t]) /\
    (forall e, In e (events (forward self (input [2; 1; 144; 144; 4]))) ->
       event_member e <> Some conv_ /\
       forall i, event_member e <> Some (up_convs_ i)).
Proof.
  pose (self := ltac:(let t := eval vm_compute in (__init__ 4 1 4 1 "trilinear" false) in
                      match t with Ok ?m => exact m end) : ELUNet).
  destruct (forward_input_too_small 4 1 4 1 "trilinear" false self 2 144 144 4
              (Leaf 0)) as (Hout & (k & t & Hk & Hlast) & Hev);
    try lia; try reflexivity.
  exists self, k, t. split; [reflexivity|]. split; [exact Hout|].
  split; [exact Hk|]. split; [exact Hlast|exact Hev].
Defined.

Lemma init_needs_a_stage_witness :
  __init__ 4 1 0 64 "transpose" false = Raise NameError.
Proof. apply (init_needs_a_stage 4 1 0 64 "transpose" false); lia. Defined.

Lemma init_head_widths_witness :
  exists self,
    __init__ 4 3 5 64 "transpose" false = Ok self /\
    conv_final self = conv1x1 128 4 /\
    conv self = conv3x3 256 128 1 1 true.
Proof. apply (init_head_widths 4 3 5 64 "transpose" false); lia. Defined.

Lemma forward_returns_only_at_depth_1_witness :
  exists self y,
    __init__ 4 1 1 8 "transpose" false = Ok self /\
    outcome (forward self (input [2; 1; 144; 144; 8])) = Ok (y, []) /\
    shape y = [2; 16; 144; 144; 8].
Proof.
  pose (self := ltac:(let t := eval vm_compute in (__init__ 4 1 1 8 "transpose" false) in
                      match t with Ok ?m => exact m end) : ELUNet).
  destruct (forward_returns_only_at_depth_1 4 1 1 8 "transpose" false self
              2 144 144 8 (Leaf 0)) as (H & _); try lia; try reflexivity.
  destruct (H eq_refl) as (y & Hy & Hs).
  exists self, y. split; [reflexivity|]. split; [exact Hy|exact Hs].
Defined.

Lemma shared_conv_never_returns_witness :
  exists self z,
    __init__ 4 1 4 1 "trilinear" false = Ok self /\
    In (Call conv_ [z])
       (events (forward {| conv_start := conv_start self;
                           down_convs := down_convs self;
                           up_convs := [Res (UsBlockRes_init 16 8 "trilinear")];
                           conv_final := conv_final self;
                           conv := conv self |} main_x)) /\
    channels z = Ok 24 /\
    Torch.in_channels (conv self) = 4 /\
    outcome (forward {| conv_start := conv_start self;
                        down_convs := down_convs self;
                        up_convs := [Res (UsBlockRes_init 16 8 "trilinear")];
                        conv_final := conv_final self;
                        conv := conv self |} main_x) = Raise RuntimeError.
Proof.
  pose (self := ltac:(let t := eval vm_compute in (__init__ 4 1 4 1 "trilinear" false) in
                      match t with Ok ?m => exact m end) : ELUNet).
  destruct (shared_conv_never_returns 4 1 4 1 "trilinear" false self
              (Res (UsBlockRes_init 16 8 "trilinear")) [] 2 144 144 8 (Leaf 0))
    as (Hw & _ & Hreach); try lia; try reflexivity; try (cbn; lia).
  exists self. eexists. split; [reflexivity|].
  match goal with |- ?P /\ _ => assert (Hcall : P) by (vm_compute; find_event) end.
  split; [exact Hcall|].
  destruct (Hreach _ Hcall) as (Hch & _ & Hout).
  split; [exact Hch|]. split; [exact Hw|exact Hout].
Defined.

End NetworkInstances.
